(** * pdf2jpg: the conversion and batch-orchestration engine

    A shallow embedding of [refcode/pdf2jpg/converter.py] (with the two
    dataclasses of [config.py] it reads) and the properties of its
    path naming, skip policy, crop geometry, page loop, status
    classification and batch aggregation. *)

From Stdlib Require Import ZArith QArith Qround Qpower Lqa SpecFloat Ascii String.
From Stdlib Require Import DecimalString DecimalNat.
From stdpp Require Import gmap strings list sorting.

Local Open Scope stdpp_scope.

(** ** Paths

    A [pathlib] path is kept as the list of its components
    ([PurePath.parts]); the empty list is the current directory [.].
    Joining with a single-segment file name appends one component. *)

Abbreviation Path := (list string).

Definition path_join (folder : Path) (filename : string) : Path :=
  folder ++ [filename].

Definition path_name (p : Path) : string := List.last p "".

Definition path_parent (p : Path) : Path := removelast p.

(** [str.rfind('.')] on the characters of a name: position of the last
    dot, if any. *)
Fixpoint rfind_dot (s : string) : option nat :=
  match s with
  | EmptyString => None
  | String c s' =>
      match rfind_dot s' with
      | Some i => Some (S i)
      | None => if Ascii.eqb c "."%char then Some 0%nat else None
      end
  end.

(** [PurePath.stem]: the name up to its last dot, unless that dot is
    the first or the last character of the name. *)
Definition path_stem (p : Path) : string :=
  let name := path_name p in
  match rfind_dot name with
  | Some i =>
      if ((0 <? i)%nat && (i <? String.length name - 1)%nat)%bool
      then String.substring 0 i name
      else name
  | None => name
  end.

(** ** Formatting [{n:03d}] *)

Definition str_of_nat (n : nat) : string :=
  NilEmpty.string_of_uint (Nat.to_uint n).

Fixpoint zeros (k : nat) : string :=
  match k with
  | O => ""
  | S k' => String "0" (zeros k')
  end.

Definition format_03d (n : nat) : string :=
  let s := str_of_nat n in
  zeros (3 - String.length s) +:+ s.

(** ** [get_output_path] (converter.py, lines 57-74) *)

Definition get_output_path
    (pdf_path : Path) (page_num : nat) (output_folder : Path) (fmt : string)
  : Path :=
  let stem := path_stem pdf_path in
  let filename := stem +:+ "_" +:+ format_03d (page_num + 1) +:+ "." +:+ fmt in
  path_join output_folder filename.


(** ** Settings (config.py, lines 15-55)

    Percentages are Python floats. A field holds the exact rational
    value of its float, so the comparisons of the validation are exact;
    the crop arithmetic below takes the value back to binary64. *)

Record CropSettings := {
  enabled : bool;
  horizontal_start : Q;
  horizontal_end : Q;
  vertical_start : Q;
  vertical_end : Q
}.

(** [CropSettings.__post_init__]: [true] when no [ValueError] is raised. *)
Definition crop_settings_valid (c : CropSettings) : bool :=
  forallb (fun value => Qle_bool 0 value && Qle_bool value 100)
    [horizontal_start c; horizontal_end c; vertical_start c; vertical_end c]
  && negb (Qle_bool (horizontal_end c) (horizontal_start c))
  && negb (Qle_bool (vertical_end c) (vertical_start c)).

Record Settings := {
  input_folder : Path;
  output_folder : Path;
  dpi : Z;
  format : string;
  jpg_quality : Z;
  colorspace : string;
  overwrite : bool;
  skip_if_exists : bool;
  max_pages_per_pdf : Z;
  fail_fast : bool;
  log_file : option Path;
  crop : CropSettings
}.

Definition set_skip_if_exists (b : bool) (s : Settings) : Settings :=
  {| input_folder := input_folder s; output_folder := output_folder s;
     dpi := dpi s; format := format s; jpg_quality := jpg_quality s;
     colorspace := colorspace s; overwrite := overwrite s;
     skip_if_exists := b; max_pages_per_pdf := max_pages_per_pdf s;
     fail_fast := fail_fast s; log_file := log_file s; crop := crop s |}.

(** ** Results (converter.py, lines 18-54) *)

Inductive Status := success | partial | failed | skipped.

Global Instance Status_eq_dec : EqDecision Status.
Proof. solve_decision. Defined.

Record ConversionResult := {
  pdf_path : Path;
  status : Status;
  pages_total : nat;
  pages_converted : nat;
  pages_failed : nat;
  error_message : option string;
  output_files : list Path
}.

(** [ConversionResult(pdf_path=pdf_path, status=...)] with the
    dataclass defaults. *)
Definition new_result (p : Path) (st : Status) : ConversionResult :=
  {| pdf_path := p; status := st; pages_total := 0; pages_converted := 0;
     pages_failed := 0; error_message := None; output_files := [] |}.

Definition set_status (st : Status) (r : ConversionResult) : ConversionResult :=
  {| pdf_path := pdf_path r; status := st; pages_total := pages_total r;
     pages_converted := pages_converted r; pages_failed := pages_failed r;
     error_message := error_message r; output_files := output_files r |}.

Definition set_error_message (m : string) (r : ConversionResult) : ConversionResult :=
  {| pdf_path := pdf_path r; status := status r; pages_total := pages_total r;
     pages_converted := pages_converted r; pages_failed := pages_failed r;
     error_message := Some m; output_files := output_files r |}.

Definition set_pages_total (n : nat) (r : ConversionResult) : ConversionResult :=
  {| pdf_path := pdf_path r; status := status r; pages_total := n;
     pages_converted := pages_converted r; pages_failed := pages_failed r;
     error_message := error_message r; output_files := output_files r |}.

(** [result.pages_converted += 1; result.output_files.append(output_path)] *)
Definition add_converted (output_path : Path) (r : ConversionResult) : ConversionResult :=
  {| pdf_path := pdf_path r; status := status r; pages_total := pages_total r;
     pages_converted := pages_converted r + 1; pages_failed := pages_failed r;
     error_message := error_message r;
     output_files := output_files r ++ [output_path] |}.

(** [result.pages_failed += 1] *)
Definition incr_pages_failed (r : ConversionResult) : ConversionResult :=
  {| pdf_path := pdf_path r; status := status r; pages_total := pages_total r;
     pages_converted := pages_converted r; pages_failed := pages_failed r + 1;
     error_message := error_message r; output_files := output_files r |}.

Record BatchResult := {
  total_files : nat;
  success_count : nat;
  partial_count : nat;
  failed_count : nat;
  skipped_count : nat;
  results : list ConversionResult
}.

(** [BatchResult()] *)
Definition empty_batch : BatchResult :=
  {| total_files := 0; success_count := 0; partial_count := 0;
     failed_count := 0; skipped_count := 0; results := [] |}.

(** [BatchResult.add] (lines 42-54) *)
Definition add (self : BatchResult) (result : ConversionResult) : BatchResult :=
  let results' := results self ++ [result] in
  let total' := total_files self + 1 in
  match status result with
  | success =>
      {| total_files := total'; success_count := success_count self + 1;
         partial_count := partial_count self; failed_count := failed_count self;
         skipped_count := skipped_count self; results := results' |}
  | partial =>
      {| total_files := total'; success_count := success_count self;
         partial_count := partial_count self + 1; failed_count := failed_count self;
         skipped_count := skipped_count self; results := results' |}
  | failed =>
      {| total_files := total'; success_count := success_count self;
         partial_count := partial_count self; failed_count := failed_count self + 1;
         skipped_count := skipped_count self; results := results' |}
  | skipped =>
      {| total_files := total'; success_count := success_count self;
         partial_count := partial_count self; failed_count := failed_count self;
         skipped_count := skipped_count self + 1; results := results' |}
  end.

(** ** The world the converter runs in

    A file system of regular files and directories, and the records
    handed to the [logging] module, one constructor per call site. *)

Inductive Kind := File | Dir.

Global Instance Kind_eq_dec : EqDecision Kind.
Proof. solve_decision. Defined.

Inductive exn_class :=
  FileDataError | FileExistsError | NotADirectoryError | OverflowError
| OtherException.

Global Instance exn_class_eq_dec : EqDecision exn_class.
Proof. solve_decision. Defined.

(** An instance of (a subclass of) [Exception], with its [str(e)]. *)
Record exn := Exn { exn_class_of : exn_class; exn_str : string }.

(** ** Crop geometry (converter.py, lines 172-175)

    The four bounds are computed on Python floats, that is in IEEE
    binary64, the format [SpecFloat] describes with precision 53 and
    [emax = 1024]. *)

(** [float(n)] for an [int]: the nearest binary64 number, or infinity
    where Python raises [OverflowError]. *)
Definition binary64_of_Z (z : Z) : spec_float :=
  binary_normalize 53 1024 z 0 false.

(** The float a rational stands for: itself when it is a binary64
    number, the nearest one otherwise (the quotient of two integers is
    rounded once). *)
Definition binary64_of_Q (q : Q) : spec_float :=
  match Qnum q with
  | Z0 => S754_zero false
  | Zpos n =>
      SFdiv 53 1024 (S754_finite false n 0) (S754_finite false (Qden q) 0)
  | Zneg n =>
      SFdiv 53 1024 (S754_finite true n 0) (S754_finite false (Qden q) 0)
  end.

(** [int(x)] for a [float]: truncation toward zero; infinities and NaN
    raise. *)
Definition py_int (x : spec_float) : exn + Z :=
  match x with
  | S754_zero _ => inr 0%Z
  | S754_finite s m e =>
      inr (cond_Zopp s
             (if (0 <=? e)%Z then (Zpos m * 2 ^ e)%Z
              else Z.quot (Zpos m) (2 ^ (- e))))
  | S754_infinity _ =>
      inl (Exn OverflowError "cannot convert float infinity to integer")
  | S754_nan => inl (Exn OtherException "cannot convert float NaN to integer")
  end.

(** [int(dimension * percent / 100)]: the [int] operands are converted
    to floats, the product and the quotient are each rounded to
    nearest-even. *)
Definition crop_bound (dimension : Z) (percent : Q) : exn + Z :=
  match binary64_of_Z dimension with
  | S754_infinity _ =>
      inl (Exn OverflowError "int too large to convert to float")
  | d =>
      py_int (SFdiv 53 1024 (SFmul 53 1024 d (binary64_of_Q percent))
                (binary64_of_Z 100))
  end.

(** Lines 172-175, in the order of evaluation. *)
Definition crop_bounds (width height : Z) (c : CropSettings)
  : exn + Z * Z * Z * Z :=
  match crop_bound width (horizontal_start c) with
  | inl e => inl e
  | inr x0 =>
      match crop_bound width (horizontal_end c) with
      | inl e => inl e
      | inr x1 =>
          match crop_bound height (vertical_start c) with
          | inl e => inl e
          | inr y0 =>
              match crop_bound height (vertical_end c) with
              | inl e => inl e
              | inr y1 => inr (x0, y0, x1, y1)
              end
          end
      end
  end.

Inductive LogRecord :=
| LogSkippingOutputExists (name : string)
| LogCorruptPDF (name : string) (e : exn)
| LogFailedToOpen (name : string) (e : exn)
| LogEncryptedPDF (name : string)
| LogSkippingExisting (name : string)
| LogCropped (x0 y0 x1 y1 : Z)
| LogConverted (name : string)
| LogPageFailed (page : nat) (name : string) (e : exn)
| LogDocumentOk (name : string) (converted total : nat)
| LogDocumentPartial (name : string) (converted total nfailed : nat)
| LogDocumentAllFailed (name : string)
| LogInputFolderNotFound (folder : Path)
| LogNoPdfFound (folder : Path)
| LogFound (n : nat)
| LogFailFastStopping.

Record World := {
  fs : gmap Path Kind;
  log : list LogRecord
}.

(** The current directory always exists. *)
Definition kind_of (files : gmap Path Kind) (p : Path) : option Kind :=
  match p with
  | [] => Some Dir
  | _ => files !! p
  end.

(** [Path.exists()], where the operating system answers. The [OSError]
    that [exists] passes on for other error codes (a name that is too
    long, a parent that cannot be searched) has no counterpart in this
    file system: what is said below about a function returning holds in
    the worlds where every existence check answers. *)
Definition path_exists (files : gmap Path Kind) (p : Path) : bool :=
  bool_decide (is_Some (kind_of files p)).

(** [Path.mkdir(parents=True, exist_ok=True)], on the reversed list of
    components so that the recursive call is on the parent: an existing
    directory is left alone, a regular file in the way raises, a missing
    parent is created first. *)
Fixpoint mkdir_rev (rp : list string) (files : gmap Path Kind)
  : exn + gmap Path Kind :=
  match kind_of files (rev rp) with
  | Some Dir => inr files
  | Some File => inl (Exn FileExistsError "File exists")
  | None =>
      match rp with
      | [] => inr files
      | _ :: rparent =>
          match kind_of files (rev rparent) with
          | Some Dir => inr (<[rev rp := Dir]> files)
          | Some File => inl (Exn NotADirectoryError "Not a directory")
          | None =>
              match mkdir_rev rparent files with
              | inl e => inl e
              | inr files' => inr (<[rev rp := Dir]> files')
              end
          end
      end
  end.

Definition mkdir_parents_exist_ok (p : Path) (files : gmap Path Kind)
  : exn + gmap Path Kind :=
  mkdir_rev (rev p) files.

(** [fnmatch] of a name against [*.pdf]. *)
Definition matches_pdf (name : string) : bool :=
  String.prefix (String.rev ".pdf") (String.rev name).

(** [folder.glob("*.pdf")]: the entries directly under [folder] whose
    name matches, in no particular order. *)
Definition glob_pdf (files : gmap Path Kind) (folder : Path) : list Path :=
  match kind_of files folder with
  | Some Dir =>
      filter (fun p => p <> [] /\ path_parent p = folder /\ matches_pdf (path_name p) = true)
             (elements (dom files))
  | _ => []
  end.

(** The order of [PurePath.__lt__]: component lists compared
    lexicographically, components compared as strings. *)
Fixpoint path_leb (p q : Path) : bool :=
  match p, q with
  | [], _ => true
  | _ :: _, [] => false
  | a :: p', b :: q' =>
      match String.compare a b with
      | Lt => true
      | Gt => false
      | Eq => path_leb p' q'
      end
  end.

Definition path_le (p q : Path) : Prop := path_leb p q = true.

Global Instance path_le_dec : RelDecision path_le.
Proof. intros p q. unfold path_le. apply _. Defined.

(** [sorted(...)] on paths. *)
Definition sorted (l : list Path) : list Path := merge_sort path_le l.

(** ** A state-and-exception monad

    A computation runs in a world and either returns or raises; the
    world it leaves behind is kept in both cases. *)

Definition M (A : Type) : Type := World -> (exn + A) * World.

Definition ret {A} (a : A) : M A := fun w => (inr a, w).

Definition raise {A} (e : exn) : M A := fun w => (inl e, w).

Definition bind {A B} (c : M A) (k : A -> M B) : M B :=
  fun w =>
    match c w with
    | (inr a, w') => k a w'
    | (inl e, w') => (inl e, w')
    end.

Notation "x <- c1 ;; c2" := (bind c1 (fun x => c2))
  (at level 100, c1 at next level, right associativity).
Notation "c1 ;; c2" := (bind c1 (fun _ => c2))
  (at level 100, right associativity).

(** [try: body  except Exception as e: handler(e)] *)
Definition try_except {A} (body : M A) (handler : exn -> M A) : M A :=
  fun w =>
    match body w with
    | (inr a, w') => (inr a, w')
    | (inl e, w') => handler e w'
    end.

Definition get_fs : M (gmap Path Kind) := fun w => (inr (fs w), w).

Definition logger (r : LogRecord) : M unit :=
  fun w => (inr tt, {| fs := fs w; log := log w ++ [r] |}).

(** A call that may raise but touches nothing. *)
Definition call {A} (r : exn + A) : M A :=
  match r with
  | inl e => raise e
  | inr a => ret a
  end.

(** A call that writes to the file system and may raise. *)
Definition call_fs (f : gmap Path Kind -> option exn * gmap Path Kind) : M unit :=
  fun w =>
    let '(oe, files) := f (fs w) in
    let w' := {| fs := files; log := log w |} in
    match oe with
    | Some e => (inl e, w')
    | None => (inr tt, w')
    end.

(** ** The renderer (PyMuPDF and PIL), a capability boundary *)

Inductive Colorspace := csGRAY | csRGB.

Class Renderer := {
  Document : Type;
  Page : Type;
  Pixmap : Type;
  Image : Type;
  pymupdf_open : gmap Path Kind -> Path -> exn + Document;
  is_encrypted : Document -> bool;
  len : Document -> nat;
  load_page : Document -> nat -> exn + Page;
  get_pixmap : Page -> Z -> Colorspace -> exn + Pixmap;
  pix_width : Pixmap -> Z;
  pix_height : Pixmap -> Z;
  pix_save : Pixmap -> Path -> option Z ->
             gmap Path Kind -> option exn * gmap Path Kind;
  import_PIL : exn + unit;
  pix_tobytes : Pixmap -> string -> exn + list Byte.byte;
  Image_open : list Byte.byte -> exn + Image;
  Image_crop : Image -> Z * Z * Z * Z -> exn + Image;
  Image_save : Image -> Path -> string -> option Z ->
               gmap Path Kind -> option exn * gmap Path Kind
}.

(** ** The converter (converter.py, lines 77-267) *)

Section Converter.
Context {R : Renderer}.

(** [should_skip_pdf] (lines 77-97) *)
Definition should_skip_pdf (pdf_path : Path) (settings : Settings) : M bool :=
  if negb (skip_if_exists settings) || overwrite settings then ret false
  else
    let first_page_path :=
      get_output_path pdf_path 0 (output_folder settings) (format settings) in
    files <- get_fs ;;
    if path_exists files first_page_path then
      logger (LogSkippingOutputExists (path_name pdf_path)) ;;
      ret true
    else ret false.

(** The body of the [try] of the page loop (lines 163-202). The counters
    of [result] are touched only after the last call that can raise, so
    the handler sees [result] as it was when the [try] was entered. *)
Definition page_try_body
    (pdf_path : Path) (settings : Settings) (doc : Document) (cs : Colorspace)
    (page_num : nat) (output_path : Path) (result : ConversionResult)
  : M ConversionResult :=
  page <- call (load_page doc page_num) ;;
  pix <- call (get_pixmap page (dpi settings) cs) ;;
  if enabled (crop settings) then
    let width := pix_width pix in
    let height := pix_height pix in
    bounds <- call (crop_bounds width height (crop settings)) ;;
    let '(x0, y0, x1, y1) := bounds in
    call import_PIL ;;
    img_data <- call (pix_tobytes pix "ppm") ;;
    img <- call (Image_open img_data) ;;
    img_cropped <- call (Image_crop img (x0, y0, x1, y1)) ;;
    (if String.eqb (format settings) "png"
     then call_fs (Image_save img_cropped output_path "PNG" None)
     else call_fs (Image_save img_cropped output_path "JPEG"
                     (Some (jpg_quality settings)))) ;;
    logger (LogCropped x0 y0 x1 y1) ;;
    let result := add_converted output_path result in
    logger (LogConverted (path_name output_path)) ;;
    ret result
  else
    (if String.eqb (format settings) "png"
     then call_fs (pix_save pix output_path None)
     else call_fs (pix_save pix output_path (Some (jpg_quality settings)))) ;;
    let result := add_converted output_path result in
    logger (LogConverted (path_name output_path)) ;;
    ret result.

(** One iteration of the page loop (lines 151-206). *)
Definition page_body
    (pdf_path : Path) (settings : Settings) (doc : Document) (cs : Colorspace)
    (page_num : nat) (result : ConversionResult)
  : M ConversionResult :=
  let output_path :=
    get_output_path pdf_path page_num (output_folder settings) (format settings) in
  files <- get_fs ;;
  if path_exists files output_path && negb (overwrite settings) then
    logger (LogSkippingExisting (path_name output_path)) ;;
    ret (add_converted output_path result)
  else
    try_except
      (page_try_body pdf_path settings doc cs page_num output_path result)
      (fun e =>
         logger (LogPageFailed (page_num + 1) (path_name pdf_path) e) ;;
         ret (incr_pages_failed result)).

(** [for x in xs: s = body(x, s)] *)
Fixpoint for_each {A S : Type} (body : A -> S -> M S) (xs : list A) (s : S)
  : M S :=
  match xs with
  | [] => ret s
  | x :: xs' => s' <- body x s ;; for_each body xs' s'
  end.

(** Lines 146-148. *)
Definition pages_to_process (settings : Settings) (doc : Document) : nat :=
  let max_pages :=
    if (0 <? max_pages_per_pdf settings)%Z
    then Z.to_nat (max_pages_per_pdf settings)
    else len doc in
  Nat.min (len doc) max_pages.

(** The page loop (line 150). *)
Definition page_loop
    (pdf_path : Path) (settings : Settings) (doc : Document) (cs : Colorspace)
    (n : nat) (result : ConversionResult)
  : M ConversionResult :=
  for_each (page_body pdf_path settings doc cs) (seq 0 n) result.

(** "Determine final status" (lines 210-225). *)
Definition determine_final_status
    (pdf_path : Path) (result : ConversionResult) : M ConversionResult :=
  if (pages_failed result =? 0)%nat then
    logger (LogDocumentOk (path_name pdf_path)
              (pages_converted result) (pages_total result)) ;;
    ret (set_status success result)
  else if (0 <? pages_converted result)%nat then
    logger (LogDocumentPartial (path_name pdf_path)
              (pages_converted result) (pages_total result)
              (pages_failed result)) ;;
    ret (set_status partial result)
  else
    logger (LogDocumentAllFailed (path_name pdf_path)) ;;
    ret (set_error_message "All pages failed to render"
           (set_status failed result)).

(** Lines 138-227: what [convert_pdf] does with an open, unencrypted
    document. A document holds no resource here, so [doc.close()] has
    no counterpart. *)
Definition convert_open_document
    (pdf_path : Path) (settings : Settings) (doc : Document)
    (result : ConversionResult) : M ConversionResult :=
  let result := set_pages_total (len doc) result in
  let cs := if String.eqb (colorspace settings) "gray" then csGRAY else csRGB in
  result <- page_loop pdf_path settings doc cs
              (pages_to_process settings doc) result ;;
  determine_final_status pdf_path result.

(** [convert_pdf] (lines 100-227) *)
Definition convert_pdf (pdf_path : Path) (settings : Settings)
  : M ConversionResult :=
  let result := new_result pdf_path success in
  skip <- should_skip_pdf pdf_path settings ;;
  if skip then ret (set_status skipped result)
  else
    files <- get_fs ;;
    match pymupdf_open files pdf_path with
    | inl e =>
        if decide (exn_class_of e = FileDataError) then
          logger (LogCorruptPDF (path_name pdf_path) e) ;;
          ret (set_error_message ("Corrupt PDF: " +:+ exn_str e)
                 (set_status failed result))
        else
          logger (LogFailedToOpen (path_name pdf_path) e) ;;
          ret (set_error_message (exn_str e) (set_status failed result))
    | inr doc =>
        if is_encrypted doc then
          logger (LogEncryptedPDF (path_name pdf_path)) ;;
          ret (set_error_message "Password protected"
                 (set_status failed result))
        else convert_open_document pdf_path settings doc result
    end.

(** The batch loop (lines 258-265). *)
Fixpoint batch_loop (settings : Settings) (pdf_files : list Path)
    (batch_result : BatchResult) : M BatchResult :=
  match pdf_files with
  | [] => ret batch_result
  | pdf_path :: rest =>
      result <- convert_pdf pdf_path settings ;;
      let batch_result := add batch_result result in
      if fail_fast settings && bool_decide (status result = failed) then
        logger LogFailFastStopping ;;
        ret batch_result
      else batch_loop settings rest batch_result
  end.

(** [convert_batch] (lines 230-267) *)
Definition convert_batch (settings : Settings) : M BatchResult :=
  let batch_result := empty_batch in
  files <- get_fs ;;
  if negb (path_exists files (input_folder settings)) then
    logger (LogInputFolderNotFound (input_folder settings)) ;;
    ret batch_result
  else
    call_fs (fun files =>
               match mkdir_parents_exist_ok (output_folder settings) files with
               | inl e => (Some e, files)
               | inr files' => (None, files')
               end) ;;
    files <- get_fs ;;
    let pdf_files := sorted (glob_pdf files (input_folder settings)) in
    match pdf_files with
    | [] =>
        logger (LogNoPdfFound (input_folder settings)) ;;
        ret batch_result
    | _ =>
        logger (LogFound (length pdf_files)) ;;
        batch_loop settings pdf_files batch_result
    end.

End Converter.

(** ** A test double for the renderer

    Documents are given by a table from paths; a page renders or not;
    saving writes the file; PIL refuses to encode an empty image. *)

Record FakePage := {
  fake_width : Z;
  fake_height : Z;
  fake_renders : bool
}.

Record FakeDocument := {
  fake_encrypted : bool;
  fake_pages : list FakePage
}.

Definition fake_renderer (disk : Path -> exn + FakeDocument) : Renderer := {|
  Document := FakeDocument;
  Page := FakePage;
  Pixmap := FakePage;
  Image := bool;
  pymupdf_open := fun _ p => disk p;
  is_encrypted := fake_encrypted;
  len := fun d => length (fake_pages d);
  load_page := fun d i =>
    match fake_pages d !! i with
    | Some pg => inr pg
    | None => inl (Exn OtherException "page not in document")
    end;
  get_pixmap := fun pg _ _ =>
    if fake_renders pg then inr pg
    else inl (Exn OtherException "cannot render page");
  pix_width := fake_width;
  pix_height := fake_height;
  pix_save := fun _ path _ files => (None, <[path := File]> files);
  import_PIL := inr tt;
  pix_tobytes := fun _ _ => inr [];
  Image_open := fun _ => inr false;
  Image_crop := fun _ '(x0, y0, x1, y1) =>
    inr ((x1 <=? x0)%Z || (y1 <=? y0)%Z);
  Image_save := fun empty path _ _ files =>
    if empty : bool
    then (Some (Exn OtherException "cannot write empty image"), files)
    else (None, <[path := File]> files)
|}.

Definition a4_page : FakePage :=
  {| fake_width := 1240; fake_height := 1754; fake_renders := true |}.

Definition broken_page : FakePage :=
  {| fake_width := 1240; fake_height := 1754; fake_renders := false |}.

Definition sample_disk (p : Path) : exn + FakeDocument :=
  if decide (p = ["input"; "a.pdf"]) then
    inr {| fake_encrypted := false; fake_pages := [a4_page; a4_page] |}
  else if decide (p = ["input"; "b.pdf"]) then
    inl (Exn FileDataError "no objects found")
  else if decide (p = ["input"; "c.pdf"]) then
    inr {| fake_encrypted := false; fake_pages := [a4_page] |}
  else if decide (p = ["input"; "d.pdf"]) then
    inr {| fake_encrypted := false;
           fake_pages := [a4_page; broken_page; a4_page] |}
  else if decide (p = ["input"; "empty.pdf"]) then
    inr {| fake_encrypted := false; fake_pages := [] |}
  else inl (Exn OtherException "no such file").

Definition no_crop : CropSettings :=
  {| enabled := false; horizontal_start := 0; horizontal_end := 100;
     vertical_start := 0; vertical_end := 100 |}.

Definition sample_settings : Settings :=
  {| input_folder := ["input"]; output_folder := ["output"]; dpi := 150;
     format := "jpg"; jpg_quality := 90; colorspace := "rgb";
     overwrite := false; skip_if_exists := true; max_pages_per_pdf := 0;
     fail_fast := true; log_file := None; crop := no_crop |}.

Definition sample_fs : gmap Path Kind :=
  <[ ["input"] := Dir ]>
    (<[ ["input"; "a.pdf"] := File ]>
       (<[ ["input"; "b.pdf"] := File ]>
          (<[ ["input"; "c.pdf"] := File ]> ∅))).

Definition sample_world : World := {| fs := sample_fs; log := [] |}.

Definition mixed_document : FakeDocument :=
  {| fake_encrypted := false; fake_pages := [a4_page; broken_page; a4_page] |}.

Definition empty_document : FakeDocument :=
  {| fake_encrypted := false; fake_pages := [] |}.

(** The same with the output directory in place. *)
Definition ready_world : World :=
  {| fs := <[ ["output"] := Dir ]> sample_fs; log := [] |}.

(** A world in which page 1 of [a.pdf] has already been produced. *)
Definition resumed_world : World :=
  {| fs := <[ ["output"; "a_001.jpg"] := File ]>
             (<[ ["output"] := Dir ]> sample_fs);
     log := [] |}.

(** ** Reading the log

    Every iteration of the page loop ends with exactly one of three
    records: the page was already there, was converted, or failed. *)

Definition is_page_record (r : LogRecord) : bool :=
  match r with
  | LogSkippingExisting _ | LogConverted _ | LogPageFailed _ _ _ => true
  | _ => false
  end.

Definition is_page_failed (r : LogRecord) : bool :=
  match r with
  | LogPageFailed _ _ _ => true
  | _ => false
  end.

Definition page_records (l : list LogRecord) : list LogRecord :=
  List.filter is_page_record l.

(** The record [r] is the one the loop leaves for page index [i]. *)
Definition page_record_of (pdf_path : Path) (settings : Settings)
    (i : nat) (r : LogRecord) : Prop :=
  let name :=
    path_name (get_output_path pdf_path i (output_folder settings)
                 (format settings)) in
  r = LogSkippingExisting name \/ r = LogConverted name
  \/ exists e, r = LogPageFailed (i + 1) (path_name pdf_path) e.

(** The invariant of a [BatchResult]. *)
Definition batch_invariant (b : BatchResult) : Prop :=
  total_files b
  = success_count b + partial_count b + failed_count b + skipped_count b
  /\ total_files b = length (results b).

(** A world for the batch: an input directory without any PDF, and a
    regular file where the output directory should be. *)
Definition blocked_settings : Settings :=
  {| input_folder := ["input"]; output_folder := ["output"]; dpi := 300;
     format := "jpg"; jpg_quality := 90; colorspace := "rgb";
     overwrite := false; skip_if_exists := true; max_pages_per_pdf := 0;
     fail_fast := false; log_file := None; crop := no_crop |}.

Definition blocked_world : World :=
  {| fs := <[ ["input"] := Dir ]>
             (<[ ["input"; "notes.txt"] := File ]>
                (<[ ["output"] := File ]> ∅));
     log := [] |}.

(** A crop of one percent of the width. *)
Definition narrow_crop : CropSettings :=
  {| enabled := true; horizontal_start := 0; horizontal_end := 1;
     vertical_start := 0; vertical_end := 100 |}.

Definition margin_crop : CropSettings :=
  {| enabled := true; horizontal_start := 10.5; horizontal_end := 90;
     vertical_start := 0; vertical_end := 33.3 |}.

(** An input directory without any PDF, and an output directory. *)
Definition no_pdf_world : World :=
  {| fs := <[ ["input"] := Dir ]>
             (<[ ["input"; "notes.txt"] := File ]>
                (<[ ["output"] := Dir ]> ∅));
     log := [] |}.

(** The value of a string of decimal digits (leading zeros allowed). *)
Definition decimal_value (s : string) : option nat :=
  option_map Nat.of_uint (NilEmpty.uint_of_string s).

(** ** What is expected of a renderer that saves files

    A save never removes an entry of the file system, and a save that
    returns normally leaves a file at the path it was given. *)
Definition saves_write_files (R : Renderer) : Prop :=
  (forall pix path quality files oe files',
      pix_save pix path quality files = (oe, files') ->
      (forall p, path_exists files p = true -> path_exists files' p = true)
      /\ (oe = None -> path_exists files' path = true))
  /\ (forall img path fmt quality files oe files',
        Image_save img path fmt quality files = (oe, files') ->
        (forall p, path_exists files p = true -> path_exists files' p = true)
        /\ (oe = None -> path_exists files' path = true)).

(** A world in which both pages of [a.pdf] have been produced. *)
Definition converted_world : World :=
  {| fs := <[ ["output"; "a_002.jpg"] := File ]> (fs resumed_world);
     log := [] |}.

Definition no_skip_settings : Settings :=
  {| input_folder := ["input"]; output_folder := ["output"]; dpi := 150;
     format := "jpg"; jpg_quality := 90; colorspace := "rgb";
     overwrite := false; skip_if_exists := false; max_pages_per_pdf := 0;
     fail_fast := false; log_file := None; crop := no_crop |}.

Definition two_page_document : FakeDocument :=
  {| fake_encrypted := false; fake_pages := [a4_page; a4_page] |}.

(** The number of results of a given status. *)
Definition count_status (st : Status) (rs : list ConversionResult) : nat :=
  length (List.filter (fun r => bool_decide (status r = st)) rs).

(** Whether a character occurs in a string. *)
Fixpoint has_char (c : ascii) (s : string) : bool :=
  match s with
  | EmptyString => false
  | String d s' => Ascii.eqb c d || has_char c s'
  end.

(** ** Validation of the settings (config.py, lines 27-37 and 57-72)

    The [ValueError]s, one constructor per [raise], and the records of
    the [config] logger, one constructor per call site. *)

Inductive ValueError :=
| CropOutOfRange (attr : string) (value : Q)
| CropStartNotLess (axis : string) (start stop : Q)
| QualityOutOfRange (quality : Z).

Inductive ConfigRecord :=
| CfgUnusualDpi (dpi : Z)
| CfgSettingsNotFound (settings_path : Path)
| CfgLoading (settings_path : Path)
| CfgLoggingConfigured.

(** [CropSettings.__post_init__]: the error it raises, if any. *)
Definition CropSettings_post_init (c : CropSettings) : option ValueError :=
  match
    List.find
      (fun '(attr, value) => negb (Qle_bool 0 value && Qle_bool value 100))
      [("horizontal_start", horizontal_start c);
       ("horizontal_end", horizontal_end c);
       ("vertical_start", vertical_start c);
       ("vertical_end", vertical_end c)]
  with
  | Some (attr, value) => Some (CropOutOfRange attr value)
  | None =>
      if Qle_bool (horizontal_end c) (horizontal_start c) then
        Some (CropStartNotLess "horizontal"
                (horizontal_start c) (horizontal_end c))
      else if Qle_bool (vertical_end c) (vertical_start c) then
        Some (CropStartNotLess "vertical" (vertical_start c) (vertical_end c))
      else None
  end.

(** [Settings.__post_init__] on fields of the annotated types: the
    warning it logs and the error it raises, if any. *)
Definition Settings_post_init (s : Settings)
  : list ConfigRecord * option ValueError :=
  let warnings :=
    if negb ((72 <=? dpi s)%Z && (dpi s <=? 1200)%Z)
    then [CfgUnusualDpi (dpi s)] else [] in
  if negb ((1 <=? jpg_quality s)%Z && (jpg_quality s <=? 100)%Z)
  then (warnings, Some (QualityOutOfRange (jpg_quality s)))
  else (warnings, None).

(** ** Loading the settings (config.py, lines 75-125)

    [Path(s)] for a POSIX path: the segments between slashes, without
    the empty ones and the dots, after the root if the string starts
    with a slash. *)

Fixpoint split_on (sep : ascii) (s : string) : list string :=
  match s with
  | EmptyString => [EmptyString]
  | String c s' =>
      if Ascii.eqb c sep then EmptyString :: split_on sep s'
      else
        match split_on sep s' with
        | seg :: rest => String c seg :: rest
        | [] => [String c EmptyString]
        end
  end.

Definition path_of_string (s : string) : Path :=
  (if String.prefix "/" s then ["/"] else [])
  ++ List.filter (fun seg => negb (String.eqb seg "" || String.eqb seg "."))
       (split_on "/" s).

(** The parsed [settings.json] of a well-typed file: each key is
    absent ([None]) or holds a value of the type the dataclass
    annotates it with. *)
Record RawAxis := {
  raw_start : option Q;
  raw_end : option Q
}.

Record RawCrop := {
  raw_enabled : option bool;
  raw_horizontal : option RawAxis;
  raw_vertical : option RawAxis
}.

Record RawSettings := {
  raw_input_folder : option string;
  raw_output_folder : option string;
  raw_dpi : option Z;
  raw_format : option string;
  raw_jpg_quality : option Z;
  raw_colorspace : option string;
  raw_overwrite : option bool;
  raw_skip_if_exists : option bool;
  raw_max_pages_per_pdf : option Z;
  raw_fail_fast : option bool;
  raw_log_file : option string;
  raw_crop : option RawCrop
}.

(** [{}] *)
Definition empty_axis : RawAxis := {| raw_start := None; raw_end := None |}.

Definition empty_crop : RawCrop :=
  {| raw_enabled := None; raw_horizontal := None; raw_vertical := None |}.

Definition empty_raw : RawSettings :=
  {| raw_input_folder := None; raw_output_folder := None; raw_dpi := None;
     raw_format := None; raw_jpg_quality := None; raw_colorspace := None;
     raw_overwrite := None; raw_skip_if_exists := None;
     raw_max_pages_per_pdf := None; raw_fail_fast := None;
     raw_log_file := None; raw_crop := None |}.

(** Lines 102-109: the [CropSettings(...)] call, before validation. *)
Definition crop_of_raw (data : RawSettings) : CropSettings :=
  let crop_data := default empty_crop (raw_crop data) in
  let horizontal := default empty_axis (raw_horizontal crop_data) in
  let vertical := default empty_axis (raw_vertical crop_data) in
  {| enabled := default false (raw_enabled crop_data);
     horizontal_start := default 0%Q (raw_start horizontal);
     horizontal_end := default 100%Q (raw_end horizontal);
     vertical_start := default 0%Q (raw_start vertical);
     vertical_end := default 100%Q (raw_end vertical) |}.

(** Lines 112-125: the [Settings(...)] call with the conversions of
    [__post_init__] (lines 59-64), before validation. *)
Definition fields_of_raw (data : RawSettings) (crop_settings : CropSettings)
  : Settings :=
  {| input_folder := path_of_string (default "./input" (raw_input_folder data));
     output_folder :=
       path_of_string (default "./output" (raw_output_folder data));
     dpi := default 300%Z (raw_dpi data);
     format := default "jpg" (raw_format data);
     jpg_quality := default 90%Z (raw_jpg_quality data);
     colorspace := default "rgb" (raw_colorspace data);
     overwrite := default false (raw_overwrite data);
     skip_if_exists := default true (raw_skip_if_exists data);
     max_pages_per_pdf := default 0%Z (raw_max_pages_per_pdf data);
     fail_fast := default false (raw_fail_fast data);
     log_file :=
       match raw_log_file data with
       | Some s => if String.eqb s "" then None else Some (path_of_string s)
       | None => None
       end;
     crop := crop_settings |}.

(** Lines 101-125: the crop settings are built and validated first,
    then the settings. *)
Definition settings_of_raw (data : RawSettings)
  : list ConfigRecord * (ValueError + Settings) :=
  let crop_settings := crop_of_raw data in
  match CropSettings_post_init crop_settings with
  | Some e => ([], inl e)
  | None =>
      let s := fields_of_raw data crop_settings in
      match Settings_post_init s with
      | (warnings, Some e) => (warnings, inl e)
      | (warnings, None) => (warnings, inr s)
      end
  end.

(** What [load_settings] can raise: a [ValueError] of the validation,
    or whatever opening and parsing the file raises. *)
Inductive LoadError :=
| InvalidSettings (e : ValueError)
| UnreadableSettings (e : exn).

(** ** The summary (converter.py, lines 270-291) *)

Fixpoint repeat_string (s : string) (n : nat) : string :=
  match n with
  | O => ""
  | S n' => s +:+ repeat_string s n'
  end.

Definition newline : string := String (ascii_of_nat 10) "".

(** [str(r.error_message)] *)
Definition str_of_message (m : option string) : string :=
  match m with
  | Some s => s
  | None => "None"
  end.

Definition failed_line (r : ConversionResult) : string :=
  "  - " +:+ path_name (pdf_path r) +:+ ": "
  +:+ str_of_message (error_message r).

(** [print_summary]: the strings handed to [print], in order. *)
Definition print_summary (batch_result : BatchResult) : list string :=
  let summary :=
    [newline +:+ repeat_string "=" 50;
     "CONVERSION SUMMARY";
     repeat_string "=" 50;
     "Total Files:    " +:+ str_of_nat (total_files batch_result);
     "  ✓ Success:    " +:+ str_of_nat (success_count batch_result);
     "  ⚠ Partial:    " +:+ str_of_nat (partial_count batch_result);
     "  ✗ Failed:     " +:+ str_of_nat (failed_count batch_result);
     "  ⊘ Skipped:    " +:+ str_of_nat (skipped_count batch_result);
     repeat_string "=" 50] in
  let failed_results :=
    List.filter (fun r => bool_decide (status r = failed))
      (results batch_result) in
  match failed_results with
  | [] => summary
  | _ => summary ++ [newline +:+ "Failed Files:"]
                 ++ map failed_line failed_results
  end.

(** ** The entry point (main.py, lines 28-71)

    The process owns the world of the converter, the records of the
    [config] and [main] loggers, and what [print] writes on the two
    streams; what the logging handlers write is in the records. *)

Inductive MainRecord :=
| MainRule
| MainTitle
| MainInput (resolved : Path)
| MainOutput (resolved : Path)
| MainDpiQuality (dpi quality : Z).

Record Process := {
  world : World;
  config_log : list ConfigRecord;
  main_log : list MainRecord;
  print_stdout : list string;
  print_stderr : list LoadError
}.

(** What the program takes from its host besides the renderer:
    [json.load] on a well-typed file or the exception of [open] or of
    the parser, [logging.FileHandler], and [Path.resolve], which is
    taken not to raise. *)
Class Host := {
  script_dir : Path;
  read_json : gmap Path Kind -> Path -> exn + RawSettings;
  open_log_file : Path -> gmap Path Kind -> option exn * gmap Path Kind;
  resolve : Path -> Path
}.

Section Main.
Context {R : Renderer} {host : Host}.

(** [load_settings] (config.py, lines 75-125) *)
Definition load_settings (files : gmap Path Kind) (settings_path : option Path)
  : list ConfigRecord * (LoadError + Settings) :=
  let settings_path := default (path_of_string "settings.json") settings_path in
  if negb (path_exists files settings_path) then
    match settings_of_raw empty_raw with
    | (records, inl e) =>
        (CfgSettingsNotFound settings_path :: records, inl (InvalidSettings e))
    | (records, inr s) =>
        (CfgSettingsNotFound settings_path :: records, inr s)
    end
  else
    match read_json files settings_path with
    | inl e => ([CfgLoading settings_path], inl (UnreadableSettings e))
    | inr data =>
        match settings_of_raw data with
        | (records, inl e) =>
            (CfgLoading settings_path :: records, inl (InvalidSettings e))
        | (records, inr s) => (CfgLoading settings_path :: records, inr s)
        end
    end.

(** [setup_logging] (config.py, lines 128-158): opening the log file is
    the one step that can fail. *)
Definition setup_logging (settings : Settings) (p : Process)
  : option exn * Process :=
  let '(oe, files) :=
    match log_file settings with
    | Some f => open_log_file f (fs (world p))
    | None => (None, fs (world p))
    end in
  let w := {| fs := files; log := log (world p) |} in
  match oe with
  | Some e =>
      (Some e,
       {| world := w; config_log := config_log p; main_log := main_log p;
          print_stdout := print_stdout p; print_stderr := print_stderr p |})
  | None =>
      (None,
       {| world := w; config_log := config_log p ++ [CfgLoggingConfigured];
          main_log := main_log p; print_stdout := print_stdout p; print_stderr := print_stderr p |})
  end.

(** [main] (main.py, lines 28-71): the exit code, or the exception that
    leaves it. *)
Definition main (argv : list string) (p : Process) : (exn + Z) * Process :=
  let files := fs (world p) in
  let settings_path :=
    match argv with
    | _ :: arg :: _ => path_of_string arg
    | _ =>
        let settings_path := path_of_string "settings.json" in
        if negb (path_exists files settings_path)
        then path_join script_dir "settings.json"
        else settings_path
    end in
  let '(records, loaded) :=
    load_settings files
      (if path_exists files settings_path then Some settings_path else None) in
  let p :=
    {| world := world p; config_log := config_log p ++ records;
       main_log := main_log p; print_stdout := print_stdout p; print_stderr := print_stderr p |} in
  match loaded with
  | inl e =>
      (inr 1%Z,
       {| world := world p; config_log := config_log p;
          main_log := main_log p; print_stdout := print_stdout p;
          print_stderr := print_stderr p ++ [e] |})
  | inr settings =>
      match setup_logging settings p with
      | (Some e, p) => (inl e, p)
      | (None, p) =>
          let banner :=
            [MainRule; MainTitle; MainRule;
             MainInput (resolve (input_folder settings));
             MainOutput (resolve (output_folder settings));
             MainDpiQuality (dpi settings) (jpg_quality settings);
             MainRule] in
          match convert_batch settings (world p) with
          | (inl e, w) =>
              (inl e,
               {| world := w; config_log := config_log p;
                  main_log := main_log p ++ banner; print_stdout := print_stdout p;
                  print_stderr := print_stderr p |})
          | (inr batch_result, w) =>
              (inr (if (0 <? failed_count batch_result)%nat then 1%Z else 0%Z),
               {| world := w; config_log := config_log p;
                  main_log := main_log p ++ banner;
                  print_stdout := print_stdout p ++ print_summary batch_result;
                  print_stderr := print_stderr p |})
          end
      end
  end.

End Main.

(** The defaults of the two dataclasses (config.py, lines 21-25 and
    44-55). *)
Definition default_settings : Settings :=
  {| input_folder := ["input"]; output_folder := ["output"]; dpi := 300;
     format := "jpg"; jpg_quality := 90; colorspace := "rgb";
     overwrite := false; skip_if_exists := true; max_pages_per_pdf := 0;
     fail_fast := false; log_file := None; crop := no_crop |}.

Definition set_enabled (b : bool) (c : CropSettings) : CropSettings :=
  {| enabled := b; horizontal_start := horizontal_start c;
     horizontal_end := horizontal_end c; vertical_start := vertical_start c;
     vertical_end := vertical_end c |}.

(** A host for the test double: one settings file in the current
    directory. *)
Definition sample_raw : RawSettings :=
  {| raw_input_folder := Some "./input"; raw_output_folder := Some "output/";
     raw_dpi := Some 150%Z; raw_format := None; raw_jpg_quality := None;
     raw_colorspace := None; raw_overwrite := None;
     raw_skip_if_exists := None; raw_max_pages_per_pdf := None;
     raw_fail_fast := Some true; raw_log_file := Some "";
     raw_crop := None |}.

Definition sample_host : Host :=
  {| script_dir := ["opt"; "pdf2jpg"];
     read_json := fun _ p =>
       if decide (p = ["settings.json"]) then inr sample_raw
       else inl (Exn OtherException "Expecting value");
     open_log_file := fun f files => (None, <[f := File]> files);
     resolve := fun p => ["/"; "work"] ++ p |}.

Definition start (files : gmap Path Kind) : Process :=
  {| world := {| fs := files; log := [] |}; config_log := [];
     main_log := []; print_stdout := []; print_stderr := [] |}.

(** A working directory for [main]: the settings file, an input
    directory without any PDF and the output directory. *)
Definition main_fs : gmap Path Kind :=
  <[ ["settings.json"] := File ]>
    (<[ ["input"] := Dir ]> (<[ ["output"] := Dir ]> ∅)).

(** The same with a corrupt PDF in the input directory. *)
Definition failing_main_fs : gmap Path Kind :=
  <[ ["input"; "b.pdf"] := File ]> main_fs.

(** ** Binary64 read in the rationals

    What the proofs about the crop bounds use: the value of a finite
    float, rounding to nearest with ties to even, and the position of a
    number inside a unit interval as [SpecFloat] records it. *)

Definition SF2Q (f : spec_float) : Q :=
  match f with
  | S754_finite s m e => (inject_Z (cond_Zopp s (Zpos m)) * 2 ^ e)%Q
  | _ => 0%Q
  end.

Definition round_half_even (x : Q) : Z :=
  let f := Qfloor x in
  match (x - inject_Z f ?= 1 # 2)%Q with
  | Lt => f
  | Eq => if Z.even f then f else (f + 1)%Z
  | Gt => (f + 1)%Z
  end.

(** For [0 < x], the [k] with [2^(k-1) <= x < 2^k]. *)
Definition mag (x : Q) : Z :=
  let k := (Z.log2 (Qnum x) - Z.log2 (Zpos (Qden x)))%Z in
  if Qle_bool (2 ^ k) x then (k + 1)%Z else k.

(** The binary64 number nearest to [x], ties to even, overflow apart. *)
Definition nearest_binary64_pos (x : Q) : Q :=
  let e := fexp 53 1024 (mag x) in
  (inject_Z (round_half_even (x / 2 ^ e)) * 2 ^ e)%Q.

Definition nearest_binary64 (x : Q) : Q :=
  match (x ?= 0)%Q with
  | Eq => 0%Q
  | Gt => nearest_binary64_pos x
  | Lt => (- nearest_binary64_pos (- x))%Q
  end.

(** [y] lies at location [l] of the unit interval that starts at [m]. *)
Definition located (m : Z) (l : location) (y : Q) : Prop :=
  match l with
  | loc_Exact => (y == inject_Z m)%Q
  | loc_Inexact c =>
      (inject_Z m < y)%Q /\ (y < inject_Z m + 1)%Q
      /\ (y ?= inject_Z m + (1 # 2))%Q = c
  end.

Definition shr_inv (mrs : shr_record) (y : Q) : Prop :=
  (0 <= shr_m mrs)%Z /\ located (shr_m mrs) (loc_of_shr_record mrs) y.

Definition nonneg_finite (f : spec_float) : Prop :=
  f = S754_zero false \/ exists m e, f = S754_finite false m e.

(** * Properties *)

(** ** Strings and digits *)

Lemma string_app_nil (s : string) : "" +:+ s = s.
Proof. reflexivity. Qed.

Lemma string_app_cons (c : ascii) (s t : string) :
  String c s +:+ t = String c (s +:+ t).
Proof. reflexivity. Qed.

Lemma string_app_length (s t : string) :
  String.length (s +:+ t) = String.length s + String.length t.
Proof.
  induction s as [|c s IH].
  - by rewrite string_app_nil.
  - rewrite string_app_cons. simpl. by rewrite IH.
Qed.

Lemma string_app_inv_tail (s t u : string) : s +:+ u = t +:+ u -> s = t.
Proof.
  revert t. induction s as [|c s IH]; intros [|d t] H;
    rewrite ?string_app_cons, ?string_app_nil in H.
  - done.
  - apply (f_equal String.length) in H. simpl in H.
    rewrite string_app_length in H. lia.
  - apply (f_equal String.length) in H. simpl in H.
    rewrite string_app_length in H. lia.
  - injection H as -> H. f_equal. by apply IH.
Qed.

Lemma zeros_length k : String.length (zeros k) = k.
Proof. induction k; simpl; congruence. Qed.

Lemma uint_of_string_zeros k s :
  NilEmpty.uint_of_string (zeros k +:+ s)
  = option_map (Nat.iter k Decimal.D0) (NilEmpty.uint_of_string s).
Proof.
  induction k as [|k IH].
  - rewrite string_app_nil. by destruct (NilEmpty.uint_of_string s).
  - change (zeros (S k)) with (String "0" (zeros k)).
    rewrite string_app_cons. simpl. rewrite IH.
    by destruct (NilEmpty.uint_of_string s).
Qed.

Lemma of_uint_iter_D0 k d : Nat.of_uint (Nat.iter k Decimal.D0 d) = Nat.of_uint d.
Proof. induction k as [|k IH]; simpl; [done | exact IH]. Qed.

Lemma decimal_value_format_03d n : decimal_value (format_03d n) = Some n.
Proof.
  unfold decimal_value, format_03d, str_of_nat.
  rewrite uint_of_string_zeros, NilEmpty.usu. simpl.
  by rewrite of_uint_iter_D0, DecimalNat.Unsigned.of_to.
Qed.

Lemma format_03d_length n :
  String.length (format_03d n) = Nat.max 3 (String.length (str_of_nat n)).
Proof. unfold format_03d. rewrite string_app_length, zeros_length. lia. Qed.

Lemma format_03d_inj n m : format_03d n = format_03d m -> n = m.
Proof.
  intros H. apply (f_equal decimal_value) in H.
  rewrite !decimal_value_format_03d in H. congruence.
Qed.

Lemma rfind_dot_extension (base ext : string) :
  rfind_dot ext = None ->
  rfind_dot (base +:+ "." +:+ ext) = Some (String.length base).
Proof.
  intros Hext. induction base as [|c base IH].
  - rewrite string_app_nil, string_app_cons, string_app_nil. simpl.
    by rewrite Hext.
  - rewrite string_app_cons. simpl. by rewrite IH.
Qed.

Lemma substring_app_l (s t : string) :
  String.substring 0 (String.length s) (s +:+ t) = s.
Proof.
  induction s as [|c s IH].
  - rewrite string_app_nil. simpl. by destruct t.
  - rewrite string_app_cons. simpl. by rewrite IH.
Qed.

Lemma string_length_pos (s : string) : s <> "" -> 0 < String.length s.
Proof. destruct s; simpl; [done | lia]. Qed.

(** The stem of [base.ext] is [base]. *)
Lemma path_stem_extension (folder : Path) (base ext : string) :
  base <> "" -> ext <> "" -> rfind_dot ext = None ->
  path_stem (folder ++ [base +:+ "." +:+ ext]) = base.
Proof.
  intros Hbase Hext Hdot. unfold path_stem, path_name.
  rewrite List.last_last, (rfind_dot_extension _ _ Hdot).
  apply string_length_pos in Hbase, Hext.
  rewrite !string_app_length. simpl.
  replace (0 <? String.length base) with true
    by (symmetry; apply Nat.ltb_lt; lia).
  replace (String.length base <? String.length base + S (String.length ext) - 1)
    with true by (symmetry; apply Nat.ltb_lt; lia).
  simpl. apply substring_app_l.
Qed.

(** C7: the output path is the output directory joined with
    [{stem}_{i+1:03d}.{format}]: the stem of a source named [base.ext]
    is [base]; the page field has at least three characters, is the
    shortest decimal numeral of [i+1] padded on the left with zeros,
    and reads back as [i+1]; equal inputs give equal paths, and for a
    fixed source, output directory and format distinct page indices
    give distinct paths. *)
Theorem get_output_path_format_injective
    (pdf_path output_folder : Path) (fmt : string) (i : nat) :
  get_output_path pdf_path i output_folder fmt
  = path_join output_folder
      (path_stem pdf_path +:+ "_" +:+ format_03d (i + 1) +:+ "." +:+ fmt)
  /\ (forall (folder : Path) (base ext : string),
        pdf_path = folder ++ [base +:+ "." +:+ ext] ->
        base <> "" -> ext <> "" -> rfind_dot ext = None ->
        path_stem pdf_path = base)
  /\ format_03d (i + 1)
     = zeros (3 - String.length (str_of_nat (i + 1))) +:+ str_of_nat (i + 1)
  /\ 3 <= String.length (format_03d (i + 1))
  /\ decimal_value (format_03d (i + 1)) = Some (i + 1)
  /\ (forall pdf_path' output_folder' fmt' i',
        pdf_path = pdf_path' -> output_folder = output_folder' ->
        fmt = fmt' -> i = i' ->
        get_output_path pdf_path i output_folder fmt
        = get_output_path pdf_path' i' output_folder' fmt')
  /\ (forall j,
        get_output_path pdf_path i output_folder fmt
        = get_output_path pdf_path j output_folder fmt -> i = j).
Proof.
  split_and!.
  - reflexivity.
  - intros folder base ext -> Hbase Hext Hdot. by apply path_stem_extension.
  - reflexivity.
  - rewrite format_03d_length. lia.
  - apply decimal_value_format_03d.
  - by intros ? ? ? ? -> -> -> ->.
  - intros j H. unfold get_output_path, path_join in H.
    apply app_inv_head in H. injection H as H.
    apply (inj (String.app _)) in H.
    change (?a +:+ ?b +:+ ?c) with (a +:+ (b +:+ c)) in H.
    apply (inj (String.app "_")) in H.
    apply string_app_inv_tail in H.
    apply format_03d_inj in H. lia.
Qed.

Lemma get_output_path_format_injective_witness :
  get_output_path ["input"; "report.pdf"] 2 ["output"] "jpg"
  = ["output"; "report_003.jpg"]
  /\ path_stem ["input"; "report.pdf"] = "report"
  /\ 2 = 2.
Proof.
  destruct (get_output_path_format_injective
              ["input"; "report.pdf"] ["output"] "jpg" 2)
    as (Hpath & Hstem & _ & _ & _ & _ & Hinj).
  split_and!.
  - exact Hpath.
  - apply (Hstem ["input"] "report" "pdf"); by vm_compute.
  - apply Hinj. reflexivity.
Defined.

(** ** Binary64 arithmetic

    [SFmul] and [SFdiv] round the exact product and quotient to the
    nearest binary64 number; rounding is monotone and leaves the
    integers of at most 53 bits alone. *)

Section Binary64.
Local Open Scope Q_scope.

Lemma round_half_even_comp (x y : Q) :
  x == y -> round_half_even x = round_half_even y.
Proof.
  intros H. unfold round_half_even. rewrite (Qfloor_comp _ _ H).
  assert (x - inject_Z (Qfloor y) == y - inject_Z (Qfloor y)) as -> by (by rewrite H).
  reflexivity.
Qed.

Lemma round_half_even_Z (z : Z) : round_half_even (inject_Z z) = z.
Proof.
  unfold round_half_even. rewrite Qfloor_Z.
  assert ((inject_Z z - inject_Z z ?= 1 # 2) = Lt) as ->; [|done].
  apply (proj1 (Qlt_alt _ _)). lra.
Qed.

Lemma round_half_even_le (x y : Q) :
  x <= y -> (round_half_even x <= round_half_even y)%Z.
Proof.
  intros H. pose proof (Qfloor_resp_le _ _ H) as Hf.
  unfold round_half_even.
  destruct (Z.eq_dec (Qfloor x) (Qfloor y)) as [E | NE].
  - rewrite E.
    destruct (Qcompare_spec (x - inject_Z (Qfloor y)) (1 # 2)) as [Hx|Hx|Hx];
      destruct (Qcompare_spec (y - inject_Z (Qfloor y)) (1 # 2)) as [Hy|Hy|Hy];
      try (destruct (Z.even (Qfloor y))); try lia; exfalso; lra.
  - assert (Qfloor x + 1 <= Qfloor y)%Z by lia.
    repeat case_match; lia.
Qed.

Lemma round_half_even_upper (x : Q) (n : Z) :
  x <= inject_Z n -> (round_half_even x <= n)%Z.
Proof.
  intros H. rewrite <- (round_half_even_Z n). by apply round_half_even_le.
Qed.

Lemma round_half_even_lower (x : Q) (n : Z) :
  inject_Z n <= x -> (n <= round_half_even x)%Z.
Proof.
  intros H. rewrite <- (round_half_even_Z n). by apply round_half_even_le.
Qed.

Lemma pow2_pos (e : Z) : 0 < 2 ^ e.
Proof. by apply Qpower_0_lt. Qed.

Lemma pow2_plus (a b : Z) : 2 ^ (a + b) == 2 ^ a * 2 ^ b.
Proof. by apply Qpower_plus. Qed.

Lemma pow2_succ (a : Z) : 2 ^ (a + 1) == 2 * 2 ^ a.
Proof. rewrite pow2_plus. change (2 ^ 1) with 2. ring. Qed.

Lemma pow2_le (a b : Z) : (a <= b)%Z -> 2 ^ a <= 2 ^ b.
Proof. intros H. by apply Qpower_le_compat_l. Qed.

Lemma pow2_lt (a b : Z) : (a < b)%Z -> 2 ^ a < 2 ^ b.
Proof. intros H. by apply Qpower_lt_compat_l. Qed.

Lemma pow2_lt_inv (a b : Z) : 2 ^ a < 2 ^ b -> (a < b)%Z.
Proof. intros H. by apply (Qpower_lt_compat_l_inv 2). Qed.

Lemma pow2_Z (e : Z) : (0 <= e)%Z -> inject_Z (2 ^ e) == 2 ^ e.
Proof. intros H. by rewrite Zpower_Qpower. Qed.

Lemma mag_spec (x : Q) : 0 < x -> 2 ^ (mag x - 1) <= x /\ x < 2 ^ mag x.
Proof.
  intros Hx. unfold mag.
  set (n := Qnum x). set (d := Zpos (Qden x)).
  assert (0 < n)%Z as Hn.
  { destruct x as [n' d']. unfold Qlt in Hx. simpl in *. subst n. lia. }
  pose proof (Z.log2_spec n Hn) as [Ha1 Ha2].
  pose proof (Z.log2_spec d eq_refl) as [Hb1 Hb2].
  pose proof (Z.log2_nonneg n) as Ha0. pose proof (Z.log2_nonneg d) as Hb0.
  set (a := Z.log2 n) in *. set (b := Z.log2 d) in *.
  assert (x * inject_Z d == inject_Z n) as Hxd.
  { destruct x as [n' d']. subst n d. simpl.
    rewrite (Qmake_Qdiv n' d'). field. discriminate. }
  rewrite Zle_Qle, pow2_Z in Ha1, Hb1 by done.
  rewrite Zlt_Qlt, pow2_Z in Ha2, Hb2 by lia.
  unfold Z.succ in *. rewrite pow2_succ in Ha2, Hb2.
  assert (2 ^ (a - b) * 2 ^ b == 2 ^ a) as Hk.
  { rewrite <- pow2_plus. by replace (a - b + b)%Z with a by lia. }
  pose proof (pow2_pos a). pose proof (pow2_pos b). pose proof (pow2_pos (a - b)).
  destruct (Qle_bool (2 ^ (a - b)) x) eqn:Hc.
  - apply Qle_bool_iff in Hc. replace (a - b + 1 - 1)%Z with (a - b)%Z by lia.
    split; [done|]. rewrite pow2_succ.
    apply Qnot_le_lt. intros Hge.
    assert (2 * 2 ^ (a - b) * 2 ^ b <= x * inject_Z d) as H3.
    { apply Qle_trans with (x * 2 ^ b).
      - apply Qmult_le_compat_r; [done | lra].
      - apply Qmult_le_l; [done|]. lra. }
    rewrite Hxd in H3. lra.
  - assert (x < 2 ^ (a - b)) as Hlt.
    { apply Qnot_le_lt. intros Hle. apply Qle_bool_iff in Hle. congruence. }
    split; [|done].
    apply Qnot_lt_le. intros Hlt2.
    assert (2 * 2 ^ (a - b - 1) == 2 ^ (a - b)) as Hh.
    { rewrite <- pow2_succ. by replace (a - b - 1 + 1)%Z with (a - b)%Z by lia. }
    assert (x * inject_Z d < 2 ^ (a - b - 1) * (2 * 2 ^ b)) as H3.
    { apply Qle_lt_trans with (x * (2 * 2 ^ b)).
      - apply Qmult_le_l; [done | lra].
      - apply Qmult_lt_compat_r; [lra | done]. }
    rewrite Hxd in H3.
    assert (2 ^ (a - b - 1) * (2 * 2 ^ b) == 2 ^ a) as H4.
    { rewrite <- Hk, <- Hh. ring. }
    rewrite H4 in H3. lra.
Qed.

Lemma mag_unique (x : Q) (k : Z) :
  2 ^ (k - 1) <= x -> x < 2 ^ k -> mag x = k.
Proof.
  intros H1 H2.
  assert (0 < x) as Hx by (pose proof (pow2_pos (k - 1)); lra).
  destruct (mag_spec x Hx) as [H3 H4].
  assert (2 ^ (mag x - 1) < 2 ^ k) as H5 by lra.
  assert (2 ^ (k - 1) < 2 ^ mag x) as H6 by lra.
  apply pow2_lt_inv in H5, H6. lia.
Qed.

Lemma mag_le (x y : Q) : 0 < x -> x <= y -> (mag x <= mag y)%Z.
Proof.
  intros Hx Hxy.
  destruct (mag_spec x Hx) as [H1 _].
  destruct (mag_spec y) as [_ H2]; [lra|].
  assert (2 ^ (mag x - 1) < 2 ^ mag y) as H by lra.
  apply pow2_lt_inv in H. lia.
Qed.

Lemma mag_comp (x y : Q) : 0 < x -> x == y -> mag x = mag y.
Proof.
  intros Hx H. destruct (mag_spec x Hx) as [H1 H2].
  symmetry. apply mag_unique; by rewrite <- H.
Qed.


Lemma fexp_binary64 (k : Z) : fexp 53 1024 k = Z.max (k - 53) (-1074).
Proof. reflexivity. Qed.

Lemma Qdiv_le_compat (x y c : Q) : 0 < c -> x <= y -> x / c <= y / c.
Proof.
  intros Hc H. apply Qle_shift_div_l; [done|].
  assert (x / c * c == x) as -> by (field; lra). done.
Qed.

Lemma nearest_binary64_pos_comp (x y : Q) :
  0 < x -> x == y -> nearest_binary64_pos x == nearest_binary64_pos y.
Proof.
  intros Hx H. unfold nearest_binary64_pos. rewrite (mag_comp x y Hx H).
  set (e := fexp 53 1024 (mag y)).
  rewrite (round_half_even_comp (x / 2 ^ e) (y / 2 ^ e)); [done|].
  by rewrite H.
Qed.

Lemma nearest_binary64_pos_nonneg (x : Q) : 0 < x -> 0 <= nearest_binary64_pos x.
Proof.
  intros Hx. unfold nearest_binary64_pos.
  set (e := fexp 53 1024 (mag x)). pose proof (pow2_pos e).
  apply Qmult_le_0_compat; [|lra].
  change 0 with (inject_Z 0). rewrite <- Zle_Qle.
  apply round_half_even_lower. change (inject_Z 0) with 0.
  apply Qle_shift_div_l; [done|]. lra.
Qed.

(** Rounding is monotone. *)
Lemma nearest_binary64_pos_le (x y : Q) :
  0 < x -> x <= y -> nearest_binary64_pos x <= nearest_binary64_pos y.
Proof.
  intros Hx Hxy. assert (0 < y) as Hy by lra.
  pose proof (mag_le x y Hx Hxy) as Hm.
  unfold nearest_binary64_pos. rewrite !fexp_binary64.
  set (ex := Z.max (mag x - 53) (-1074)). set (ey := Z.max (mag y - 53) (-1074)).
  destruct (Z.eq_dec ex ey) as [E | NE].
  - rewrite E. pose proof (pow2_pos ey).
    apply Qmult_le_compat_r; [|lra].
    rewrite <- Zle_Qle. apply round_half_even_le. by apply Qdiv_le_compat.
  - assert (ex < ey)%Z as Hlt by lia.
    assert (ey = mag y - 53)%Z as Hey by lia.
    assert (mag x <= mag y - 1)%Z as Hmx by lia.
    set (k := (mag y - 1)%Z) in *.
    destruct (mag_spec x Hx) as [_ Hx2]. destruct (mag_spec y Hy) as [Hy1 _].
    fold k in Hy1.
    pose proof (pow2_pos ex). pose proof (pow2_pos ey).
    apply Qle_trans with (2 ^ k).
    + assert (2 ^ k == inject_Z (2 ^ (k - ex)) * 2 ^ ex) as ->.
      { rewrite pow2_Z by lia. rewrite <- pow2_plus.
        by replace (k - ex + ex)%Z with k by lia. }
      apply Qmult_le_compat_r; [|lra].
      rewrite <- Zle_Qle. apply round_half_even_upper.
      rewrite pow2_Z by lia. apply Qle_shift_div_r; [done|].
      rewrite <- pow2_plus. replace (k - ex + ex)%Z with k by lia.
      pose proof (pow2_le (mag x) k Hmx). lra.
    + assert (2 ^ k == inject_Z (2 ^ (k - ey)) * 2 ^ ey) as ->.
      { rewrite pow2_Z by lia. rewrite <- pow2_plus.
        by replace (k - ey + ey)%Z with k by lia. }
      apply Qmult_le_compat_r; [|lra].
      rewrite <- Zle_Qle. apply round_half_even_lower.
      rewrite pow2_Z by lia. apply Qle_shift_div_l; [done|].
      rewrite <- pow2_plus. by replace (k - ey + ey)%Z with k by lia.
Qed.

(** An integer below [2^53] is a binary64 number. *)
Lemma nearest_binary64_pos_Z (z : Z) :
  (0 < z < 2 ^ 53)%Z -> nearest_binary64_pos (inject_Z z) == inject_Z z.
Proof.
  intros [Hz Hz53].
  assert (0 < inject_Z z) as Hq.
  { change 0 with (inject_Z 0). by rewrite <- Zlt_Qlt. }
  destruct (mag_spec _ Hq) as [Hm _].
  assert (mag (inject_Z z) <= 53)%Z as Hmag.
  { assert (2 ^ (mag (inject_Z z) - 1) < 2 ^ 53) as H.
    { eapply Qle_lt_trans; [exact Hm|].
      rewrite <- (pow2_Z 53) by done. by rewrite <- Zlt_Qlt. }
    apply pow2_lt_inv in H. lia. }
  unfold nearest_binary64_pos. rewrite fexp_binary64.
  set (e := Z.max (mag (inject_Z z) - 53) (-1074)).
  assert (e <= 0)%Z as He by lia.
  pose proof (pow2_pos e).
  assert (inject_Z z / 2 ^ e == inject_Z (z * 2 ^ (- e))) as Hint.
  { rewrite inject_Z_mult, pow2_Z by lia. rewrite Qpower_opp. field. lra. }
  rewrite (round_half_even_comp _ _ Hint), round_half_even_Z.
  rewrite inject_Z_mult, pow2_Z by lia. rewrite Qpower_opp. field. lra.
Qed.


Ltac qlra := unfold Qdiv in *; change (/ 2) with (1 # 2) in *; lra.

Lemma Qcompare_Lt (a b : Q) : a < b -> (a ?= b) = Lt.
Proof. apply Qlt_alt. Qed.
Lemma Qcompare_Gt (a b : Q) : b < a -> (a ?= b) = Gt.
Proof. apply Qgt_alt. Qed.
Lemma Qcompare_Eq (a b : Q) : a == b -> (a ?= b) = Eq.
Proof. apply Qeq_alt. Qed.

Lemma Qcompare_elim (a b : Q) (c : comparison) :
  (a ?= b) = c ->
  match c with Lt => a < b | Eq => a == b | Gt => b < a end.
Proof. intros <-. destruct (Qcompare_spec a b); done. Qed.

Lemma located_comp (m : Z) (l : location) (y y' : Q) :
  y == y' -> located m l y -> located m l y'.
Proof.
  intros H. destruct l as [|c]; simpl.
  - by rewrite H.
  - by rewrite H.
Qed.

Lemma located_floor (m : Z) (l : location) (y : Q) :
  located m l y -> Qfloor y = m.
Proof.
  destruct l as [|c]; simpl.
  - intros H. by rewrite (Qfloor_comp _ _ H), Qfloor_Z.
  - intros (H1 & H2 & _).
    pose proof (Qfloor_le y) as H3. pose proof (Qlt_floor y) as H4.
    rewrite inject_Z_plus in H4. change (inject_Z 1) with 1 in H4.
    assert (inject_Z (Qfloor y) < inject_Z (m + 1)) as H5.
    { rewrite inject_Z_plus. change (inject_Z 1) with 1. lra. }
    assert (inject_Z m < inject_Z (Qfloor y + 1)) as H6.
    { rewrite inject_Z_plus. change (inject_Z 1) with 1. lra. }
    rewrite <- Zlt_Qlt in H5, H6. lia.
Qed.

(** The rounding of [SpecFloat] is rounding to nearest, ties to even. *)
Lemma round_nearest_even_located (m : Z) (l : location) (y : Q) :
  located m l y -> round_nearest_even m l = round_half_even y.
Proof.
  intros H. pose proof (located_floor _ _ _ H) as Hf.
  unfold round_half_even. rewrite Hf.
  destruct l as [|c]; simpl in *.
  - rewrite Qcompare_Lt; [done | lra].
  - destruct H as (H1 & H2 & H3). apply Qcompare_elim in H3.
    destruct c.
    + rewrite Qcompare_Eq; [done | lra].
    + rewrite Qcompare_Lt; [done | lra].
    + rewrite Qcompare_Gt; [done | lra].
Qed.

Lemma shr_inv_comp (mrs : shr_record) (y y' : Q) :
  y == y' -> shr_inv mrs y -> shr_inv mrs y'.
Proof. intros H [H1 H2]. split; [done|]. by apply (located_comp _ _ y). Qed.

Lemma inject_Z_xO (p : positive) : inject_Z (Zpos p~0) == 2 * inject_Z (Zpos p).
Proof. rewrite Pos2Z.inj_xO, inject_Z_mult. reflexivity. Qed.

Lemma inject_Z_xI (p : positive) : inject_Z (Zpos p~1) == 2 * inject_Z (Zpos p) + 1.
Proof. rewrite Pos2Z.inj_xI, inject_Z_plus, inject_Z_mult. reflexivity. Qed.

Lemma shr_1_inv (mrs : shr_record) (y : Q) :
  shr_inv mrs y -> shr_inv (shr_1 mrs) (y / 2).
Proof.
  destruct mrs as [m r s]. unfold shr_inv. simpl. intros [Hm H].
  destruct m as [|p|p]; [| |lia].
  - destruct r, s; simpl in *; (split; [lia|]);
      change (inject_Z 0) with 0 in *;
      try (destruct H as (H1 & H2 & H3); apply Qcompare_elim in H3);
      first [ split_and!; [qlra | qlra | apply Qcompare_Lt; qlra]
            | qlra ].
  - destruct p as [p|p|];
      [pose proof (inject_Z_xI p) as HI | pose proof (inject_Z_xO p) as HO | ];
      destruct r, s; simpl in *; (split; [lia|]);
      change (inject_Z 1) with 1 in *; change (inject_Z 0) with 0 in *;
      try (destruct H as (H1 & H2 & H3); apply Qcompare_elim in H3);
      first [ split_and!; [qlra | qlra | apply Qcompare_Lt; qlra]
            | split_and!; [qlra | qlra | apply Qcompare_Gt; qlra]
            | split_and!; [qlra | qlra | apply Qcompare_Eq; qlra]
            | qlra ].
Qed.


Lemma iter_pos_shr_1_inv (p : positive) (mrs : shr_record) (y : Q) :
  shr_inv mrs y -> shr_inv (SpecFloat.iter_pos shr_1 p mrs) (y / 2 ^ Zpos p).
Proof.
  revert mrs y. induction p as [p IH | p IH |]; intros mrs y H; cbn [SpecFloat.iter_pos].
  - apply (shr_inv_comp _ (y / 2 / 2 ^ Zpos p / 2 ^ Zpos p)).
    + pose proof (pow2_pos (Zpos p)).
      replace (Zpos p~1) with (Zpos p + Zpos p + 1)%Z by lia.
      rewrite !pow2_plus. change (2 ^ 1) with 2. field. lra.
    + by apply IH, IH, shr_1_inv.
  - apply (shr_inv_comp _ (y / 2 ^ Zpos p / 2 ^ Zpos p)).
    + pose proof (pow2_pos (Zpos p)).
      replace (Zpos p~0) with (Zpos p + Zpos p)%Z by lia.
      rewrite !pow2_plus. field. lra.
    + by apply IH, IH.
  - change (2 ^ 1) with 2. by apply shr_1_inv.
Qed.

Lemma shr_record_of_loc_inv (m : Z) (l : location) (y : Q) :
  (0 <= m)%Z -> located m l y -> shr_inv (shr_record_of_loc m l) y.
Proof. intros Hm H. split; by destruct l as [|[]]. Qed.

Lemma shr_fexp_inv (m e : Z) (l : location) (x : Q) :
  (0 <= m)%Z -> located m l (x / 2 ^ e) ->
  let e' := Z.max e (fexp 53 1024 (Zdigits2 m + e)) in
  exists mrs,
    shr_fexp 53 1024 m e l = (mrs, e') /\ shr_inv mrs (x / 2 ^ e').
Proof.
  intros Hm H e'. pose proof (shr_record_of_loc_inv m l _ Hm H) as Hinv.
  unfold shr_fexp, shr.
  destruct (fexp 53 1024 (Zdigits2 m + e) - e)%Z as [|p|p] eqn:Hn.
  - replace e' with e by lia. by eexists.
  - replace e' with (e + Zpos p)%Z by lia. eexists. split; [done|].
    apply (shr_inv_comp _ (x / 2 ^ e / 2 ^ Zpos p)).
    + pose proof (pow2_pos e). pose proof (pow2_pos (Zpos p)).
      rewrite pow2_plus. field. lra.
    + by apply iter_pos_shr_1_inv.
  - replace e' with e by lia. by eexists.
Qed.

Lemma digits2_pos_size (p : positive) : digits2_pos p = Pos.size p.
Proof. induction p; simpl; congruence. Qed.

Lemma Zdigits2_spec (m : positive) :
  (2 ^ (Zdigits2 (Zpos m) - 1) <= Zpos m < 2 ^ Zdigits2 (Zpos m))%Z.
Proof.
  simpl. rewrite digits2_pos_size.
  pose proof (Pos.size_gt m) as H1. pose proof (Pos.size_le m) as H2.
  apply Pos2Z.pos_lt_pos in H1. apply Pos2Z.pos_le_pos in H2.
  rewrite Pos2Z.inj_pow in H1, H2.
  replace (Zpos (Pos.size m)) with (Zpos (Pos.size m) - 1 + 1)%Z in H2 at 1 by lia.
  rewrite Z.pow_add_r in H2 by lia. lia.
Qed.

Lemma Zdigits2_Q (m : positive) :
  2 ^ (Zdigits2 (Zpos m) - 1) <= inject_Z (Zpos m)
  /\ inject_Z (Zpos m) < 2 ^ Zdigits2 (Zpos m).
Proof.
  destruct (Zdigits2_spec m) as [H1 H2].
  assert (1 <= Zdigits2 (Zpos m))%Z by (simpl; lia).
  rewrite Zle_Qle, pow2_Z in H1 by lia. rewrite Zlt_Qlt, pow2_Z in H2 by lia.
  done.
Qed.


Lemma Qmult_div_pow2 (x : Q) (e : Z) : x / 2 ^ e * 2 ^ e == x.
Proof. pose proof (pow2_pos e). field. lra. Qed.

Lemma Qdiv_pow2_lt (x : Q) (e k : Z) : x < 2 ^ (k + e) -> x / 2 ^ e < 2 ^ k.
Proof.
  intros H. apply Qlt_shift_div_r; [apply pow2_pos|]. by rewrite <- pow2_plus.
Qed.

Lemma Qdiv_pow2_le (x : Q) (e k : Z) : 2 ^ (k + e) <= x -> 2 ^ k <= x / 2 ^ e.
Proof.
  intros H. apply Qle_shift_div_l; [apply pow2_pos|]. by rewrite <- pow2_plus.
Qed.

(** The exponent [mag] of a number whose integer part at scale [2^e] is
    the positive integer [m]. *)
Lemma mag_located (m : positive) (e : Z) (l : location) (x : Q) :
  located (Zpos m) l (x / 2 ^ e) -> mag x = (Zdigits2 (Zpos m) + e)%Z.
Proof.
  intros H. apply located_floor in H.
  pose proof (Qfloor_le (x / 2 ^ e)) as H1.
  pose proof (Qlt_floor (x / 2 ^ e)) as H2. rewrite H in H1, H2.
  destruct (Zdigits2_spec m) as [H3 H4].
  destruct (Zdigits2_Q m) as [H5 _].
  assert (1 <= Zdigits2 (Zpos m))%Z by (simpl; lia).
  assert (inject_Z (Zpos m + 1) <= 2 ^ Zdigits2 (Zpos m)) as H6.
  { rewrite <- pow2_Z by lia. rewrite <- Zle_Qle. lia. }
  pose proof (pow2_pos e). pose proof (Qmult_div_pow2 x e) as Hx.
  apply mag_unique.
  - replace (Zdigits2 (Zpos m) + e - 1)%Z with (Zdigits2 (Zpos m) - 1 + e)%Z by lia.
    rewrite pow2_plus, <- Hx. apply Qmult_le_compat_r; lra.
  - rewrite pow2_plus, <- Hx. apply Qmult_lt_compat_r; lra.
Qed.

(** The core of every operation of [SpecFloat]: from the integer part
    [m] and the location [l] of [x] at scale [2^e], fine enough for the
    precision, [binary_round_aux] gives the binary64 number nearest to
    [x]. *)
Lemma binary_round_aux_nearest (m e : Z) (l : location) (x : Q) :
  0 < x -> x < 2 ^ 1023 -> (0 <= m)%Z ->
  located m l (x / 2 ^ e) ->
  (e <= fexp 53 1024 (mag x))%Z ->
  (binary_round_aux 53 1024 false m e l = S754_zero false
   /\ nearest_binary64_pos x == 0)
  \/ (exists m' e',
        binary_round_aux 53 1024 false m e l = S754_finite false m' e'
        /\ inject_Z (Zpos m') * 2 ^ e' == nearest_binary64_pos x
        /\ ((-1074 < fexp 53 1024 (mag x))%Z -> (2 ^ 52 <= Zpos m')%Z)).
Proof.
  intros Hx Hmax Hm Hloc He.
  destruct (shr_fexp_inv m e l x Hm Hloc) as (mrs1 & Hshr1 & [Hm1 Hloc1]).
  destruct (mag_spec x Hx) as [Hmag1 Hmag2].
  assert (mag x <= 1023)%Z as Hmag.
  { assert (2 ^ (mag x - 1) < 2 ^ 1023) as H by lra.
    apply pow2_lt_inv in H. lia. }
  set (E := fexp 53 1024 (mag x)) in *.
  assert (Z.max e (fexp 53 1024 (Zdigits2 m + e)) = E) as HE.
  { destruct m as [|p|p]; [| |lia].
    - apply located_floor in Hloc.
      pose proof (Qlt_floor (x / 2 ^ e)) as H1. rewrite Hloc in H1.
      change (inject_Z (0 + 1)) with 1 in H1.
      pose proof (pow2_pos e). pose proof (Qmult_div_pow2 x e) as H2.
      assert (x < 2 ^ e) as H3.
      { assert (x / 2 ^ e * 2 ^ e < 1 * 2 ^ e) as H3
          by (apply Qmult_lt_compat_r; lra).
        rewrite H2 in H3. lra. }
      assert (2 ^ (mag x - 1) < 2 ^ e) as H4 by lra.
      apply pow2_lt_inv in H4.
      subst E. rewrite !fexp_binary64 in *. simpl Zdigits2. lia.
    - rewrite <- (mag_located p e l x Hloc). fold E. lia. }
  rewrite HE in Hshr1, Hloc1.
  pose proof (round_nearest_even_located _ _ _ Hloc1) as Hrne.
  set (M := round_half_even (x / 2 ^ E)) in *.
  pose proof (pow2_pos E) as HpE.
  assert (-1074 <= E)%Z as HE0 by (subst E; rewrite fexp_binary64; lia).
  assert (E <= 970)%Z as HE1 by (subst E; rewrite fexp_binary64; lia).
  assert (mag x <= 53 + E)%Z as HE2 by (subst E; rewrite fexp_binary64; lia).
  assert (0 <= M <= 2 ^ 53)%Z as [HM0 HM1].
  { split.
    - apply round_half_even_lower. change (inject_Z 0) with 0.
      apply Qle_shift_div_l; [done | lra].
    - apply round_half_even_upper. rewrite pow2_Z by done.
      apply Qlt_le_weak, Qdiv_pow2_lt.
      eapply Qlt_le_trans; [exact Hmag2 | by apply pow2_le]. }
  assert ((-1074 < E)%Z -> (2 ^ 52 <= M)%Z) as Hnormal.
  { intros Hn. apply round_half_even_lower.
    rewrite pow2_Z by done. apply Qdiv_pow2_le.
    replace (52 + E)%Z with (mag x - 1)%Z
      by (subst E; rewrite fexp_binary64 in *; lia).
    exact Hmag1. }
  unfold binary_round_aux. rewrite Hshr1. cbv beta iota. rewrite Hrne.
  unfold nearest_binary64_pos. fold E. fold M.
  destruct (Z.eq_dec M (2 ^ 53)%Z) as [HM | HM].
  - rewrite HM. unfold shr_fexp, shr.
    assert (fexp 53 1024 (Zdigits2 (2 ^ 53) + E) - E = 1)%Z as ->.
    { rewrite fexp_binary64. change (Zdigits2 (2 ^ 53)%Z) with 54%Z. lia. }
    change (2 ^ 53)%Z with 9007199254740992%Z.
    cbn -[Z.leb Z.add Z.sub].
    assert ((E + 1 <=? 1024 - 53)%Z = true) as -> by (apply Z.leb_le; lia).
    right. eexists _, _. split; [reflexivity|]. split; [|done].
    rewrite pow2_plus. change (2 ^ 1) with 2.
    change 9007199254740992%Z with (4503599627370496 * 2)%Z.
    rewrite inject_Z_mult. change (inject_Z 2) with 2. ring.
  - assert (M < 2 ^ 53)%Z as HM2 by lia.
    assert (fexp 53 1024 (Zdigits2 M + E) - E <= 0)%Z as Hn.
    { rewrite fexp_binary64.
      destruct M as [|p|p]; [simpl Zdigits2; lia | | lia].
      destruct (Zdigits2_spec p) as [H1 _].
      assert (Zdigits2 (Zpos p) - 1 < 53)%Z.
      { apply (Z.pow_lt_mono_r_iff 2); lia. }
      lia. }
    unfold shr_fexp, shr.
    destruct (fexp 53 1024 (Zdigits2 M + E) - E)%Z as [|n|n] eqn:Hn2; [| lia |];
      (cbn -[Z.leb Z.sub];
       destruct M as [|p|p]; [| | lia];
       [ left; split; [done|]; simpl; ring
       | assert ((E <=? 1024 - 53)%Z = true) as -> by (apply Z.leb_le; lia);
         right; eexists _, _; split; [reflexivity|]; split;
         [reflexivity | exact Hnormal] ]).
Qed.


Lemma inject_Z_pos_lt (z : Z) : (0 < z)%Z -> 0 < inject_Z z.
Proof. intros H. change 0 with (inject_Z 0). by rewrite <- Zlt_Qlt. Qed.

Lemma fexp_le (a b : Z) : (a <= b)%Z -> (fexp 53 1024 a <= fexp 53 1024 b)%Z.
Proof. rewrite !fexp_binary64. lia. Qed.

(** The location of a remainder. *)
Lemma new_location_located (d r q : Z) (y : Q) :
  (0 <= r < d)%Z ->
  y == inject_Z q + inject_Z r / inject_Z d ->
  located q (new_location d r) y.
Proof.
  intros [Hr Hd] Hy.
  assert (0 < inject_Z d) as HD by (apply inject_Z_pos_lt; lia).
  assert (inject_Z r / inject_Z d * inject_Z d == inject_Z r) as Hf
    by (field; lra).
  set (f := inject_Z r / inject_Z d) in *.
  assert (0 <= inject_Z r) as HR.
  { change 0 with (inject_Z 0). by rewrite <- Zle_Qle. }
  assert (inject_Z r < inject_Z d) as HRD by (by rewrite <- Zlt_Qlt).
  assert (f < 1) as Hf1.
  { apply Qnot_le_lt. intros H.
    assert (1 * inject_Z d <= f * inject_Z d) by (apply Qmult_le_compat_r; lra).
    lra. }
  assert (forall c, (2 * r ?= d)%Z = c -> r <> 0%Z ->
                    located q (loc_Inexact c) y) as Hcmp.
  { intros c Hc Hr0.
    assert (0 < inject_Z r) as HR0 by (apply inject_Z_pos_lt; lia).
    assert (0 < f) as Hf0.
    { apply Qnot_le_lt. intros H.
      assert (f * inject_Z d <= 0 * inject_Z d)
        by (apply Qmult_le_compat_r; lra).
      lra. }
    simpl. split_and!; [lra | lra |].
    destruct (Z.compare_spec (2 * r) d) as [H | H | H]; subst c.
    - apply Qcompare_Eq.
      assert (2 * inject_Z r == inject_Z d) as H2.
      { rewrite <- H, inject_Z_mult. reflexivity. }
      assert (f == 1 # 2) as Hh.
      { apply (Qmult_inj_r _ _ (inject_Z d)); [lra|]. lra. }
      lra.
    - apply Qcompare_Lt.
      assert (2 * inject_Z r < inject_Z d) as H2.
      { rewrite Zlt_Qlt, inject_Z_mult in H. exact H. }
      assert (f < 1 # 2) as Hh.
      { apply Qnot_le_lt. intros Hge.
        assert ((1 # 2) * inject_Z d <= f * inject_Z d)
          by (apply Qmult_le_compat_r; lra).
        lra. }
      lra.
    - apply Qcompare_Gt.
      assert (inject_Z d < 2 * inject_Z r) as H2.
      { rewrite Zlt_Qlt, inject_Z_mult in H. exact H. }
      assert ((1 # 2) < f) as Hh.
      { apply Qnot_le_lt. intros Hge.
        assert (f * inject_Z d <= (1 # 2) * inject_Z d)
          by (apply Qmult_le_compat_r; lra).
        lra. }
      lra. }
  unfold new_location.
  destruct (Z.even d) eqn:Heven;
    unfold new_location_even, new_location_odd;
    (destruct (Z.eqb_spec r 0) as [-> | Hr0];
     [simpl; rewrite Hy; unfold f; change (inject_Z 0) with 0; field; lra|]).
  - by apply Hcmp.
  - assert (2 * r <> d)%Z as Hodd.
    { intros <-. rewrite Z.even_mul in Heven. done. }
    destruct (Z.compare_spec (2 * r + 1) d) as [H | H | H];
      apply Hcmp; try done.
    + apply Z.compare_lt_iff. lia.
    + apply Z.compare_lt_iff. lia.
    + apply Z.compare_gt_iff. lia.
Qed.

Lemma SFdiv_core_binary_located (m1 m2 : positive) (e1 e2 : Z) :
  let x := inject_Z (Zpos m1) * 2 ^ e1 / (inject_Z (Zpos m2) * 2 ^ e2) in
  exists q e' l,
    SFdiv_core_binary 53 1024 (Zpos m1) e1 (Zpos m2) e2 = (q, e', l)
    /\ (0 <= q)%Z /\ located q l (x / 2 ^ e')
    /\ (e' <= fexp 53 1024 (mag x))%Z /\ 0 < x.
Proof.
  intros x.
  pose proof (pow2_pos e1) as Hp1. pose proof (pow2_pos e2) as Hp2.
  assert (0 < inject_Z (Zpos m1)) as HM1 by (by apply inject_Z_pos_lt).
  assert (0 < inject_Z (Zpos m2)) as HM2 by (by apply inject_Z_pos_lt).
  assert (0 < inject_Z (Z.pos m2) * 2 ^ e2) as Hden
    by (apply Qmult_lt_0_compat; lra).
  assert (0 < x) as Hx.
  { unfold x. apply Qlt_shift_div_l; [done|].
    rewrite Qmult_0_l. apply Qmult_lt_0_compat; lra. }
  unfold SFdiv_core_binary.
  set (d1 := Zdigits2 (Zpos m1)). set (d2 := Zdigits2 (Zpos m2)).
  set (e' := Z.min (fexp 53 1024 (d1 + e1 - (d2 + e2))) (e1 - e2)).
  set (s := (e1 - e2 - e')%Z).
  assert (0 <= s)%Z as Hs by lia.
  set (m' := match s with
             | 0%Z => Zpos m1
             | Zpos _ => Z.shiftl (Zpos m1) s
             | Zneg _ => 0%Z
             end).
  assert (m' = Zpos m1 * 2 ^ s)%Z as Hm'.
  { subst m'. destruct s as [|p|p] eqn:Es; [lia | | lia].
    by rewrite Z.shiftl_mul_pow2. }
  pose proof (Z_div_mod m' (Zpos m2) eq_refl) as Hdiv.
  destruct (Z.div_eucl m' (Zpos m2)) as [q r]. destruct Hdiv as [Hqr Hr].
  pose proof (pow2_pos e') as Hpe. pose proof (pow2_pos s) as Hps.
  assert (0 <= m')%Z as Hm0 by (rewrite Hm'; apply Z.mul_nonneg_nonneg; lia).
  assert (0 <= q)%Z as Hq by nia.
  assert (x / 2 ^ e' == inject_Z m' / inject_Z (Zpos m2)) as Hy.
  { unfold x. rewrite Hm', inject_Z_mult, pow2_Z by done.
    assert (2 ^ e1 == 2 ^ s * 2 ^ e2 * 2 ^ e') as ->.
    { rewrite <- !pow2_plus. by replace (s + e2 + e')%Z with e1 by lia. }
    field. lra. }
  exists q, e', (new_location (Zpos m2) r). split_and!; try done.
  - apply (new_location_located _ _ _ _ Hr).
    rewrite Hy, Hqr, inject_Z_plus, inject_Z_mult. field. lra.
  - apply Z.le_trans with (fexp 53 1024 (d1 + e1 - (d2 + e2))); [lia|].
    apply fexp_le.
    destruct (Zdigits2_Q m1) as [H1 _]. destruct (Zdigits2_Q m2) as [_ H2].
    fold d1 in H1. fold d2 in H2.
    destruct (mag_spec x Hx) as [_ Hmag].
    assert (2 ^ (d1 + e1 - (d2 + e2) - 1) < 2 ^ mag x) as H.
    { eapply Qlt_trans; [|exact Hmag]. unfold x.
      apply Qlt_shift_div_l; [done|].
      assert (2 ^ (d1 - 1) * 2 ^ e1
              == 2 ^ (d1 + e1 - (d2 + e2) - 1) * (2 ^ d2 * 2 ^ e2)) as Hpow.
      { rewrite <- !pow2_plus.
        by replace (d1 + e1 - (d2 + e2) - 1 + (d2 + e2))%Z
          with (d1 - 1 + e1)%Z by lia. }
      pose proof (pow2_pos (d1 + e1 - (d2 + e2) - 1)).
      apply Qlt_le_trans
        with (2 ^ (d1 + e1 - (d2 + e2) - 1) * (2 ^ d2 * 2 ^ e2)).
      - apply Qmult_lt_l; [done|]. apply Qmult_lt_compat_r; lra.
      - rewrite <- Hpow. apply Qmult_le_compat_r; lra. }
    apply pow2_lt_inv in H. lia.
Qed.

(** Division of two positive numbers. *)
Lemma SFdiv_nearest (m1 m2 : positive) (e1 e2 : Z) :
  let x := inject_Z (Zpos m1) * 2 ^ e1 / (inject_Z (Zpos m2) * 2 ^ e2) in
  x < 2 ^ 1023 ->
  let f := SFdiv 53 1024 (S754_finite false m1 e1) (S754_finite false m2 e2) in
  0 < x
  /\ ((f = S754_zero false /\ nearest_binary64_pos x == 0)
      \/ (exists m' e',
            f = S754_finite false m' e'
            /\ inject_Z (Zpos m') * 2 ^ e' == nearest_binary64_pos x)).
Proof.
  intros x Hmax f.
  destruct (SFdiv_core_binary_located m1 m2 e1 e2)
    as (q & e' & l & Hcore & Hq & Hloc & He & Hx).
  fold x in Hloc, He, Hx. split; [done|].
  subst f. unfold SFdiv. rewrite Hcore. cbv beta iota. simpl xorb.
  destruct (binary_round_aux_nearest q e' l x Hx Hmax Hq Hloc He)
    as [[-> H0] | (m' & e'' & -> & Hv & _)]; [by left|].
  right. by eexists _, _.
Qed.

(** Multiplication of two positive numbers, the first one normal. *)
Lemma SFmul_nearest (m1 m2 : positive) (e1 e2 : Z) :
  let x := inject_Z (Zpos m1) * 2 ^ e1 * (inject_Z (Zpos m2) * 2 ^ e2) in
  x < 2 ^ 1023 -> (2 ^ 52 <= Zpos m1)%Z ->
  let f := SFmul 53 1024 (S754_finite false m1 e1) (S754_finite false m2 e2) in
  0 < x
  /\ ((f = S754_zero false /\ nearest_binary64_pos x == 0)
      \/ (exists m' e',
            f = S754_finite false m' e'
            /\ inject_Z (Zpos m') * 2 ^ e' == nearest_binary64_pos x)).
Proof.
  intros x Hmax Hnormal f.
  pose proof (pow2_pos e1) as Hp1. pose proof (pow2_pos e2) as Hp2.
  assert (0 < inject_Z (Zpos m1)) as HM1 by (by apply inject_Z_pos_lt).
  assert (0 < inject_Z (Zpos m2)) as HM2 by (by apply inject_Z_pos_lt).
  assert (0 < x) as Hx.
  { unfold x. repeat apply Qmult_lt_0_compat; lra. }
  split; [done|].
  assert (located (Zpos (m1 * m2)) loc_Exact (x / 2 ^ (e1 + e2))) as Hloc.
  { simpl. unfold x. rewrite Pos2Z.inj_mul, inject_Z_mult, pow2_plus.
    field. lra. }
  assert (e1 + e2 <= fexp 53 1024 (mag x))%Z as He.
  { rewrite (mag_located _ _ _ _ Hloc), fexp_binary64.
    destruct (Zdigits2_spec (m1 * m2)) as [_ H].
    assert (2 ^ 52 < 2 ^ Zdigits2 (Zpos (m1 * m2)))%Z as H2.
    { eapply Z.le_lt_trans; [|exact H]. rewrite Pos2Z.inj_mul. nia. }
    apply Z.pow_lt_mono_r_iff in H2; [lia | lia | simpl; lia]. }
  subst f. unfold SFmul. simpl xorb.
  destruct (binary_round_aux_nearest (Zpos (m1 * m2)) (e1 + e2) loc_Exact x
              Hx Hmax (Pos2Z.is_nonneg _) Hloc He)
    as [[-> H0] | (m' & e'' & -> & Hv & _)]; [by left|].
  right. by eexists _, _.
Qed.


Lemma nearest_binary64_zero (x : Q) : x == 0 -> nearest_binary64 x == 0.
Proof. intros H. unfold nearest_binary64. by rewrite (Qcompare_Eq _ _ H). Qed.

Lemma nearest_binary64_pos_eq (x : Q) :
  0 < x -> nearest_binary64 x = nearest_binary64_pos x.
Proof. intros H. unfold nearest_binary64. by rewrite (Qcompare_Gt _ _ H). Qed.

Lemma nearest_binary64_comp (x y : Q) :
  0 <= x -> x == y -> nearest_binary64 x == nearest_binary64 y.
Proof.
  intros Hx H. destruct (Qlt_le_dec 0 x) as [Hpos | Hle].
  - rewrite !nearest_binary64_pos_eq by lra.
    by apply nearest_binary64_pos_comp.
  - rewrite !nearest_binary64_zero by lra. reflexivity.
Qed.

Lemma nearest_binary64_nonneg (x : Q) : 0 <= x -> 0 <= nearest_binary64 x.
Proof.
  intros Hx. destruct (Qlt_le_dec 0 x) as [Hpos | Hle].
  - rewrite nearest_binary64_pos_eq by done.
    by apply nearest_binary64_pos_nonneg.
  - rewrite nearest_binary64_zero by lra. lra.
Qed.

(** Rounding to binary64 is monotone. *)
Lemma nearest_binary64_le (x y : Q) :
  0 <= x -> x <= y -> nearest_binary64 x <= nearest_binary64 y.
Proof.
  intros Hx Hxy. destruct (Qlt_le_dec 0 x) as [Hpos | Hle].
  - rewrite !nearest_binary64_pos_eq by lra.
    by apply nearest_binary64_pos_le.
  - rewrite (nearest_binary64_zero x) by lra.
    apply nearest_binary64_nonneg. lra.
Qed.

(** An integer of at most 53 bits is a binary64 number. *)
Lemma nearest_binary64_Z (z : Z) :
  (0 <= z < 2 ^ 53)%Z -> nearest_binary64 (inject_Z z) == inject_Z z.
Proof.
  intros [Hz Hz53]. destruct (Z.eq_dec z 0%Z) as [-> | Hnz]; [reflexivity|].
  rewrite nearest_binary64_pos_eq by (apply inject_Z_pos_lt; lia).
  apply nearest_binary64_pos_Z. lia.
Qed.

Lemma nonneg_finite_value (f : spec_float) : nonneg_finite f -> 0 <= SF2Q f.
Proof.
  intros [-> | (m & e & ->)]; simpl; [lra|].
  pose proof (pow2_pos e). pose proof (inject_Z_pos_lt (Zpos m) eq_refl).
  apply Qmult_le_0_compat; lra.
Qed.

(** [SFdiv] by a positive number. *)
Lemma SFdiv_value (f : spec_float) (m2 : positive) (e2 : Z) :
  nonneg_finite f ->
  SF2Q f / SF2Q (S754_finite false m2 e2) < 2 ^ 1023 ->
  nonneg_finite (SFdiv 53 1024 f (S754_finite false m2 e2))
  /\ SF2Q (SFdiv 53 1024 f (S754_finite false m2 e2))
     == nearest_binary64 (SF2Q f / SF2Q (S754_finite false m2 e2)).
Proof.
  intros [-> | (m1 & e1 & ->)] Hmax.
  - split; [by left|]. simpl SFdiv. simpl SF2Q.
    rewrite nearest_binary64_zero; [reflexivity|].
    unfold Qdiv. ring.
  - cbn [SF2Q cond_Zopp] in Hmax |- *.
    destruct (SFdiv_nearest m1 m2 e1 e2 Hmax)
      as [Hx [[-> H0] | (m' & e' & -> & Hv)]].
    + split; [by left|]. rewrite nearest_binary64_pos_eq by done.
      change (SF2Q (S754_zero false)) with 0. symmetry. exact H0.
    + split; [right; by eexists _, _|].
      rewrite nearest_binary64_pos_eq by done. exact Hv.
Qed.

(** [SFmul] of a normal positive number and a non-negative one. *)
Lemma SFmul_value (m1 : positive) (e1 : Z) (f : spec_float) :
  (2 ^ 52 <= Zpos m1)%Z -> nonneg_finite f ->
  SF2Q (S754_finite false m1 e1) * SF2Q f < 2 ^ 1023 ->
  nonneg_finite (SFmul 53 1024 (S754_finite false m1 e1) f)
  /\ SF2Q (SFmul 53 1024 (S754_finite false m1 e1) f)
     == nearest_binary64 (SF2Q (S754_finite false m1 e1) * SF2Q f).
Proof.
  intros Hnormal [-> | (m2 & e2 & ->)] Hmax.
  - split; [by left|]. simpl SFmul. simpl SF2Q.
    rewrite nearest_binary64_zero; [reflexivity | ring].
  - cbn [SF2Q cond_Zopp] in Hmax |- *.
    destruct (SFmul_nearest m1 m2 e1 e2 Hmax Hnormal)
      as [Hx [[-> H0] | (m' & e' & -> & Hv)]].
    + split; [by left|]. rewrite nearest_binary64_pos_eq by done.
      change (SF2Q (S754_zero false)) with 0. symmetry. exact H0.
    + split; [right; by eexists _, _|].
      rewrite nearest_binary64_pos_eq by done. exact Hv.
Qed.

Lemma binary64_of_Q_value (q : Q) :
  0 <= q -> q < 2 ^ 1023 ->
  nonneg_finite (binary64_of_Q q)
  /\ SF2Q (binary64_of_Q q) == nearest_binary64 q.
Proof.
  intros Hq Hmax. destruct q as [n d]. unfold binary64_of_Q. simpl Qnum.
  destruct n as [|n|n].
  - split; [by left|]. rewrite nearest_binary64_zero; reflexivity.
  - assert (inject_Z (Z.pos n) * 2 ^ 0 / (inject_Z (Z.pos d) * 2 ^ 0)
            == Z.pos n # d) as Hv.
    { rewrite (Qmake_Qdiv (Zpos n) d). change (2 ^ 0) with 1.
      field. pose proof (inject_Z_pos_lt (Zpos d) eq_refl). lra. }
    assert (0 < Z.pos n # d) as Hpos by done.
    destruct (SFdiv_value (S754_finite false n 0) d 0) as [Hfin Hval].
    { right. by eexists _, _. }
    { simpl SF2Q. by rewrite Hv. }
    split; [done|]. simpl Qden. rewrite Hval. simpl SF2Q.
    apply nearest_binary64_comp; [|exact Hv]. rewrite Hv. lra.
  - exfalso. unfold Qle in Hq. simpl in Hq. lia.
Qed.

Lemma py_int_value (f : spec_float) :
  nonneg_finite f -> py_int f = inr (Qfloor (SF2Q f)).
Proof.
  intros [-> | (m & e & ->)]; [done|]. cbn [py_int SF2Q cond_Zopp]. f_equal.
  destruct (Z.leb_spec 0 e) as [He | He].
  - symmetry. rewrite <- (Qfloor_Z (Zpos m * 2 ^ e)). apply Qfloor_comp.
    rewrite inject_Z_mult, pow2_Z by done. reflexivity.
  - rewrite Z.quot_div_nonneg by lia. rewrite Zdiv_Qdiv.
    apply Qfloor_comp. rewrite pow2_Z by lia.
    rewrite Qpower_opp. pose proof (pow2_pos e). field. lra.
Qed.


Lemma Pos_iter_xO (p d : positive) :
  Zpos (Pos.iter xO p d) = (Zpos p * 2 ^ Zpos d)%Z.
Proof.
  induction d as [|d IH] using Pos.peano_ind.
  - simpl. lia.
  - rewrite Pos.iter_succ, Pos2Z.inj_xO, IH, Pos2Z.inj_succ, Z.pow_succ_r; lia.
Qed.

Lemma below_pow2_1023 (x : Q) (z : Z) :
  (z < 2 ^ 53)%Z -> x <= inject_Z z -> x < 2 ^ 1023.
Proof.
  intros Hz Hx. rewrite Zlt_Qlt, pow2_Z in Hz by done.
  pose proof (pow2_lt 53 1023 eq_refl). lra.
Qed.

(** [float(w)] is exact for an integer of at most 53 bits, and normal. *)
Lemma binary64_of_Z_value (w : Z) :
  (0 < w < 2 ^ 53)%Z ->
  exists m e,
    binary64_of_Z w = S754_finite false m e
    /\ inject_Z (Zpos m) * 2 ^ e == inject_Z w
    /\ (2 ^ 52 <= Zpos m)%Z.
Proof.
  intros [H0 H53]. destruct w as [|p|p]; try lia.
  set (x := inject_Z (Zpos p)).
  assert (0 < x) as Hx by (by apply inject_Z_pos_lt).
  assert (x < 2 ^ 1023) as Hmax.
  { apply (below_pow2_1023 _ (Zpos p)); [done | subst x; lra]. }
  assert (mag x = Zdigits2 (Zpos p) + 0)%Z as Hmag.
  { apply (mag_located p 0 loc_Exact). simpl. change (2 ^ 0) with 1.
    subst x. field. }
  unfold binary64_of_Z, binary_normalize, binary_round.
  change (Zpos (digits2_pos p)) with (Zdigits2 (Zpos p)). rewrite <- Hmag.
  destruct (shl_align p 0 (fexp 53 1024 (mag x))) as [mz ez] eqn:Hshl.
  assert (inject_Z (Zpos mz) * 2 ^ ez == x
          /\ (ez <= fexp 53 1024 (mag x))%Z) as [Hv Hez].
  { unfold shl_align in Hshl.
    destruct (fexp 53 1024 (mag x) - 0)%Z as [|d|d] eqn:Hd;
      injection Hshl as <- <-.
    - split; [|lia]. change (2 ^ 0) with 1. subst x. ring.
    - split; [|lia]. change (2 ^ 0) with 1. subst x. ring.
    - split; [|lia]. rewrite Pos_iter_xO, inject_Z_mult, pow2_Z by done.
      replace (fexp 53 1024 (mag x)) with (- Zpos d)%Z by lia.
      rewrite Qpower_opp. pose proof (pow2_pos (Zpos d)). subst x. field. lra. }
  assert (located (Zpos mz) loc_Exact (x / 2 ^ ez)) as Hloc.
  { simpl. rewrite <- Hv. pose proof (pow2_pos ez). field. lra. }
  pose proof (nearest_binary64_pos_Z (Zpos p) (conj H0 H53)) as Hexact.
  fold x in Hexact.
  destruct (binary_round_aux_nearest (Zpos mz) ez loc_Exact x Hx Hmax
              (Pos2Z.is_nonneg _) Hloc Hez)
    as [[_ Hz] | (m' & e' & -> & Hval & Hnormal)].
  - rewrite Hexact in Hz. lra.
  - exists m', e'. split_and!; [done | by rewrite Hval |].
    apply Hnormal. rewrite Hmag, fexp_binary64. simpl Zdigits2. lia.
Qed.

(** The bound [int(d * p / 100)] the code computes, read in the
    rationals: three roundings to binary64 and a truncation. *)
Lemma crop_bound_value (d : Z) (p : Q) :
  (0 < d < 2 ^ 46)%Z -> 0 <= p -> p <= 100 ->
  crop_bound d p
  = inr (Qfloor (nearest_binary64
                   (nearest_binary64 (inject_Z d * nearest_binary64 p) / 100)))
  /\ 0 <= nearest_binary64 p <= 100
  /\ 0 <= nearest_binary64 (inject_Z d * nearest_binary64 p)
     <= inject_Z d * 100.
Proof.
  intros [Hd0 Hd46] Hp0 Hp100.
  assert (0 < inject_Z d) as HD by (by apply inject_Z_pos_lt).
  destruct (binary64_of_Z_value d) as (mw & ew & HW & HWv & HWn); [lia|].
  assert (binary64_of_Z 100 = S754_finite false 7036874417766400 (-46)) as HC
    by reflexivity.
  assert (SF2Q (S754_finite false 7036874417766400 (-46)) == 100) as HCv
    by (vm_compute; reflexivity).
  destruct (binary64_of_Q_value p Hp0) as [HPf HPv].
  { apply (below_pow2_1023 _ 100); [done|]. change (inject_Z 100) with 100. lra. }
  assert (0 <= nearest_binary64 p <= 100) as [HP0 HP100].
  { split; [by apply nearest_binary64_nonneg|].
    rewrite <- (nearest_binary64_Z 100) by done.
    by apply nearest_binary64_le. }
  set (P := binary64_of_Q p) in *.
  assert (SF2Q (S754_finite false mw ew) == inject_Z d) as HWv' by exact HWv.
  assert (SF2Q (S754_finite false mw ew) * SF2Q P == inject_Z d * nearest_binary64 p)
    as Hprod by (by rewrite HWv', HPv).
  assert (0 <= inject_Z d * nearest_binary64 p) as Hprod0
    by (apply Qmult_le_0_compat; lra).
  assert (inject_Z d * nearest_binary64 p <= inject_Z (d * 100)) as Hprod1.
  { rewrite inject_Z_mult. change (inject_Z 100) with 100.
    apply Qmult_le_l; lra. }
  assert (d * 100 < 2 ^ 53)%Z as Hd53 by lia.
  destruct (SFmul_value mw ew P HWn HPf) as [HYf HYv].
  { rewrite Hprod. by apply (below_pow2_1023 _ (d * 100)). }
  assert (0 <= SF2Q (S754_finite false mw ew) * SF2Q P) as Hprod0'
    by (by rewrite Hprod).
  rewrite (nearest_binary64_comp _ _ Hprod0' Hprod) in HYv.
  set (Y := SFmul 53 1024 (S754_finite false mw ew) P) in *.
  assert (0 <= nearest_binary64 (inject_Z d * nearest_binary64 p)
          <= inject_Z d * 100) as [HY0 HY1].
  { split; [by apply nearest_binary64_nonneg|].
    assert (inject_Z d * 100 == inject_Z (d * 100)) as ->
      by (rewrite inject_Z_mult; reflexivity).
    rewrite <- (nearest_binary64_Z (d * 100)) by lia.
    by apply nearest_binary64_le. }
  assert (SF2Q Y / SF2Q (S754_finite false 7036874417766400 (-46))
          == nearest_binary64 (inject_Z d * nearest_binary64 p) / 100) as Hquot
    by (by rewrite HYv, HCv).
  assert (0 <= nearest_binary64 (inject_Z d * nearest_binary64 p) / 100
          <= inject_Z d) as [HQ0 HQ1].
  { split.
    - apply Qle_shift_div_l; lra.
    - apply Qle_shift_div_r; lra. }
  destruct (SFdiv_value Y 7036874417766400 (-46) HYf) as [HZf HZv].
  { rewrite Hquot. apply (below_pow2_1023 _ d); [lia | done]. }
  assert (0 <= SF2Q Y / SF2Q (S754_finite false 7036874417766400 (-46)))
    as HQ0' by (by rewrite Hquot).
  rewrite (nearest_binary64_comp _ _ HQ0' Hquot) in HZv.
  split; [|done].
  unfold crop_bound. rewrite HW, HC. fold P. fold Y.
  rewrite (py_int_value _ HZf). f_equal. by apply Qfloor_comp.
Qed.


Lemma Qfloor_lower (z : Z) (q : Q) : inject_Z z <= q -> (z <= Qfloor q)%Z.
Proof. intros H. rewrite <- (Qfloor_Z z). by apply Qfloor_resp_le. Qed.

Lemma Qfloor_upper (z : Z) (q : Q) : q <= inject_Z z -> (Qfloor q <= z)%Z.
Proof. intros H. rewrite <- (Qfloor_Z z). by apply Qfloor_resp_le. Qed.

(** Two bounds on one axis, for percentages [0 <= p <= q <= 100]: both
    are computed without an exception, and they are ordered and within
    the dimension. *)
Lemma crop_bound_ordered (d : Z) (p q : Q) :
  (0 < d < 2 ^ 46)%Z -> 0 <= p -> p <= q -> q <= 100 ->
  exists z0 z1,
    crop_bound d p = inr z0 /\ crop_bound d q = inr z1
    /\ (0 <= z0 <= z1)%Z /\ (z1 <= d)%Z.
Proof.
  intros Hd Hp Hpq Hq.
  assert (0 < inject_Z d) as HD by (apply inject_Z_pos_lt; lia).
  destruct (crop_bound_value d p Hd) as (-> & [Hp0 Hp1] & [HP0 HP1]);
    [lra | lra |].
  destruct (crop_bound_value d q Hd) as (-> & [Hq0 Hq1] & [HQ0 HQ1]);
    [lra | lra |].
  eexists _, _. split; [reflexivity|]. split; [reflexivity|].
  pose proof (nearest_binary64_le p q Hp Hpq) as Hle1.
  assert (nearest_binary64 (inject_Z d * nearest_binary64 p)
          <= nearest_binary64 (inject_Z d * nearest_binary64 q)) as Hle2.
  { apply nearest_binary64_le.
    - apply Qmult_le_0_compat; lra.
    - apply Qmult_le_l; lra. }
  split_and!.
  - apply Qfloor_lower. change (inject_Z 0) with 0.
    apply nearest_binary64_nonneg. apply Qle_shift_div_l; lra.
  - apply Qfloor_resp_le, nearest_binary64_le.
    + apply Qle_shift_div_l; lra.
    + apply Qdiv_le_compat; lra.
  - apply Qfloor_upper.
    assert (nearest_binary64 (inject_Z d) == inject_Z d) as Hexact
      by (apply nearest_binary64_Z; lia).
    apply Qle_trans with (nearest_binary64 (inject_Z d)); [|lra].
    apply nearest_binary64_le.
    + apply Qle_shift_div_l; lra.
    + apply Qle_shift_div_r; lra.
Qed.

End Binary64.

(** ** Crop geometry *)

Section CropGeometry.
Local Open Scope Q_scope.

Lemma crop_settings_valid_spec (c : CropSettings) :
  crop_settings_valid c = true ->
  0 <= horizontal_start c /\ horizontal_start c < horizontal_end c
  /\ horizontal_end c <= 100
  /\ 0 <= vertical_start c /\ vertical_start c < vertical_end c
  /\ vertical_end c <= 100.
Proof.
  unfold crop_settings_valid. simpl.
  rewrite !andb_true_iff, !negb_true_iff, !Qle_bool_iff.
  intros [[((H1 & _) & (_ & H2) & (H3 & _) & (_ & H4) & _) Hh] Hv].
  assert (forall a b, Qle_bool a b = false -> b < a) as Hlt.
  { intros a b E. apply Qnot_le_lt. rewrite <- Qle_bool_iff. congruence. }
  apply Hlt in Hh, Hv. done.
Qed.

(** C1 (amended): for every valid CropSettings and positive raster
    dimensions below [2^46], the four bounds
    [int(dimension * percent / 100)] are computed in binary64 without
    an exception and satisfy [0 <= x0 <= x1 <= width] and
    [0 <= y0 <= y1 <= height]. *)
Theorem crop_bounds_ordered_within
    (width height : Z) (c : CropSettings) :
  crop_settings_valid c = true ->
  (0 < width < 2 ^ 46)%Z -> (0 < height < 2 ^ 46)%Z ->
  exists x0 y0 x1 y1 : Z,
    crop_bounds width height c = inr (x0, y0, x1, y1)
    /\ (0 <= x0 <= x1)%Z /\ (x1 <= width)%Z
    /\ (0 <= y0 <= y1)%Z /\ (y1 <= height)%Z.
Proof.
  intros Hvalid Hw Hh.
  apply crop_settings_valid_spec in Hvalid
    as (Hhs & Hh_lt & Hhe & Hvs & Hv_lt & Hve).
  destruct (crop_bound_ordered width (horizontal_start c) (horizontal_end c))
    as (x0 & x1 & Hx0 & Hx1 & Hx & Hxw); try done; [lra|].
  destruct (crop_bound_ordered height (vertical_start c) (vertical_end c))
    as (y0 & y1 & Hy0 & Hy1 & Hy & Hyh); try done; [lra|].
  exists x0, y0, x1, y1. unfold crop_bounds.
  by rewrite Hx0, Hx1, Hy0, Hy1.
Qed.

Lemma crop_bounds_ordered_within_witness :
  exists x0 y0 x1 y1 : Z,
    crop_bounds 2480 3508 margin_crop = inr (x0, y0, x1, y1)
    /\ (0 <= x0 <= x1)%Z /\ (x1 <= 2480)%Z
    /\ (0 <= y0 <= y1)%Z /\ (y1 <= 3508)%Z.
Proof.
  apply (crop_bounds_ordered_within 2480 3508 margin_crop);
    [reflexivity | split; reflexivity | split; reflexivity].
Defined.

(** C1 as stated fails: on a 99-pixel-wide raster a crop from 0 to 1
    percent of the width has [x0 = x1 = 0]. *)
Lemma crop_bounds_strict_counterexample :
  ~ (forall (width height : Z) (c : CropSettings) (x0 y0 x1 y1 : Z),
        crop_settings_valid c = true ->
        (0 < width)%Z -> (0 < height)%Z ->
        crop_bounds width height c = inr (x0, y0, x1, y1) ->
        (x0 < x1)%Z /\ (y0 < y1)%Z
        /\ (0 <= x0 <= width)%Z /\ (0 <= x1 <= width)%Z
        /\ (0 <= y0 <= height)%Z /\ (0 <= y1 <= height)%Z).
Proof.
  intros H.
  destruct (H 99%Z 99%Z narrow_crop 0%Z 0%Z 0%Z 99%Z
              eq_refl eq_refl eq_refl eq_refl) as [Hx _].
  lia.
Qed.

(** The bounds of the sample crops, as Python computes them. *)
Lemma crop_bounds_samples :
  crop_bounds 2480 3508 margin_crop = inr (260, 0, 2232, 1168)%Z
  /\ crop_bounds 99 99 narrow_crop = inr (0, 0, 0, 99)%Z.
Proof. split; vm_compute; reflexivity. Qed.

(** The two roundings are visible in the result. On 2500 pixels the
    percentages 2.24 and 2.28 are one pixel apart in exact arithmetic,
    [floor(56.0) = 56] and [floor(57.0) = 57], and give the same bound
    in binary64, where [2500 * 2.28 / 100] is just below 57. *)
Lemma crop_bound_rounds :
  crop_bound 2500 (224 # 100) = inr 56%Z
  /\ crop_bound 2500 (228 # 100) = inr 56%Z
  /\ Qfloor (2500 * (228 # 100) / 100) = 57%Z.
Proof. split_and!; vm_compute; reflexivity. Qed.

(** Above 53 bits [float(width)] is rounded, and a bound can exceed the
    width. *)
Lemma crop_bound_beyond_53_bits :
  crop_bound (2 ^ 53 + 3) 100 = inr (2 ^ 53 + 4)%Z.
Proof. vm_compute; reflexivity. Qed.

End CropGeometry.

(** ** Lists of page indices *)

Lemma StronglySorted_seq (start n : nat) : StronglySorted lt (seq start n).
Proof.
  revert start. induction n as [|n IH]; intros start; simpl.
  - constructor.
  - constructor; [apply IH|].
    apply Forall_forall. intros x Hx. apply elem_of_seq in Hx. lia.
Qed.

Lemma sublist_StronglySorted {A} (rel : relation A) (l1 l2 : list A) :
  sublist l1 l2 -> StronglySorted rel l2 -> StronglySorted rel l1.
Proof.
  induction 1 as [|x l1 l2 Hsub IH|x l1 l2 Hsub IH]; intros Hs.
  - constructor.
  - apply StronglySorted_cons in Hs as [Hall Hs].
    apply StronglySorted_cons. split; [|by apply IH].
    apply Forall_forall. intros y Hy.
    rewrite Forall_forall in Hall. apply Hall.
    by apply (elem_of_sublist l1).
  - apply StronglySorted_cons in Hs as [_ Hs]. by apply IH.
Qed.

(** ** The page loop *)

Section PageLoop.
Context {R : Renderer}.
Context (pdf : Path) (settings : Settings) (doc : Document)
        (cs : Colorspace).

Local Abbreviation out_path i :=
  (get_output_path pdf i (output_folder settings) (format settings)).

Lemma page_records_app (l1 l2 : list LogRecord) :
  page_records (l1 ++ l2) = page_records l1 ++ page_records l2.
Proof. apply List.filter_app. Qed.

(** The [try] body either raises before it has logged anything, or
    counts the page as converted. *)
Lemma page_try_body_outcome (i : nat) (output_path : Path)
    (r : ConversionResult) (w : World) :
  (exists e w1,
      page_try_body pdf settings doc cs i output_path r w = (inl e, w1)
      /\ log w1 = log w)
  \/ (exists w1 delta,
      page_try_body pdf settings doc cs i output_path r w
      = (inr (add_converted output_path r), w1)
      /\ log w1 = log w ++ delta
      /\ page_records delta = [LogConverted (path_name output_path)]).
Proof.
  unfold page_try_body, bind, call, call_fs, logger, ret, raise.
  repeat (case_match; simplify_eq/=);
    first [ left; by eauto
          | right; eexists _, _; split_and!;
            [reflexivity | rewrite <- ?app_assoc; reflexivity | reflexivity] ].
Qed.

(** What the handler does with an exception of the [try] body. *)
Lemma page_body_catches (i : nat) (r : ConversionResult) (w w1 : World)
    (e : exn) :
  path_exists (fs w) (out_path i) && negb (overwrite settings) = false ->
  page_try_body pdf settings doc cs i (out_path i) r w = (inl e, w1) ->
  page_body pdf settings doc cs i r w
  = (inr (incr_pages_failed r),
     {| fs := fs w1;
        log := log w1 ++ [LogPageFailed (i + 1) (path_name pdf) e] |}).
Proof.
  intros Hnew Hraise. unfold page_body, bind, get_fs, try_except.
  rewrite Hnew, Hraise. reflexivity.
Qed.

(** A page whose output is already there is counted without entering the
    [try]. *)
Lemma page_body_existing (i : nat) (r : ConversionResult) (w : World) :
  path_exists (fs w) (out_path i) = true ->
  overwrite settings = false ->
  page_body pdf settings doc cs i r w
  = (inr (add_converted (out_path i) r),
     {| fs := fs w;
        log := log w ++ [LogSkippingExisting (path_name (out_path i))] |}).
Proof.
  intros Hex Hov. unfold page_body, bind, get_fs.
  rewrite Hex, Hov. reflexivity.
Qed.

(** One iteration always returns: the page is counted as converted or
    as failed, and leaves its record at the end of the log. *)
Lemma page_body_outcome (i : nat) (r : ConversionResult) (w : World) :
  exists r' w' delta rec,
    page_body pdf settings doc cs i r w = (inr r', w')
    /\ log w' = log w ++ delta
    /\ page_records delta = [rec]
    /\ page_record_of pdf settings i rec
    /\ (is_page_failed rec = false /\ r' = add_converted (out_path i) r
        \/ is_page_failed rec = true /\ r' = incr_pages_failed r).
Proof.
  destruct (path_exists (fs w) (out_path i) && negb (overwrite settings))
    eqn:Hnew.
  - apply andb_true_iff in Hnew as [Hex Hov]. apply negb_true_iff in Hov.
    rewrite page_body_existing by done.
    eexists _, _, [LogSkippingExisting (path_name (out_path i))], _.
    split_and!; try reflexivity.
    + hnf. by left.
    + by left.
  - destruct (page_try_body_outcome i (out_path i) r w)
      as [(e & w1 & Hraise & Hlog) | (w1 & delta & Hok & Hlog & Hrec)].
    + rewrite (page_body_catches _ _ _ _ _ Hnew Hraise).
      eexists _, _, [LogPageFailed (i + 1) (path_name pdf) e], _.
      simpl. split_and!; try reflexivity.
      * by rewrite Hlog.
      * hnf. right. right. by eexists.
      * by right.
    + unfold page_body, bind, get_fs, try_except. rewrite Hnew, Hok.
      eexists _, _, delta, _. split_and!; try done.
      * hnf. right. by left.
      * by left.
Qed.

(** The loop over any list of indices returns; it leaves one page
    record per index, in order; [conv] lists the indices counted as
    converted. *)
Lemma for_each_page_body (idxs : list nat) (r : ConversionResult) (w : World) :
  exists r' w' delta conv,
    for_each (page_body pdf settings doc cs) idxs r w = (inr r', w')
    /\ log w' = log w ++ delta
    /\ Forall2 (page_record_of pdf settings) idxs (page_records delta)
    /\ sublist conv idxs
    /\ output_files r' = output_files r ++ map (fun i => out_path i) conv
    /\ pages_converted r' = pages_converted r + length conv
    /\ pages_failed r'
       = pages_failed r + length (List.filter is_page_failed (page_records delta))
    /\ length conv + length (List.filter is_page_failed (page_records delta))
       = length idxs
    /\ pdf_path r' = pdf_path r /\ status r' = status r
    /\ pages_total r' = pages_total r /\ error_message r' = error_message r.
Proof.
  revert r w. induction idxs as [|i idxs IH]; intros r w.
  - exists r, w, [], []. simpl. rewrite !app_nil_r.
    split_and!; try done; try lia; constructor.
  - destruct (page_body_outcome i r w)
      as (r1 & w1 & d1 & rec & Hstep & Hlog1 & Hrec & Hof & Hcase).
    destruct (IH r1 w1)
      as (r2 & w2 & d2 & conv & Hrest & Hlog2 & Hall & Hsub & Hfiles & Hconv
          & Hfail & Hlen & Hp & Hs & Ht & He).
    simpl. unfold bind at 1. rewrite Hstep.
    destruct Hcase as [[Hnf ->] | [Hf ->]].
    + exists r2, w2, (d1 ++ d2), (i :: conv).
      rewrite page_records_app, Hrec. simpl. rewrite Hnf.
      simpl in *. rewrite <- app_assoc in Hfiles.
      split_and!; try done; try lia.
      * by rewrite Hlog2, Hlog1, app_assoc.
      * by constructor.
      * by constructor.
    + exists r2, w2, (d1 ++ d2), conv.
      rewrite page_records_app, Hrec. simpl. rewrite Hf.
      simpl in *.
      split_and!; try done; try lia.
      * by rewrite Hlog2, Hlog1, app_assoc.
      * by constructor.
      * by constructor.
Qed.

(** C5: when the output path of a page exists and overwrite is false the
    page is counted as converted ([pages_converted] plus one, the path
    appended to [output_files]); the file system is left as it was and
    the outcome mentions neither the renderer nor the document; it is
    the same whatever [skip_if_exists] says. *)
Theorem existing_page_counted_without_render
    (i : nat) (r : ConversionResult) (w : World) :
  path_exists (fs w) (out_path i) = true ->
  overwrite settings = false ->
  let r' := add_converted (out_path i) r in
  let w' :=
    {| fs := fs w;
       log := log w ++ [LogSkippingExisting (path_name (out_path i))] |} in
  page_body pdf settings doc cs i r w = (inr r', w')
  /\ (forall b : bool,
        page_body pdf (set_skip_if_exists b settings) doc cs i r w
        = (inr r', w'))
  /\ pages_converted r' = pages_converted r + 1
  /\ output_files r' = output_files r ++ [out_path i]
  /\ pages_failed r' = pages_failed r.
Proof.
  intros Hex Hov r' w'. split_and!; try done.
  - by apply page_body_existing.
  - intros b. unfold page_body, bind, get_fs. simpl. by rewrite Hex, Hov.
Qed.

End PageLoop.

(** ** One document *)

Section Document.
Context {R : Renderer}.
Context (pdf : Path) (settings : Settings).

Local Abbreviation out_path i :=
  (get_output_path pdf i (output_folder settings) (format settings)).

Lemma should_skip_pdf_outcome (w : World) :
  exists b w',
    should_skip_pdf pdf settings w = (inr b, w')
    /\ fs w' = fs w
    /\ b = (skip_if_exists settings && negb (overwrite settings)
            && path_exists (fs w) (out_path 0)).
Proof.
  unfold should_skip_pdf, bind, get_fs, logger, ret.
  destruct (skip_if_exists settings), (overwrite settings); simpl;
    try (by eexists _, _).
  destruct (path_exists (fs w) (out_path 0)); by eexists _, _.
Qed.

Lemma determine_final_status_outcome (r : ConversionResult) (w : World) :
  exists r' w',
    determine_final_status pdf r w = (inr r', w')
    /\ fs w' = fs w
    /\ pdf_path r' = pdf_path r /\ pages_total r' = pages_total r
    /\ pages_converted r' = pages_converted r
    /\ pages_failed r' = pages_failed r
    /\ output_files r' = output_files r
    /\ (pages_failed r = 0 -> status r' = success
        /\ error_message r' = error_message r)
    /\ (pages_failed r <> 0 -> 0 < pages_converted r ->
        status r' = partial /\ error_message r' = error_message r)
    /\ (pages_failed r <> 0 -> pages_converted r = 0 ->
        status r' = failed
        /\ error_message r' = Some "All pages failed to render").
Proof.
  unfold determine_final_status, bind, logger, ret.
  destruct (pages_failed r =? 0)%nat eqn:Hf;
    [apply Nat.eqb_eq in Hf | apply Nat.eqb_neq in Hf].
  - eexists _, _. split; [reflexivity|]. simpl. split_and!; try done; lia.
  - destruct (0 <? pages_converted r)%nat eqn:Hc;
      [apply Nat.ltb_lt in Hc | apply Nat.ltb_ge in Hc].
    + eexists _, _. split; [reflexivity|]. simpl. split_and!; try done; lia.
    + eexists _, _. split; [reflexivity|]. simpl. split_and!; try done; lia.
Qed.

(** An open, unencrypted document: the loop runs over
    [range(pages_to_process)] and the status is then classified. *)
Lemma convert_open_document_outcome (doc : Document) (w : World) :
  exists r w' conv,
    convert_open_document pdf settings doc (new_result pdf success) w
    = (inr r, w')
    /\ pdf_path r = pdf /\ pages_total r = len doc
    /\ sublist conv (seq 0 (pages_to_process settings doc))
    /\ output_files r = map (fun i => out_path i) conv
    /\ pages_converted r = length conv
    /\ pages_converted r + pages_failed r = pages_to_process settings doc
    /\ (pages_failed r = 0 -> status r = success /\ error_message r = None)
    /\ (pages_failed r <> 0 -> 0 < pages_converted r ->
        status r = partial /\ error_message r = None)
    /\ (pages_failed r <> 0 -> pages_converted r = 0 ->
        status r = failed
        /\ error_message r = Some "All pages failed to render").
Proof.
  unfold convert_open_document, page_loop.
  set (cs := if String.eqb (colorspace settings) "gray" then csGRAY else csRGB).
  set (r0 := set_pages_total (len doc) (new_result pdf success)).
  destruct (for_each_page_body pdf settings doc cs
              (seq 0 (pages_to_process settings doc)) r0 w)
    as (r1 & w1 & d & conv & Hloop & _ & _ & Hsub & Hfiles & Hconv & Hfail
        & Hlen & Hp & _ & Ht & He).
  destruct (determine_final_status_outcome r1 w1)
    as (r2 & w2 & Hfin & _ & Hp2 & Ht2 & Hc2 & Hf2 & Ho2 & Hs1 & Hs2 & Hs3).
  unfold bind. rewrite Hloop, Hfin. exists r2, w2, conv.
  rewrite length_seq in Hlen.
  rewrite Hp2, Ht2, Hc2, Hf2, Ho2.
  rewrite He in Hs1, Hs2. simpl in *.
  split_and!; try done; lia.
Qed.

(** [convert_pdf] always returns a result, whatever the renderer does. *)
Lemma convert_pdf_outcome (w : World) :
  exists r w' conv,
    convert_pdf pdf settings w = (inr r, w')
    /\ pdf_path r = pdf
    /\ StronglySorted lt conv
    /\ output_files r = map (fun i => out_path i) conv
    /\ pages_converted r = length conv.
Proof.
  unfold convert_pdf.
  destruct (should_skip_pdf_outcome w) as (b & w0 & Hskip & _ & _).
  unfold bind at 1. rewrite Hskip. destruct b.
  { exists (set_status skipped (new_result pdf success)), w0, [].
    split_and!; try done. constructor. }
  unfold bind, get_fs, logger, ret.
  destruct (pymupdf_open (fs w0) pdf) as [e | doc].
  { destruct (decide (exn_class_of e = FileDataError));
      eexists _, _, []; (split_and!; [reflexivity | done | constructor | done | done]). }
  destruct (is_encrypted doc).
  { eexists _, _, []; (split_and!; [reflexivity | done | constructor | done | done]). }
  destruct (convert_open_document_outcome doc w0)
    as (r & w' & conv & Hrun & Hp & _ & Hsub & Hfiles & Hconv & _).
  exists r, w', conv. split_and!; try done.
  eapply sublist_StronglySorted; [exact Hsub|].
  apply StronglySorted_seq.
Qed.

(** C6: [should_skip_pdf] returns (it never raises and leaves the file
    system alone); it returns false whenever overwrite is enabled or
    skip-if-exists is disabled; otherwise it returns true exactly when
    the output file of page index 0 exists. *)
Theorem should_skip_pdf_spec (w : World) :
  exists b w',
    should_skip_pdf pdf settings w = (inr b, w')
    /\ fs w' = fs w
    /\ (overwrite settings = true \/ skip_if_exists settings = false ->
        b = false)
    /\ (overwrite settings = false -> skip_if_exists settings = true ->
        (b = true <-> path_exists (fs w) (out_path 0) = true)).
Proof.
  destruct (should_skip_pdf_outcome w) as (b & w' & Hrun & Hfs & ->).
  eexists _, w'. split_and!; try done.
  - intros [-> | ->]; [by rewrite andb_false_r | done].
  - by intros -> ->.
Qed.


(** C10: the result [convert_pdf] returns has as many output files as
    [pages_converted] says, and they are the output paths of a strictly
    increasing list of page indices, in that order. *)
Theorem convert_pdf_output_files_ordered (w : World) :
  exists r w' idxs,
    convert_pdf pdf settings w = (inr r, w')
    /\ length (output_files r) = pages_converted r
    /\ StronglySorted lt idxs
    /\ output_files r = map (fun i => out_path i) idxs.
Proof.
  destruct (convert_pdf_outcome w)
    as (r & w' & conv & Hrun & _ & Hsorted & Hfiles & Hconv).
  exists r, w', conv. split_and!; try done.
  by rewrite Hfiles, length_map.
Qed.

End Document.

(** ** Page failures stay in the page *)

Section PageFailures.
Context {R : Renderer}.
Context (pdf : Path) (settings : Settings).

Local Abbreviation out_path i :=
  (get_output_path pdf i (output_folder settings) (format settings)).

(** C3: a failure raised by the [try] body of a page (render, crop or
    encode) is caught in that iteration: only [pages_failed] moves, by
    one, and the iteration returns normally; the loop over
    [range(n)] never aborts: it returns, leaves one page record per
    index of the range in increasing order, [pages_failed] grows by the
    number of failed pages and every index is counted as converted or
    failed; and [convert_pdf] itself always returns a result. *)
Theorem page_failure_isolated :
  (forall (doc : Document) (cs : Colorspace) (i : nat)
          (r : ConversionResult) (w w1 : World) (e : exn),
      path_exists (fs w) (out_path i) && negb (overwrite settings) = false ->
      page_try_body pdf settings doc cs i (out_path i) r w = (inl e, w1) ->
      exists r',
        page_body pdf settings doc cs i r w
        = (inr r',
           {| fs := fs w1;
              log := log w1 ++ [LogPageFailed (i + 1) (path_name pdf) e] |})
        /\ pages_failed r' = pages_failed r + 1
        /\ pages_converted r' = pages_converted r
        /\ output_files r' = output_files r)
  /\ (forall (doc : Document) (cs : Colorspace) (n : nat)
             (r : ConversionResult) (w : World),
      exists r' w' delta,
        page_loop pdf settings doc cs n r w = (inr r', w')
        /\ log w' = log w ++ delta
        /\ Forall2 (page_record_of pdf settings) (seq 0 n) (page_records delta)
        /\ pages_failed r'
           = pages_failed r
             + length (List.filter is_page_failed (page_records delta))
        /\ pages_converted r' + pages_failed r'
           = pages_converted r + pages_failed r + n)
  /\ (forall w : World,
      exists r w', convert_pdf pdf settings w = (inr r, w')).
Proof.
  split_and!.
  - intros doc cs i r w w1 e Hnew Hraise. exists (incr_pages_failed r).
    by rewrite (page_body_catches _ _ _ _ _ _ _ _ _ Hnew Hraise).
  - intros doc cs n r w. unfold page_loop.
    destruct (for_each_page_body pdf settings doc cs (seq 0 n) r w)
      as (r' & w' & delta & conv & Hloop & Hlog & Hall & _ & _ & Hconv & Hfail
          & Hlen & _).
    exists r', w', delta. rewrite length_seq in Hlen.
    split_and!; try done. lia.
  - intros w. destruct (convert_pdf_outcome pdf settings w)
      as (r & w' & _ & Hrun & _).
    by exists r, w'.
Qed.

End PageFailures.

(** ** The batch *)

Lemma add_results (b : BatchResult) (r : ConversionResult) :
  results (add b r) = results b ++ [r].
Proof. unfold add. by destruct (status r). Qed.

Lemma add_invariant (b : BatchResult) (r : ConversionResult) :
  batch_invariant b -> batch_invariant (add b r).
Proof.
  unfold batch_invariant. intros [Hsum Hlen].
  rewrite add_results, length_app. simpl.
  unfold add. destruct (status r); simpl; lia.
Qed.

Lemma fold_add_results (rs : list ConversionResult) (b : BatchResult) :
  results (fold_left add rs b) = results b ++ rs.
Proof.
  revert b. induction rs as [|r rs IH]; intros b; simpl.
  - by rewrite app_nil_r.
  - by rewrite IH, add_results, <- app_assoc.
Qed.

Lemma fold_add_invariant (rs : list ConversionResult) (b : BatchResult) :
  batch_invariant b -> batch_invariant (fold_left add rs b).
Proof.
  revert b. induction rs as [|r rs IH]; intros b Hb; simpl; [done|].
  by apply IH, add_invariant.
Qed.

(** C9: the empty BatchResult satisfies the invariant
    [total_files = success + partial + failed + skipped = len(results)],
    [add] preserves it for a result of any status, and so it holds of
    every BatchResult built from the empty one by a sequence of [add]. *)
Theorem batch_result_invariant :
  batch_invariant empty_batch
  /\ (forall (b : BatchResult) (r : ConversionResult),
        batch_invariant b -> batch_invariant (add b r))
  /\ (forall rs : list ConversionResult,
        batch_invariant (fold_left add rs empty_batch)
        /\ results (fold_left add rs empty_batch) = rs).
Proof.
  split_and!.
  - by split.
  - apply add_invariant.
  - intros rs. split; [by apply fold_add_invariant | apply fold_add_results].
Qed.

Global Instance path_le_total : Total path_le.
Proof.
  intros p. unfold path_le.
  induction p as [|a p IH]; intros [|b q]; simpl; auto.
  rewrite (String.compare_antisym b a).
  destruct (String.compare a b); simpl; auto.
Qed.

(** [sorted] orders the paths and keeps them all. *)
Lemma sorted_spec (l : list Path) : Sorted path_le (sorted l) /\ sorted l ≡ₚ l.
Proof. split; [apply Sorted_merge_sort, _ | apply merge_sort_Permutation]. Qed.

Lemma mkdir_rev_existing (rp : list string) (files : gmap Path Kind) :
  kind_of files (rev rp) = Some Dir -> mkdir_rev rp files = inr files.
Proof. intros H. destruct rp; simpl in *; [done | by rewrite H]. Qed.

Section Batch.
Context {R : Renderer}.
Context (settings : Settings).

(** The batch loop returns; the results it adds are those of a prefix
    of the documents, in order. With fail-fast a failed result can only
    be the last one, and the loop stops short of the list only after a
    failed result; without it every document is processed. *)
Lemma batch_loop_outcome (pdf_files : list Path) (b : BatchResult) (w : World) :
  exists rs w',
    batch_loop settings pdf_files b w = (inr (fold_left add rs b), w')
    /\ map pdf_path rs = take (length rs) pdf_files
    /\ length rs <= length pdf_files
    /\ (fail_fast settings = true ->
        forall i r, rs !! i = Some r -> status r = failed ->
                    S i = length rs)
    /\ (length rs < length pdf_files ->
        fail_fast settings = true
        /\ exists r, last rs = Some r /\ status r = failed).
Proof.
  revert b w. induction pdf_files as [|f rest IH]; intros b w.
  - exists [], w. simpl. split_and!; try done; try lia.
  - destruct (convert_pdf_outcome f settings w)
      as (r & w1 & conv & Hrun & Hp & _).
    simpl. unfold bind at 1. rewrite Hrun.
    destruct (fail_fast settings && bool_decide (status r = failed)) eqn:Hstop.
    + apply andb_true_iff in Hstop as [Hff Hfailed].
      apply bool_decide_eq_true in Hfailed.
      eexists [r], _. simpl. rewrite Hp.
      split_and!; try done; try lia.
      * intros _ [|i] r'; simpl; [done|]. by rewrite lookup_nil.
      * intros _. split; [done|]. by exists r.
    + destruct (IH (add b r) w1)
        as (rs & w' & Hrest & Hmap & Hlen & Hlast & Hshort).
      exists (r :: rs), w'. simpl. rewrite Hp, Hmap.
      split_and!; try done; try lia.
      * intros Hff [|i] r' Hr' Hfailed; simpl in Hr'.
        -- injection Hr' as <-. rewrite Hff in Hstop. simpl in Hstop.
           by apply bool_decide_eq_false in Hstop.
        -- f_equal. by eapply Hlast.
      * intros Hlt. destruct Hshort as [Hff (r' & Hr' & Hfailed)]; [lia|].
        split; [done|]. exists r'. split; [|done].
        destruct rs; [done|]. by rewrite last_cons, Hr'.
Qed.

(** After a failed document the rest of the list is not looked at. *)
Lemma batch_loop_stops (pdf_files rest : list Path) (b b' : BatchResult)
    (w w' : World) (r : ConversionResult) :
  fail_fast settings = true ->
  pdf_files <> [] ->
  batch_loop settings pdf_files b w = (inr b', w') ->
  last (results b') = Some r -> status r = failed ->
  batch_loop settings (pdf_files ++ rest) b w = (inr b', w').
Proof.
  intros Hff. revert b w. induction pdf_files as [|f files IH]; [done|].
  intros b w _ Hrun Hlast Hfailed. simpl in *.
  unfold bind at 1. unfold bind at 1 in Hrun.
  destruct (convert_pdf_outcome f settings w) as (r1 & w1 & ? & Hr1 & _).
  rewrite Hr1 in *. rewrite Hff in *. simpl in *.
  destruct (bool_decide (status r1 = failed)) eqn:Hstop; [done|].
  apply bool_decide_eq_false in Hstop.
  destruct files as [|f2 files].
  - simpl in Hrun. unfold ret in Hrun. injection Hrun as <- <-.
    rewrite add_results, last_snoc in Hlast. by injection Hlast as ->.
  - by apply IH.
Qed.

(** C4: with fail-fast enabled the batch loop returns the results of a
    prefix of the sorted documents, added to those it started with; a
    failed result is always the last one, and the loop stops short of
    the list only after a failed result; a result of any other status
    lets the loop go on; whatever follows a failed document does not
    change the outcome. For [A(success), B(failed), C(success)] the
    BatchResult holds exactly the results of A and B and the run ends
    in the world B left, C untouched. The list [convert_batch] hands to
    the loop is the scan of the input directory in sorted order. *)
Theorem fail_fast_stops_after_failed :
  fail_fast settings = true ->
  (forall (pdf_files : list Path) (b : BatchResult) (w : World),
      exists rs w',
        batch_loop settings pdf_files b w = (inr (fold_left add rs b), w')
        /\ results (fold_left add rs b) = results b ++ rs
        /\ map pdf_path rs = take (length rs) pdf_files
        /\ (forall i r, rs !! i = Some r -> status r = failed ->
                        S i = length rs)
        /\ (length rs < length pdf_files ->
            exists r, last rs = Some r /\ status r = failed))
  /\ (forall (f : Path) (rest : list Path) (b : BatchResult) (w w1 : World)
             (r : ConversionResult),
        convert_pdf f settings w = (inr r, w1) -> status r <> failed ->
        batch_loop settings (f :: rest) b w
        = batch_loop settings rest (add b r) w1)
  /\ (forall (pdf_files rest : list Path) (b b' : BatchResult) (w w' : World)
             (r : ConversionResult),
        pdf_files <> [] ->
        batch_loop settings pdf_files b w = (inr b', w') ->
        last (results b') = Some r -> status r = failed ->
        batch_loop settings (pdf_files ++ rest) b w = (inr b', w'))
  /\ (forall (A B C : Path) (w w1 w2 : World) (rA rB : ConversionResult),
        convert_pdf A settings w = (inr rA, w1) -> status rA = success ->
        convert_pdf B settings w1 = (inr rB, w2) -> status rB = failed ->
        exists b',
          batch_loop settings [A; B; C] empty_batch w
          = (inr b', {| fs := fs w2; log := log w2 ++ [LogFailFastStopping] |})
          /\ results b' = [rA; rB]
          /\ total_files b' = 2 /\ success_count b' = 1
          /\ failed_count b' = 1)
  /\ (forall (w : World) (files' : gmap Path Kind),
        path_exists (fs w) (input_folder settings) = true ->
        mkdir_parents_exist_ok (output_folder settings) (fs w) = inr files' ->
        let pdf_files := sorted (glob_pdf files' (input_folder settings)) in
        pdf_files <> [] ->
        Sorted path_le pdf_files
        /\ pdf_files ≡ₚ glob_pdf files' (input_folder settings)
        /\ convert_batch settings w
           = batch_loop settings pdf_files empty_batch
               {| fs := files';
                  log := log w ++ [LogFound (length pdf_files)] |}).
Proof.
  intros Hff. split_and!.
  - intros pdf_files b w.
    destruct (batch_loop_outcome pdf_files b w)
      as (rs & w' & Hrun & Hmap & _ & Hlast & Hshort).
    exists rs, w'. split_and!; try done.
    + apply fold_add_results.
    + by apply Hlast.
    + intros Hlt. by destruct (Hshort Hlt).
  - intros f rest b w w1 r Hrun Hstatus. simpl. unfold bind at 1.
    rewrite Hrun, Hff. simpl.
    by rewrite bool_decide_eq_false_2.
  - intros pdf_files rest b b' w w' r. by apply batch_loop_stops.
  - intros A B C w w1 w2 rA rB HA HsA HB HsB. simpl.
    unfold bind at 1. rewrite HA, Hff, HsA. simpl.
    unfold bind at 1. rewrite HB, HsB. simpl.
    eexists. split; [reflexivity|].
    rewrite !add_results. unfold add. by rewrite HsA, HsB.
  - intros w files' Hexists Hmkdir pdf_files Hfiles.
    destruct (sorted_spec (glob_pdf files' (input_folder settings))).
    split_and!; try done.
    unfold convert_batch, bind, get_fs, call_fs. rewrite Hexists. simpl.
    rewrite Hmkdir. simpl. fold pdf_files. by destruct pdf_files.
Qed.

(** C8 (amended): when the input directory is missing [convert_batch]
    returns the empty BatchResult, all counters zero and no result,
    without touching the file system; when it exists, the output
    directory is created first, and if that succeeds and the scan then
    finds no PDF the empty BatchResult is returned as well; creating
    an output directory that is already there succeeds and changes
    nothing. *)
Theorem convert_batch_empty_cases (w : World) :
  (path_exists (fs w) (input_folder settings) = false ->
   convert_batch settings w
   = (inr empty_batch,
      {| fs := fs w;
         log := log w ++ [LogInputFolderNotFound (input_folder settings)] |}))
  /\ (forall files' : gmap Path Kind,
        path_exists (fs w) (input_folder settings) = true ->
        mkdir_parents_exist_ok (output_folder settings) (fs w) = inr files' ->
        glob_pdf files' (input_folder settings) = [] ->
        convert_batch settings w
        = (inr empty_batch,
           {| fs := files';
              log := log w ++ [LogNoPdfFound (input_folder settings)] |}))
  /\ (kind_of (fs w) (output_folder settings) = Some Dir ->
      mkdir_parents_exist_ok (output_folder settings) (fs w) = inr (fs w))
  /\ total_files empty_batch = 0 /\ success_count empty_batch = 0
  /\ partial_count empty_batch = 0 /\ failed_count empty_batch = 0
  /\ skipped_count empty_batch = 0 /\ results empty_batch = [].
Proof.
  split_and!; try done.
  - intros Hmissing. unfold convert_batch, bind, get_fs. by rewrite Hmissing.
  - intros files' Hexists Hmkdir Hglob.
    unfold convert_batch, bind, get_fs, call_fs. rewrite Hexists. simpl.
    rewrite Hmkdir. simpl. by rewrite Hglob.
  - intros Hdir. apply mkdir_rev_existing. by rewrite rev_involutive.
Qed.

(** What the amended C8 leaves out: an error of [mkdir] is not caught. *)
Lemma convert_batch_mkdir_raises (w : World) (e : exn) :
  path_exists (fs w) (input_folder settings) = true ->
  mkdir_parents_exist_ok (output_folder settings) (fs w) = inl e ->
  convert_batch settings w = (inl e, {| fs := fs w; log := log w |}).
Proof.
  intros Hexists Hmkdir.
  unfold convert_batch, bind, get_fs, call_fs. rewrite Hexists. simpl.
  by rewrite Hmkdir.
Qed.

End Batch.

(** ** The properties at work on the test double *)

Lemma should_skip_pdf_spec_witness :
  exists w',
    should_skip_pdf ["input"; "a.pdf"] sample_settings resumed_world
    = (inr true, w').
Proof.
  destruct (should_skip_pdf_spec ["input"; "a.pdf"] sample_settings
              resumed_world) as (b & w' & Hrun & _ & _ & Hiff).
  exists w'. rewrite Hrun. f_equal. f_equal.
  apply Hiff; [reflexivity | reflexivity | vm_compute; reflexivity].
Defined.


Lemma page_failure_isolated_witness :
  exists r',
    page_body (R := fake_renderer sample_disk)
      ["input"; "d.pdf"] sample_settings mixed_document csRGB 1
      (new_result ["input"; "d.pdf"] success) sample_world
    = (inr r',
       {| fs := sample_fs;
          log := [LogPageFailed 2 "d.pdf"
                    (Exn OtherException "cannot render page")] |})
    /\ pages_failed r' = 1 /\ pages_converted r' = 0.
Proof.
  destruct (page_failure_isolated (R := fake_renderer sample_disk)
              ["input"; "d.pdf"] sample_settings)
    as [Hcatch _].
  destruct (Hcatch mixed_document csRGB 1
              (new_result ["input"; "d.pdf"] success)
              sample_world sample_world
              (Exn OtherException "cannot render page"))
    as (r' & Hrun & Hfailed & Hconv & _);
    [vm_compute; reflexivity | vm_compute; reflexivity |].
  exists r'. split_and!; [exact Hrun | exact Hfailed | exact Hconv].
Defined.

Lemma existing_page_counted_without_render_witness :
  page_body (R := fake_renderer sample_disk)
    ["input"; "a.pdf"] sample_settings mixed_document csRGB 0
    (new_result ["input"; "a.pdf"] success) resumed_world
  = (inr (add_converted ["output"; "a_001.jpg"]
            (new_result ["input"; "a.pdf"] success)),
     {| fs := fs resumed_world;
        log := [LogSkippingExisting "a_001.jpg"] |}).
Proof.
  destruct (existing_page_counted_without_render
              (R := fake_renderer sample_disk)
              ["input"; "a.pdf"] sample_settings mixed_document csRGB 0
              (new_result ["input"; "a.pdf"] success) resumed_world)
    as [Hrun _]; [vm_compute; reflexivity | reflexivity |].
  exact Hrun.
Defined.

Lemma batch_result_invariant_witness :
  batch_invariant (add empty_batch (new_result ["input"; "a.pdf"] partial)).
Proof.
  destruct batch_result_invariant as (Hempty & Hadd & _).
  apply Hadd. exact Hempty.
Defined.

Lemma fail_fast_stops_after_failed_witness :
  sorted (glob_pdf (fs ready_world) ["input"])
  = [["input"; "a.pdf"]; ["input"; "b.pdf"]; ["input"; "c.pdf"]]
  /\ exists b' w',
      convert_batch (R := fake_renderer sample_disk) sample_settings
        ready_world = (inr b', w')
      /\ map pdf_path (results b') = [["input"; "a.pdf"]; ["input"; "b.pdf"]]
      /\ map status (results b') = [success; failed]
      /\ total_files b' = 2.
Proof.
  assert (sorted (glob_pdf (fs ready_world) ["input"])
          = [["input"; "a.pdf"]; ["input"; "b.pdf"]; ["input"; "c.pdf"]])
    as Hscan by (vm_compute; reflexivity).
  split; [exact Hscan|].
  destruct (fail_fast_stops_after_failed (R := fake_renderer sample_disk)
              sample_settings eq_refl) as (_ & _ & _ & Hscenario & Hbatch).
  specialize (Hbatch ready_world (fs ready_world)). cbv zeta in Hbatch.
  change (input_folder sample_settings) with ["input"] in Hbatch.
  rewrite Hscan in Hbatch.
  destruct Hbatch as (_ & _ & ->).
  { vm_compute. reflexivity. }
  { apply mkdir_rev_existing. vm_compute. reflexivity. }
  { discriminate. }
  edestruct (Hscenario ["input"; "a.pdf"] ["input"; "b.pdf"]
               ["input"; "c.pdf"]
               {| fs := fs ready_world; log := [LogFound 3] |})
    as (b' & Hrun & Hres & Htotal & _).
  - vm_compute. reflexivity.
  - reflexivity.
  - vm_compute. reflexivity.
  - reflexivity.
  - exists b'. eexists. split_and!.
    + exact Hrun.
    + rewrite Hres. reflexivity.
    + rewrite Hres. reflexivity.
    + exact Htotal.
Defined.

Lemma convert_batch_empty_cases_witness :
  convert_batch (R := fake_renderer sample_disk) blocked_settings
    no_pdf_world
  = (inr empty_batch,
     {| fs := fs no_pdf_world; log := [LogNoPdfFound ["input"]] |}).
Proof.
  destruct (convert_batch_empty_cases (R := fake_renderer sample_disk)
              blocked_settings no_pdf_world) as (_ & Hscan & Hmkdir & _).
  apply Hscan.
  - vm_compute. reflexivity.
  - apply Hmkdir. vm_compute. reflexivity.
  - vm_compute. reflexivity.
Defined.

(** C8 as stated fails: the input directory exists and holds no PDF,
    a regular file is in the place of the output directory, and the
    error of [mkdir] leaves [convert_batch]. *)
Lemma convert_batch_no_pdf_counterexample :
  ~ (forall (R : Renderer) (settings : Settings) (w : World),
        path_exists (fs w) (input_folder settings) = false
        \/ glob_pdf (fs w) (input_folder settings) = [] ->
        exists w', convert_batch settings w = (inr empty_batch, w')).
Proof.
  intros H.
  destruct (H (fake_renderer sample_disk) blocked_settings blocked_world)
    as [w' Hrun].
  - right. vm_compute. reflexivity.
  - vm_compute in Hrun. discriminate Hrun.
Qed.

(** * More of the converter *)

(** ** The four ways through [convert_pdf] *)

Section Ways.
Context {R : Renderer}.
Context (pdf : Path) (settings : Settings).

Local Abbreviation out_path i :=
  (get_output_path pdf i (output_folder settings) (format settings)).

Local Abbreviation fresh := (new_result pdf success).

Local Abbreviation logged w rec := {| fs := fs w; log := log w ++ [rec] |}.

(** The document is skipped before it is opened, or the open fails, or
    it is encrypted, or its pages are processed. *)
Lemma convert_pdf_cases (w : World) :
  let skip :=
    skip_if_exists settings && negb (overwrite settings)
    && path_exists (fs w) (out_path 0) in
  (skip = true
   /\ convert_pdf pdf settings w
      = (inr (set_status skipped fresh),
         logged w (LogSkippingOutputExists (path_name pdf))))
  \/ (skip = false
      /\ exists e,
        pymupdf_open (fs w) pdf = inl e
        /\ convert_pdf pdf settings w
           = if decide (exn_class_of e = FileDataError)
             then (inr (set_error_message ("Corrupt PDF: " +:+ exn_str e)
                          (set_status failed fresh)),
                   logged w (LogCorruptPDF (path_name pdf) e))
             else (inr (set_error_message (exn_str e)
                          (set_status failed fresh)),
                   logged w (LogFailedToOpen (path_name pdf) e)))
  \/ (skip = false
      /\ exists doc,
        pymupdf_open (fs w) pdf = inr doc /\ is_encrypted doc = true
        /\ convert_pdf pdf settings w
           = (inr (set_error_message "Password protected"
                     (set_status failed fresh)),
              logged w (LogEncryptedPDF (path_name pdf))))
  \/ (skip = false
      /\ exists doc,
        pymupdf_open (fs w) pdf = inr doc /\ is_encrypted doc = false
        /\ convert_pdf pdf settings w
           = convert_open_document pdf settings doc fresh w).
Proof.
  intros skip. subst skip.
  unfold convert_pdf, should_skip_pdf, bind, get_fs, logger, ret.
  destruct (skip_if_exists settings), (overwrite settings); simpl.
  2: destruct (path_exists (fs w) (out_path 0)) eqn:Hex; simpl;
       [by left |].
  all: right.
  all: destruct (pymupdf_open (fs w) pdf) as [e | doc] eqn:Hopen;
         [left; split; [done|]; exists e; split; [done|];
          by destruct (decide (exn_class_of e = FileDataError)) |].
  all: right.
  all: destruct (is_encrypted doc) eqn:Henc;
         [left; split; [done|]; by exists doc
         | right; split; [done|]; by exists doc].
Qed.

Lemma pages_to_process_le (doc : Document) :
  pages_to_process settings doc <= len doc.
Proof. unfold pages_to_process. lia. Qed.

Lemma convert_pdf_skipped (w : World) :
  exists r w',
    convert_pdf pdf settings w = (inr r, w')
    /\ (status r = skipped <->
        skip_if_exists settings = true /\ overwrite settings = false
        /\ path_exists (fs w) (out_path 0) = true)
    /\ (status r = skipped ->
        fs w' = fs w /\ pages_total r = 0 /\ pages_converted r = 0
        /\ pages_failed r = 0 /\ output_files r = []
        /\ error_message r = None).
Proof.
  assert (forall a b c : bool,
             a && negb b && c = true <-> a = true /\ b = false /\ c = true)
    as Hcond by (intros [] [] []; simpl; intuition discriminate).
  destruct (convert_pdf_cases w)
    as [[Hskip ->] | [[Hskip (e & _ & ->)] | [[Hskip (doc & _ & _ & ->)]
        | [Hskip (doc & _ & _ & ->)]]]].
  - eexists _, _. split; [reflexivity|]. simpl. by rewrite <- Hcond.
  - destruct (decide (exn_class_of e = FileDataError));
      (eexists _, _; split; [reflexivity|]; simpl; rewrite <- Hcond, Hskip;
       split; [split|]; done).
  - eexists _, _. split; [reflexivity|]. simpl. rewrite <- Hcond, Hskip.
    split; [split|]; done.
  - destruct (convert_open_document_outcome pdf settings doc w)
      as (r & w' & conv & Hrun & _ & _ & _ & _ & _ & _ & Hs1 & Hs2 & Hs3).
    exists r, w'. split; [done|]. rewrite <- Hcond, Hskip.
    assert (status r <> skipped) as Hne.
    { destruct (decide (pages_failed r = 0)) as [H0 | H0].
      - destruct (Hs1 H0) as [-> _]. done.
      - destruct (decide (pages_converted r = 0)) as [Hc | Hc].
        + destruct (Hs3 H0 Hc) as [-> _]. done.
        + destruct (Hs2 H0) as [-> _]; [lia | done]. }
    split; [split|]; done.
Qed.

(** X1: the result [convert_pdf] returns is skipped exactly when
    skip-if-exists is on, overwrite is off and the output of the first
    page exists; a skipped document has not been opened: all its
    counters are zero, it has no output file and no message, and the
    file system is as before. *)
Theorem convert_pdf_skipped_iff (w w' : World) (r : ConversionResult) :
  convert_pdf pdf settings w = (inr r, w') ->
  (status r = skipped <->
   skip_if_exists settings = true /\ overwrite settings = false
   /\ path_exists (fs w) (out_path 0) = true)
  /\ (status r = skipped ->
      fs w' = fs w /\ pages_total r = 0 /\ pages_converted r = 0
      /\ pages_failed r = 0 /\ output_files r = []
      /\ error_message r = None).
Proof.
  intros Hrun. destruct (convert_pdf_skipped w) as (r0 & w0 & Hrun0 & H).
  rewrite Hrun in Hrun0. by injection Hrun0 as <- <-.
Qed.

Lemma convert_pdf_shape (w : World) :
  exists r w',
    convert_pdf pdf settings w = (inr r, w')
    /\ pdf_path r = pdf
    /\ (status r = failed <-> is_Some (error_message r))
    /\ pages_converted r + pages_failed r <= pages_total r
    /\ length (output_files r) = pages_converted r
    /\ (status r = success -> pages_failed r = 0)
    /\ (status r = partial -> 0 < pages_converted r /\ 0 < pages_failed r)
    /\ (status r = failed \/ status r = skipped ->
        pages_converted r = 0 /\ output_files r = []).
Proof.
  destruct (convert_pdf_cases w)
    as [[_ ->] | [[_ (e & _ & ->)] | [[_ (doc & _ & _ & ->)]
        | [_ (doc & _ & _ & ->)]]]].
  - eexists _, _. split; [reflexivity|]. simpl.
    split_and!; try done; try lia.
  - destruct (decide (exn_class_of e = FileDataError));
      (eexists _, _; split; [reflexivity|]; simpl;
       split_and!; try done; try lia).
  - eexists _, _. split; [reflexivity|]. simpl.
    split_and!; try done; try lia.
  - destruct (convert_open_document_outcome pdf settings doc w)
      as (r & w' & conv & Hrun & Hp & Ht & _ & Hfiles & Hconv & Hsum
          & Hs1 & Hs2 & Hs3).
    exists r, w'. pose proof (pages_to_process_le doc).
    assert (length (output_files r) = pages_converted r) as Hlen
      by (by rewrite Hfiles, length_map).
    destruct (decide (pages_failed r = 0)) as [H0 | H0];
      [destruct (Hs1 H0) as [Hst Hmsg]
      | destruct (decide (pages_converted r = 0)) as [Hc | Hc];
        [destruct (Hs3 H0 Hc) as [Hst Hmsg]
        | destruct (Hs2 H0) as [Hst Hmsg]; [lia|]]];
      rewrite Hst, Hmsg; split_and!; try done; try lia;
      try (split; [done | by intros [? ?]]); try (by split);
      try (intros [?|?]; done).
    intros _. split; [done|]. destruct (output_files r); [done | simpl in *; lia].
Qed.

(** X2: whatever the renderer does, the result of [convert_pdf] is
    well-formed: it names the document; it carries an error message
    exactly when its status is failed; converted and failed pages
    together never exceed [pages_total]; success has no failed page,
    partial has both kinds, and a failed or skipped document has no
    converted page and no output file. *)
Theorem convert_pdf_result_shape (w : World) :
  exists r w',
    convert_pdf pdf settings w = (inr r, w')
    /\ pdf_path r = pdf
    /\ (status r = failed <-> is_Some (error_message r))
    /\ pages_converted r + pages_failed r <= pages_total r
    /\ length (output_files r) = pages_converted r
    /\ (status r = success -> pages_failed r = 0)
    /\ (status r = partial -> 0 < pages_converted r /\ 0 < pages_failed r)
    /\ (status r = failed \/ status r = skipped ->
        pages_converted r = 0 /\ output_files r = []).
Proof. apply convert_pdf_shape. Qed.

(** X3: a document that cannot be read is a failed document and leaves
    no trace on the file system: when the open raises, the message is
    ["Corrupt PDF: "] followed by the error text for a [FileDataError]
    and the bare error text for any other exception; an encrypted
    document gets "Password protected". In both cases [pages_total]
    stays 0 and no page is attempted. *)
Theorem convert_pdf_unreadable (w : World) :
  skip_if_exists settings && negb (overwrite settings)
  && path_exists (fs w) (out_path 0) = false ->
  (forall e : exn,
      pymupdf_open (fs w) pdf = inl e ->
      exists r w',
        convert_pdf pdf settings w = (inr r, w')
        /\ status r = failed
        /\ error_message r
           = Some (if decide (exn_class_of e = FileDataError)
                   then "Corrupt PDF: " +:+ exn_str e else exn_str e)
        /\ pages_total r = 0 /\ pages_failed r = 0 /\ fs w' = fs w
        /\ page_records (drop (length (log w)) (log w')) = [])
  /\ (forall doc : Document,
        pymupdf_open (fs w) pdf = inr doc -> is_encrypted doc = true ->
        exists r w',
          convert_pdf pdf settings w = (inr r, w')
          /\ status r = failed
          /\ error_message r = Some "Password protected"
          /\ pages_total r = 0 /\ pages_failed r = 0 /\ fs w' = fs w
          /\ page_records (drop (length (log w)) (log w')) = []).
Proof.
  intros Hnoskip. split.
  - intros e Hopen.
    destruct (convert_pdf_cases w)
      as [[Hskip _] | [[_ (e' & Hopen' & ->)] | [[_ (doc & Hopen' & _)]
          | [_ (doc & Hopen' & _)]]]]; try congruence.
    assert (e' = e) as -> by congruence.
    destruct (decide (exn_class_of e = FileDataError));
      (eexists _, _; split; [reflexivity|]; simpl;
       rewrite drop_app_length; done).
  - intros doc Hopen Henc.
    destruct (convert_pdf_cases w)
      as [[Hskip _] | [[_ (e' & Hopen' & _)] | [[_ (doc' & Hopen' & _ & ->)]
          | [_ (doc' & Hopen' & Henc' & _)]]]]; try congruence.
    eexists _, _. split; [reflexivity|]. simpl.
    rewrite drop_app_length. done.
Qed.

(** X4: for a document whose pages are processed, [pages_total] is the
    page count of the document while only the first
    [min(page count, max_pages_per_pdf)] pages are attempted when the
    limit is positive (all of them otherwise): converted plus failed
    pages is that number, and the pages beyond the limit are neither. *)
Theorem convert_pdf_page_limit (w : World) (doc : Document) :
  skip_if_exists settings && negb (overwrite settings)
  && path_exists (fs w) (out_path 0) = false ->
  pymupdf_open (fs w) pdf = inr doc ->
  is_encrypted doc = false ->
  exists r w',
    convert_pdf pdf settings w = (inr r, w')
    /\ pages_total r = len doc
    /\ ((max_pages_per_pdf settings <= 0)%Z ->
        pages_converted r + pages_failed r = len doc)
    /\ ((0 < max_pages_per_pdf settings)%Z ->
        pages_converted r + pages_failed r
        = Nat.min (len doc) (Z.to_nat (max_pages_per_pdf settings))
        /\ (Z.of_nat (length (output_files r))
            <= max_pages_per_pdf settings)%Z).
Proof.
  intros Hnoskip Hopen Henc.
  destruct (convert_pdf_cases w)
    as [[Hskip _] | [[_ (e' & Hopen' & _)] | [[_ (doc' & Hopen' & Henc' & _)]
        | [_ (doc' & Hopen' & _ & ->)]]]]; try congruence.
  assert (doc' = doc) as -> by congruence.
  destruct (convert_open_document_outcome pdf settings doc w)
    as (r & w' & conv & Hrun & _ & Ht & _ & Hfiles & Hconv & Hsum & _).
  exists r, w'. unfold pages_to_process in Hsum.
  assert (length (output_files r) = pages_converted r) as Hlen
    by (by rewrite Hfiles, length_map).
  split_and!; try done.
  - intros Hmax. destruct (Z.ltb_spec 0 (max_pages_per_pdf settings)); lia.
  - intros Hmax. destruct (Z.ltb_spec 0 (max_pages_per_pdf settings)); lia.
Qed.

End Ways.

(** ** Files on disk *)

Lemma path_exists_insert (files : gmap Path Kind) (k : Kind) (path p : Path) :
  (path_exists files p = true -> path_exists (<[path := k]> files) p = true)
  /\ path_exists (<[path := k]> files) path = true.
Proof.
  unfold path_exists. split.
  - intros H. apply bool_decide_eq_true in H. apply bool_decide_eq_true.
    destruct p as [|c p]; [done|]. simpl in *.
    destruct (decide (path = c :: p)) as [-> | Hne].
    + by rewrite lookup_insert_eq.
    + by rewrite lookup_insert_ne.
  - apply bool_decide_eq_true. destruct path as [|c path]; [done|]. simpl.
    by rewrite lookup_insert_eq.
Qed.

Lemma fake_renderer_saves_write_files (disk : Path -> exn + FakeDocument) :
  saves_write_files (fake_renderer disk).
Proof.
  split; simpl.
  - intros pix path quality files oe files' [= <- <-].
    split; [intros p | intros _]; by apply path_exists_insert.
  - intros [] path fmt quality files oe files' [= <- <-].
    + split; [done | done].
    + split; [intros p | intros _]; by apply path_exists_insert.
Qed.

Lemma sublist_same_length {A} (l1 l2 : list A) :
  sublist l1 l2 -> length l1 = length l2 -> l1 = l2.
Proof.
  induction 1 as [|x l1 l2 Hsub IH|x l1 l2 Hsub IH]; simpl; intros Hlen.
  - done.
  - f_equal. apply IH. lia.
  - apply sublist_length in Hsub. lia.
Qed.

Section Files.
Context {R : Renderer}.
Context (pdf : Path) (settings : Settings).

Local Abbreviation out_path i :=
  (get_output_path pdf i (output_folder settings) (format settings)).

Local Abbreviation kept w w' :=
  (forall p, path_exists (fs w) p = true -> path_exists (fs w') p = true).

(** Pages whose output is there are passed over one after the other. *)
Lemma for_each_existing (doc : Document) (cs : Colorspace)
    (idxs : list nat) (r : ConversionResult) (w : World) :
  overwrite settings = false ->
  Forall (fun i => path_exists (fs w) (out_path i) = true) idxs ->
  exists r',
    for_each (page_body pdf settings doc cs) idxs r w
    = (inr r',
       {| fs := fs w;
          log := log w
                 ++ map (fun i => LogSkippingExisting (path_name (out_path i)))
                      idxs |})
    /\ output_files r' = output_files r ++ map (fun i => out_path i) idxs
    /\ pages_converted r' = pages_converted r + length idxs
    /\ pages_failed r' = pages_failed r
    /\ pages_total r' = pages_total r
    /\ error_message r' = error_message r.
Proof.
  intros Hov. revert r w.
  induction idxs as [|i idxs IH]; intros r w Hall.
  - exists r. simpl. rewrite !app_nil_r. split_and!; try done; try lia.
    by destruct w.
  - apply Forall_cons in Hall as [Hi Hall]. simpl. unfold bind at 1.
    rewrite (page_body_existing pdf settings doc cs i r w Hi Hov).
    destruct (IH (add_converted (out_path i) r)
                {| fs := fs w;
                   log := log w
                     ++ [LogSkippingExisting (path_name (out_path i))] |})
      as (r' & Hrun & Hfiles & Hconv & Hfail & Ht & He); [done|].
    exists r'. rewrite Hrun. simpl in *. rewrite <- !app_assoc in *.
    split_and!; try done; lia.
Qed.

Section WithSaves.
Hypothesis Hsaves : saves_write_files R.

Lemma page_try_body_files (doc : Document) (cs : Colorspace) (i : nat)
    (output_path : Path) (r : ConversionResult) (w w1 : World)
    (res : exn + ConversionResult) :
  page_try_body pdf settings doc cs i output_path r w = (res, w1) ->
  kept w w1
  /\ (forall r1, res = inr r1 ->
        r1 = add_converted output_path r
        /\ path_exists (fs w1) output_path = true).
Proof.
  destruct Hsaves as [Hpix Himg].
  unfold page_try_body, bind, call, call_fs, logger, ret, raise.
  intros Hrun.
  repeat (case_match; simplify_eq/=);
    repeat match goal with
      | H : pix_save _ _ _ _ = _ |- _ => apply Hpix in H as [? ?]
      | H : Image_save _ _ _ _ _ = _ |- _ => apply Himg in H as [? ?]
      end;
    split; try done; intros r1 [= <-]; split; auto.
Qed.

Lemma page_body_files (doc : Document) (cs : Colorspace) (i : nat)
    (r r' : ConversionResult) (w w' : World) :
  page_body pdf settings doc cs i r w = (inr r', w') ->
  kept w w'
  /\ (r' = incr_pages_failed r
      \/ r' = add_converted (out_path i) r
         /\ path_exists (fs w') (out_path i) = true).
Proof.
  unfold page_body, bind, get_fs.
  destruct (path_exists (fs w) (out_path i) && negb (overwrite settings))
    eqn:Hnew.
  - unfold logger, ret. intros [= <- <-]. simpl.
    apply andb_true_iff in Hnew as [Hex _]. split; [done|]. by right.
  - unfold try_except.
    destruct (page_try_body pdf settings doc cs i (out_path i) r w)
      as [[e | r1] w1] eqn:Htry;
      destruct (page_try_body_files _ _ _ _ _ _ _ _ Htry) as [Hkept Hok].
    + unfold bind, logger, ret. intros [= <- <-]. simpl. split; [done|].
      by left.
    + intros [= <- <-]. destruct (Hok r1 eq_refl) as [-> Hex].
      split; [done|]. by right.
Qed.

Lemma for_each_files (doc : Document) (cs : Colorspace) (idxs : list nat)
    (r r' : ConversionResult) (w w' : World) :
  for_each (page_body pdf settings doc cs) idxs r w = (inr r', w') ->
  Forall (fun p => path_exists (fs w) p = true) (output_files r) ->
  kept w w'
  /\ Forall (fun p => path_exists (fs w') p = true) (output_files r').
Proof.
  revert r w. induction idxs as [|i idxs IH]; intros r w; simpl.
  - unfold ret. by intros [= <- <-] Hall.
  - unfold bind at 1.
    destruct (page_body pdf settings doc cs i r w) as [[e | r1] w1] eqn:Hstep;
      [done|].
    intros Hrest Hall.
    destruct (page_body_files _ _ _ _ _ _ _ Hstep) as [Hkept Hcase].
    assert (Forall (fun p => path_exists (fs w1) p = true) (output_files r1))
      as Hall1.
    { destruct Hcase as [-> | [-> Hex]]; simpl.
      - eapply Forall_impl; [exact Hall | auto].
      - apply Forall_app. split; [|by constructor].
        eapply Forall_impl; [exact Hall | auto]. }
    destruct (IH _ _ Hrest Hall1) as [Hkept' Hall'].
    split; [auto | done].
Qed.

Lemma convert_pdf_files (w w' : World) (r : ConversionResult) :
  convert_pdf pdf settings w = (inr r, w') ->
  Forall (fun p => path_exists (fs w') p = true) (output_files r)
  /\ kept w w'.
Proof.
  destruct (convert_pdf_cases pdf settings w)
    as [[_ ->] | [[_ (e & _ & ->)] | [[_ (doc & _ & _ & ->)]
        | [_ (doc & _ & _ & ->)]]]].
  - by intros [= <- <-].
  - by destruct (decide (exn_class_of e = FileDataError)); intros [= <- <-].
  - by intros [= <- <-].
  - unfold convert_open_document, page_loop, bind.
    destruct (for_each _ _ _ w) as [[e | r1] w1] eqn:Hloop; [done|].
    apply for_each_files in Hloop as [Hkept Hall]; [|by constructor].
    destruct (determine_final_status_outcome pdf r1 w1)
      as (r2 & w2 & -> & Hfs & _ & _ & _ & _ & Ho & _).
    intros [= <- <-]. rewrite Ho, Hfs. done.
Qed.

(** X6: with a renderer whose saves write their file and remove none,
    every path listed in [output_files] exists when [convert_pdf]
    returns, and nothing that existed before has gone. *)
Theorem convert_pdf_outputs_exist (w w' : World) (r : ConversionResult) :
  convert_pdf pdf settings w = (inr r, w') ->
  Forall (fun p => path_exists (fs w') p = true) (output_files r)
  /\ (forall p, path_exists (fs w) p = true -> path_exists (fs w') p = true).
Proof. apply convert_pdf_files. Qed.

(** X7: with such a renderer, skip-if-exists on and overwrite off, a
    document whose first page was converted is skipped by the next run:
    the result is skipped with no page counted, and the file system is
    not touched, even if other pages had failed. A success with at
    least one page is such a document. *)
Theorem convert_pdf_rerun_skipped (w w' : World) (r : ConversionResult) :
  skip_if_exists settings = true ->
  overwrite settings = false ->
  convert_pdf pdf settings w = (inr r, w') ->
  (out_path 0 ∈ output_files r ->
   exists r2 w2,
     convert_pdf pdf settings w' = (inr r2, w2)
     /\ status r2 = skipped /\ pages_converted r2 = 0
     /\ pages_failed r2 = 0 /\ fs w2 = fs w')
  /\ (status r = success -> 0 < pages_converted r ->
      out_path 0 ∈ output_files r).
Proof.
  intros Hskip Hov Hrun. split.
  - intros Hin. destruct (convert_pdf_files _ _ _ Hrun) as [Hall _].
    rewrite Forall_forall in Hall. specialize (Hall _ Hin).
    destruct (convert_pdf_cases pdf settings w')
      as [[_ ->] | [[Hno _] | [[Hno _] | [Hno _]]]];
      try (rewrite Hskip, Hov, Hall in Hno; done).
    by eexists _, _.
  - intros Hsuccess Hpos.
    destruct (convert_pdf_cases pdf settings w)
      as [[_ Hc] | [[_ (e & _ & Hc)] | [[_ (doc & _ & _ & Hc)]
          | [_ (doc & _ & _ & Hc)]]]]; rewrite Hc in Hrun.
    + injection Hrun as <- <-. simpl in Hpos. lia.
    + destruct (decide (exn_class_of e = FileDataError));
        injection Hrun as <- <-; simpl in Hpos; lia.
    + injection Hrun as <- <-. simpl in Hpos. lia.
    + destruct (convert_open_document_outcome pdf settings doc w)
        as (r0 & w0 & conv & Hrun0 & _ & _ & Hsub & Hfiles & Hconv & Hsum
            & _ & Hs2 & Hs3).
      rewrite Hrun0 in Hrun. injection Hrun as <- <-.
      assert (pages_failed r0 = 0) as Hf.
      { destruct (decide (pages_failed r0 = 0)) as [|Hne]; [done|].
        destruct (Hs2 Hne Hpos) as [Hst _]. congruence. }
      assert (conv = seq 0 (pages_to_process settings doc)) as Hall.
      { apply sublist_same_length; [done|]. rewrite length_seq. lia. }
      rewrite Hfiles, Hall.
      destruct (pages_to_process settings doc) as [|n]; [lia|].
      simpl. by left.
Qed.

End WithSaves.

(** X5: with overwrite and skip-if-exists both off, a document all of
    whose processed pages already have their output is a success
    without a single render: every processed page is counted as
    converted, none as failed, and the file system is unchanged,
    whatever the renderer would have done with the pages. *)
Theorem convert_pdf_all_pages_existing (w : World) (doc : Document) :
  skip_if_exists settings = false ->
  overwrite settings = false ->
  pymupdf_open (fs w) pdf = inr doc ->
  is_encrypted doc = false ->
  (forall i, i < pages_to_process settings doc ->
             path_exists (fs w) (out_path i) = true) ->
  exists r w',
    convert_pdf pdf settings w = (inr r, w')
    /\ status r = success
    /\ pages_converted r = pages_to_process settings doc
    /\ pages_failed r = 0
    /\ output_files r
       = map (fun i => out_path i) (seq 0 (pages_to_process settings doc))
    /\ fs w' = fs w
    /\ page_records (drop (length (log w)) (log w'))
       = map (fun i => LogSkippingExisting (path_name (out_path i)))
           (seq 0 (pages_to_process settings doc)).
Proof.
  intros Hskip Hov Hopen Henc Hall.
  destruct (convert_pdf_cases pdf settings w)
    as [[Hs _] | [[_ (e' & Hopen' & _)] | [[_ (doc' & Hopen' & Henc' & _)]
        | [_ (doc' & Hopen' & _ & ->)]]]]; try congruence.
  { by rewrite Hskip in Hs. }
  assert (doc' = doc) as -> by congruence.
  unfold convert_open_document, page_loop.
  set (cs := if String.eqb (colorspace settings) "gray" then csGRAY else csRGB).
  destruct (for_each_existing doc cs (seq 0 (pages_to_process settings doc))
              (set_pages_total (len doc) (new_result pdf success)) w Hov)
    as (r1 & Hloop & Hfiles & Hconv & Hfail & _).
  { apply Forall_forall. intros i Hi. apply elem_of_seq in Hi.
    apply Hall. lia. }
  unfold bind. rewrite Hloop.
  unfold determine_final_status, bind, logger, ret.
  simpl in Hfail. rewrite Hfail. simpl.
  eexists _, _. split; [reflexivity|]. simpl.
  rewrite Hfiles, Hconv, length_seq. simpl.
  split_and!; try done.
  rewrite <- app_assoc, drop_app_length, page_records_app. simpl.
  rewrite app_nil_r. unfold page_records.
  generalize (seq 0 (pages_to_process settings doc)).
  clear. intros l. induction l as [|i l IH]; simpl; [done | by f_equal].
Qed.

End Files.

(** ** The batch as a whole *)

Lemma add_counts (b : BatchResult) (r : ConversionResult) (st : Status) :
  let field st b :=
    match st with
    | success => success_count b
    | partial => partial_count b
    | failed => failed_count b
    | skipped => skipped_count b
    end in
  field st (add b r)
  = field st b + (if bool_decide (status r = st) then 1 else 0).
Proof.
  unfold add. destruct st, (status r); simpl; lia.
Qed.

Lemma fold_add_counts (rs : list ConversionResult) (b : BatchResult) :
  success_count (fold_left add rs b)
  = success_count b + count_status success rs
  /\ partial_count (fold_left add rs b)
     = partial_count b + count_status partial rs
  /\ failed_count (fold_left add rs b)
     = failed_count b + count_status failed rs
  /\ skipped_count (fold_left add rs b)
     = skipped_count b + count_status skipped rs
  /\ total_files (fold_left add rs b) = total_files b + length rs.
Proof.
  revert b. induction rs as [|r rs IH]; intros b; simpl.
  - unfold count_status. simpl. lia.
  - destruct (IH (add b r)) as (H1 & H2 & H3 & H4 & H5).
    rewrite H1, H2, H3, H4, H5.
    pose proof (add_counts b r success) as A1.
    pose proof (add_counts b r partial) as A2.
    pose proof (add_counts b r failed) as A3.
    pose proof (add_counts b r skipped) as A4.
    simpl in A1, A2, A3, A4. rewrite A1, A2, A3, A4.
    assert (total_files (add b r) = total_files b + 1) as ->
      by (unfold add; by destruct (status r)).
    unfold count_status. simpl.
    repeat case_bool_decide; simpl; lia.
Qed.

Lemma mkdir_rev_clear (rp : list string) (files : gmap Path Kind) :
  (forall k, kind_of files (rev (drop k rp)) <> Some File) ->
  exists files',
    mkdir_rev rp files = inr files'
    /\ kind_of files' (rev rp) = Some Dir
    /\ (forall q k, kind_of files q = Some k -> kind_of files' q = Some k).
Proof.
  induction rp as [|c rparent IH]; intros Hclear.
  - exists files. by simpl.
  - pose proof (Hclear 0) as Hself. rewrite drop_0 in Hself.
    assert (rev (c :: rparent) <> []) as Hne.
    { simpl. by destruct (rev rparent). }
    assert (forall m, kind_of m (rev (c :: rparent)) = m !! rev (c :: rparent))
      as Hkind.
    { intros m. unfold kind_of. by destruct (rev (c :: rparent)). }
    cbn [mkdir_rev].
    destruct (kind_of files (rev (c :: rparent))) as [[]|] eqn:Hk; [done | |].
    { exists files. by rewrite Hk. }
    assert (forall m,
               kind_of (<[rev (c :: rparent) := Dir]> m) (rev (c :: rparent))
               = Some Dir
               /\ (forall q k, kind_of files q = Some k ->
                               kind_of m q = Some k ->
                               kind_of (<[rev (c :: rparent) := Dir]> m) q
                               = Some k)) as Hins.
    { intros m. split.
      - by rewrite Hkind, lookup_insert_eq.
      - intros q k Hq Hm. destruct q as [|d q]; [done|].
        unfold kind_of in *. rewrite lookup_insert_ne; [done|].
        intros Heq. rewrite <- Heq, <- Hkind in Hq. congruence. }
    pose proof (Hclear 1) as Hparent. simpl in Hparent. rewrite drop_0 in Hparent.
    destruct (kind_of files (rev rparent)) as [[]|] eqn:Hp; [done | |].
    + eexists. split; [reflexivity|]. destruct (Hins files) as [H1 H2].
      split; [done|]. intros q k Hq. by apply H2.
    + destruct IH as (files' & -> & _ & Hkeep).
      { intros k. apply (Hclear (S k)). }
      eexists. split; [reflexivity|]. destruct (Hins files') as [H1 H2].
      split; [done|]. intros q k Hq. apply H2; [done | by apply Hkeep].
Qed.

Lemma rev_drop_prefix {A} (k : nat) (p : list A) :
  rev (drop k (rev p)) `prefix_of` p.
Proof.
  exists (rev (take k (rev p))).
  rewrite <- rev_app_distr, take_drop. by rewrite rev_involutive.
Qed.

Lemma scan_spec (files : gmap Path Kind) (folder : Path) :
  NoDup (sorted (glob_pdf files folder))
  /\ Sorted path_le (sorted (glob_pdf files folder))
  /\ Forall (fun p => path_parent p = folder
                      /\ matches_pdf (path_name p) = true
                      /\ is_Some (files !! p))
       (sorted (glob_pdf files folder)).
Proof.
  destruct (sorted_spec (glob_pdf files folder)) as [Hsorted Hperm].
  split_and!; [| done |].
  - rewrite Hperm. unfold glob_pdf.
    destruct (kind_of files folder) as [[]|]; try constructor.
    apply NoDup_filter, NoDup_elements.
  - rewrite Hperm. unfold glob_pdf.
    destruct (kind_of files folder) as [[]|]; try constructor.
    apply Forall_forall. intros p Hp.
    apply list_elem_of_filter in Hp as [(_ & Hparent & Hname) Hdom].
    apply elem_of_elements, elem_of_dom in Hdom. done.
Qed.

Section Whole.
Context {R : Renderer}.
Context (settings : Settings).

(** [convert_batch] leaves by one of four doors. *)
Lemma convert_batch_cases (w : World) :
  (path_exists (fs w) (input_folder settings) = false
   /\ convert_batch settings w
      = (inr empty_batch,
         {| fs := fs w;
            log := log w ++ [LogInputFolderNotFound (input_folder settings)] |}))
  \/ (path_exists (fs w) (input_folder settings) = true
      /\ exists e,
        mkdir_parents_exist_ok (output_folder settings) (fs w) = inl e
        /\ convert_batch settings w = (inl e, {| fs := fs w; log := log w |}))
  \/ (path_exists (fs w) (input_folder settings) = true
      /\ exists files',
        mkdir_parents_exist_ok (output_folder settings) (fs w) = inr files'
        /\ sorted (glob_pdf files' (input_folder settings)) = []
        /\ convert_batch settings w
           = (inr empty_batch,
              {| fs := files';
                 log := log w ++ [LogNoPdfFound (input_folder settings)] |}))
  \/ (path_exists (fs w) (input_folder settings) = true
      /\ exists files',
        mkdir_parents_exist_ok (output_folder settings) (fs w) = inr files'
        /\ sorted (glob_pdf files' (input_folder settings)) <> []
        /\ convert_batch settings w
           = batch_loop settings
               (sorted (glob_pdf files' (input_folder settings))) empty_batch
               {| fs := files';
                  log := log w
                    ++ [LogFound
                          (length (sorted (glob_pdf files'
                                             (input_folder settings))))] |}).
Proof.
  unfold convert_batch, bind, get_fs, call_fs, logger, ret.
  destruct (path_exists (fs w) (input_folder settings)) eqn:Hex; simpl;
    [right | by left].
  destruct (mkdir_parents_exist_ok (output_folder settings) (fs w))
    as [e | files'] eqn:Hmk; simpl.
  - left. split; [done|]. by exists e.
  - right.
    destruct (sorted (glob_pdf files' (input_folder settings))) eqn:Hscan.
    + left. split; [done|]. by exists files'.
    + right. split; [done|]. exists files'. by rewrite Hscan.
Qed.

Lemma convert_batch_counts (w w' : World) (b : BatchResult) :
  convert_batch settings w = (inr b, w') ->
  success_count b = count_status success (results b)
  /\ partial_count b = count_status partial (results b)
  /\ failed_count b = count_status failed (results b)
  /\ skipped_count b = count_status skipped (results b)
  /\ total_files b = length (results b).
Proof.
  assert (forall rs, let b := fold_left add rs empty_batch in
            success_count b = count_status success (results b)
            /\ partial_count b = count_status partial (results b)
            /\ failed_count b = count_status failed (results b)
            /\ skipped_count b = count_status skipped (results b)
            /\ total_files b = length (results b)) as Hfold.
  { intros rs. simpl. rewrite fold_add_results. simpl.
    destruct (fold_add_counts rs empty_batch) as (-> & -> & -> & -> & ->).
    done. }
  destruct (convert_batch_cases w)
    as [[_ ->] | [[_ (e & _ & ->)] | [[_ (files' & _ & _ & ->)]
        | [_ (files' & _ & _ & ->)]]]].
  - intros [= <- <-]. apply (Hfold []).
  - done.
  - intros [= <- <-]. apply (Hfold []).
  - destruct (batch_loop_outcome settings
                (sorted (glob_pdf files' (input_folder settings)))
                empty_batch
                {| fs := files';
                   log := log w
                     ++ [LogFound
                           (length (sorted (glob_pdf files'
                                              (input_folder settings))))] |})
      as (rs & w2 & -> & _).
    intros [= <- <-]. apply Hfold.
Qed.

(** X8: the counters of the BatchResult [convert_batch] returns count
    the results it lists: each status counter is the number of results
    of that status and [total_files] is the number of results. *)
Theorem convert_batch_counters (w w' : World) (b : BatchResult) :
  convert_batch settings w = (inr b, w') ->
  success_count b = count_status success (results b)
  /\ partial_count b = count_status partial (results b)
  /\ failed_count b = count_status failed (results b)
  /\ skipped_count b = count_status skipped (results b)
  /\ total_files b = length (results b).
Proof. apply convert_batch_counts. Qed.

(** X9: [convert_batch] processes the scan of the input directory in
    sorted order and nothing else: the documents of its results are a
    prefix of the sorted scan, and the whole of it when fail-fast is
    off; they are direct children of the input directory with a name
    matching [*.pdf], and no document appears twice. *)
Theorem convert_batch_documents (w w' : World) (b : BatchResult)
    (files' : gmap Path Kind) :
  mkdir_parents_exist_ok (output_folder settings) (fs w) = inr files' ->
  convert_batch settings w = (inr b, w') ->
  let scan := sorted (glob_pdf files' (input_folder settings)) in
  map pdf_path (results b) `prefix_of` scan
  /\ (path_exists (fs w) (input_folder settings) = true ->
      fail_fast settings = false -> map pdf_path (results b) = scan)
  /\ NoDup (map pdf_path (results b))
  /\ Forall (fun p => path_parent p = input_folder settings
                      /\ matches_pdf (path_name p) = true)
       (map pdf_path (results b)).
Proof.
  intros Hmk Hrun. cbv zeta.
  destruct (scan_spec files' (input_folder settings))
    as (Hnodup & _ & Hall).
  set (scan := sorted (glob_pdf files' (input_folder settings))) in *.
  assert (map pdf_path (results b) `prefix_of` scan
          /\ (path_exists (fs w) (input_folder settings) = true ->
              fail_fast settings = false -> map pdf_path (results b) = scan))
    as [Hprefix Hfull].
  { destruct (convert_batch_cases w)
      as [[Hex Hc] | [[_ (e & Hmk' & _)] | [[_ (f & Hmk' & Hscan & Hc)]
          | [_ (f & Hmk' & _ & Hc)]]]]; rewrite ?Hc in Hrun.
    - injection Hrun as <- <-. simpl. split; [apply prefix_nil|].
      intros Hex'. congruence.
    - congruence.
    - injection Hrun as <- <-. simpl.
      assert (f = files') as -> by congruence.
      split; [apply prefix_nil|]. intros _ _. by subst scan; rewrite Hscan.
    - assert (f = files') as -> by congruence. fold scan in Hrun.
      destruct (batch_loop_outcome settings scan empty_batch
                  {| fs := files'; log := log w ++ [LogFound (length scan)] |})
        as (rs & w2 & Hloop & Hmap & Hlen & _ & Hshort).
      rewrite Hloop in Hrun. injection Hrun as <- <-.
      rewrite fold_add_results. simpl. rewrite Hmap.
      split; [apply prefix_take|].
      intros _ Hff. destruct (decide (length rs < length scan)) as [Hlt|Hge].
      + destruct (Hshort Hlt) as [Hff' _]. congruence.
      + apply take_ge. lia. }
  split_and!; try done.
  - destruct Hprefix as [rest Hrest]. rewrite Hrest in Hnodup.
    by apply NoDup_app in Hnodup as [? _].
  - destruct Hprefix as [rest Hrest]. rewrite Hrest in Hall.
    apply Forall_app in Hall as [Hall _].
    eapply Forall_impl; [exact Hall|]. by intros p (? & ? & ?).
Qed.

Lemma convert_batch_raises (w : World) :
  (forall e w',
      convert_batch settings w = (inl e, w') ->
      path_exists (fs w) (input_folder settings) = true
      /\ mkdir_parents_exist_ok (output_folder settings) (fs w) = inl e
      /\ fs w' = fs w /\ log w' = log w)
  /\ ((forall q, q `prefix_of` output_folder settings ->
                 kind_of (fs w) q <> Some File) ->
      exists b w', convert_batch settings w = (inr b, w')).
Proof.
  split.
  - intros e w' Hrun.
    destruct (convert_batch_cases w)
      as [[_ Hc] | [[Hex (e' & Hmk & Hc)] | [[_ (f & _ & _ & Hc)]
          | [_ (f & _ & _ & Hc)]]]]; rewrite Hc in Hrun; try done.
    + by injection Hrun as <- <-.
    + destruct (batch_loop_outcome settings
                  (sorted (glob_pdf f (input_folder settings))) empty_batch
                  {| fs := f;
                     log := log w
                       ++ [LogFound
                             (length (sorted (glob_pdf f
                                                (input_folder settings))))] |})
        as (rs & w2 & Hloop & _).
      rewrite Hloop in Hrun. done.
  - intros Hclear.
    destruct (mkdir_rev_clear (rev (output_folder settings)) (fs w))
      as (files' & Hmk & _).
    { intros k. apply Hclear, rev_drop_prefix. }
    destruct (convert_batch_cases w)
      as [[_ Hc] | [[_ (e' & Hmk' & _)] | [[_ (f & _ & _ & Hc)]
          | [_ (f & _ & _ & Hc)]]]]; rewrite ?Hc.
    + by eexists _, _.
    + unfold mkdir_parents_exist_ok in Hmk'. congruence.
    + by eexists _, _.
    + destruct (batch_loop_outcome settings
                  (sorted (glob_pdf f (input_folder settings))) empty_batch
                  {| fs := f;
                     log := log w
                       ++ [LogFound
                             (length (sorted (glob_pdf f
                                                (input_folder settings))))] |})
        as (rs & w2 & Hloop & _).
      rewrite Hloop. by eexists _, _.
Qed.

End Whole.

(** ** Output names across documents *)

Lemma has_char_app (c : ascii) (s t : string) :
  has_char c (s +:+ t) = has_char c s || has_char c t.
Proof.
  induction s as [|d s IH].
  - by rewrite string_app_nil.
  - rewrite string_app_cons. simpl. by rewrite IH, orb_assoc.
Qed.

Lemma zeros_no_underscore (k : nat) : has_char "_" (zeros k) = false.
Proof. induction k; simpl; [done | exact IHk]. Qed.

Lemma string_of_uint_no_underscore (d : Decimal.uint) :
  has_char "_" (NilEmpty.string_of_uint d) = false.
Proof. induction d; simpl; [done | exact IHd ..]. Qed.

Lemma format_03d_no_underscore (n : nat) : has_char "_" (format_03d n) = false.
Proof.
  unfold format_03d, str_of_nat.
  by rewrite has_char_app, zeros_no_underscore, string_of_uint_no_underscore.
Qed.

Lemma string_app_assoc (a b c : string) : (a +:+ b) +:+ c = a +:+ b +:+ c.
Proof.
  induction a as [|x a IH].
  - by rewrite !string_app_nil.
  - rewrite !string_app_cons. by f_equal.
Qed.

(** A string is split in one way only at its last underscore. *)
Lemma split_last_underscore (s1 s2 d1 d2 : string) :
  has_char "_" d1 = false -> has_char "_" d2 = false ->
  s1 +:+ "_" +:+ d1 = s2 +:+ "_" +:+ d2 -> s1 = s2 /\ d1 = d2.
Proof.
  intros H1 H2. revert s2.
  induction s1 as [|c s1 IH]; intros [|c2 s2];
    rewrite ?string_app_nil, ?string_app_cons, ?string_app_nil; intros Heq.
  - by injection Heq as ->.
  - injection Heq as <- Heq. rewrite Heq, !has_char_app in H1.
    simpl in H1. by rewrite orb_true_r in H1.
  - injection Heq as -> Heq. rewrite <- Heq, !has_char_app in H2.
    simpl in H2. by rewrite orb_true_r in H2.
  - injection Heq as -> Heq. destruct (IH _ Heq) as [-> ->]. done.
Qed.

(** X11: two output paths in the same output directory and format are
    equal exactly when the sources have the same stem and the page
    indices are equal; so the pages of two documents [b1.pdf] and
    [b2.pdf] of one folder never share an output file unless they are
    the same page of the same document. *)
Theorem get_output_path_collision
    (p q output_folder : Path) (fmt : string) (i j : nat) :
  (get_output_path p i output_folder fmt
   = get_output_path q j output_folder fmt
   <-> path_stem p = path_stem q /\ i = j)
  /\ (forall (folder : Path) (b1 b2 : string),
        p = folder ++ [b1 +:+ ".pdf"] -> q = folder ++ [b2 +:+ ".pdf"] ->
        b1 <> "" -> b2 <> "" ->
        get_output_path p i output_folder fmt
        = get_output_path q j output_folder fmt ->
        p = q /\ i = j).
Proof.
  assert (get_output_path p i output_folder fmt
          = get_output_path q j output_folder fmt
          <-> path_stem p = path_stem q /\ i = j) as Hiff.
  { split.
    - unfold get_output_path, path_join. intros H.
      apply app_inv_head in H. injection H as H.
      rewrite <- !(string_app_assoc "_" _ ("." +:+ fmt)) in H.
      rewrite <- !(string_app_assoc _ _ ("." +:+ fmt)) in H.
      apply string_app_inv_tail in H.
      apply split_last_underscore in H as [Hstem Hpad];
        try apply format_03d_no_underscore.
      apply format_03d_inj in Hpad. split; [done | lia].
    - intros [Hstem ->]. unfold get_output_path. by rewrite Hstem. }
  split; [exact Hiff|].
  intros folder b1 b2 -> -> Hb1 Hb2 Heq.
  apply Hiff in Heq as [Hstem ->].
  rewrite !(path_stem_extension folder _ "pdf") in Hstem by done.
  by subst.
Qed.

(** ** Validation and loading of the settings *)

Lemma CropSettings_post_init_valid (c : CropSettings) :
  CropSettings_post_init c = None <-> crop_settings_valid c = true.
Proof.
  unfold CropSettings_post_init, crop_settings_valid. simpl.
  repeat (match goal with
          | |- context [Qle_bool ?a ?b] => destruct (Qle_bool a b)
          end; simpl; try done).
Qed.

(** X12: [CropSettings.__post_init__] accepts a crop exactly when
    [0 <= start < end <= 100] on both axes, whether or not the crop is
    enabled; so a disabled crop with unusable bounds is rejected too. *)
Theorem CropSettings_post_init_accepts (c : CropSettings) :
  (CropSettings_post_init c = None <->
   (0 <= horizontal_start c /\ horizontal_start c < horizontal_end c
    /\ horizontal_end c <= 100
    /\ 0 <= vertical_start c /\ vertical_start c < vertical_end c
    /\ vertical_end c <= 100)%Q)
  /\ (forall b : bool,
        CropSettings_post_init (set_enabled b c) = CropSettings_post_init c).
Proof.
  split; [|done].
  rewrite CropSettings_post_init_valid. split.
  - apply crop_settings_valid_spec.
  - intros (H1 & H2 & H3 & H4 & H5 & H6).
    assert (forall a b : Q, (a < b)%Q -> Qle_bool b a = false) as Hlt.
    { intros a b Hab. destruct (Qle_bool b a) eqn:E; [|done].
      apply Qle_bool_iff in E. by apply Qlt_not_le in Hab. }
    assert (forall a b : Q, (a <= b)%Q -> Qle_bool a b = true) as Hle
      by (intros a b; apply Qle_bool_iff).
    unfold crop_settings_valid. simpl.
    rewrite (Hlt _ _ H2), (Hlt _ _ H5), !Hle; try done.
    + apply Qle_trans with (vertical_start c); [done | by apply Qlt_le_weak].
    + apply Qle_trans with (vertical_end c); [by apply Qlt_le_weak | done].
    + apply Qle_trans with (horizontal_start c); [done | by apply Qlt_le_weak].
    + apply Qle_trans with (horizontal_end c); [by apply Qlt_le_weak | done].
Qed.

(** X13: from a well-typed settings object, [load_settings] builds the
    settings exactly when the crop bounds pass their validation and
    [jpg_quality] (90 when absent) lies in 1..100; every field is then
    the value of its key or its default, and a dpi outside 72..1200 only
    leaves a warning. The crop is validated first: its error is the one
    raised even when the quality is out of range as well. *)
Theorem settings_of_raw_accepts (data : RawSettings) :
  let c := crop_of_raw data in
  let quality := default 90%Z (raw_jpg_quality data) in
  let d := default 300%Z (raw_dpi data) in
  ((exists records s, settings_of_raw data = (records, inr s))
   <-> CropSettings_post_init c = None /\ (1 <= quality <= 100)%Z)
  /\ (forall records s,
        settings_of_raw data = (records, inr s) ->
        s = fields_of_raw data c
        /\ records
           = if decide (72 <= d <= 1200)%Z then [] else [CfgUnusualDpi d])
  /\ (forall e,
        CropSettings_post_init c = Some e ->
        settings_of_raw data = ([], inl e)).
Proof.
  intros c quality d. unfold settings_of_raw, Settings_post_init.
  fold c. simpl. fold quality d.
  destruct (CropSettings_post_init c) as [e|] eqn:Hcrop.
  - split_and!.
    + split; [by intros (? & ? & ?) | by intros [? _]].
    + done.
    + by intros ? [= ->].
  - assert (negb ((1 <=? quality)%Z && (quality <=? 100)%Z) = false
            <-> (1 <= quality <= 100)%Z) as Hq.
    { rewrite negb_false_iff, andb_true_iff, !Z.leb_le. done. }
    assert ((if negb ((72 <=? d)%Z && (d <=? 1200)%Z)
             then [CfgUnusualDpi d] else [])
            = if decide (72 <= d <= 1200)%Z then [] else [CfgUnusualDpi d])
      as Hd.
    { destruct (decide (72 <= d <= 1200)%Z) as [Hin | Hout].
      - replace ((72 <=? d)%Z && (d <=? 1200)%Z) with true; [done|].
        symmetry. apply andb_true_iff. by rewrite !Z.leb_le.
      - destruct ((72 <=? d)%Z && (d <=? 1200)%Z) eqn:E; [|done].
        apply andb_true_iff in E. rewrite !Z.leb_le in E. done. }
    destruct (negb ((1 <=? quality)%Z && (quality <=? 100)%Z)) eqn:Hbad.
    + split_and!; try done.
      split; [by intros (? & ? & ?) |].
      intros [_ Hin]. apply Hq in Hin. done.
    + split_and!; try done.
      * split; [intros _; split; [done | by apply Hq] | by eexists _, _].
      * intros records s [= <- <-]. by rewrite Hd.
Qed.

Lemma count_status_pos (st : Status) (rs : list ConversionResult) :
  0 < count_status st rs <-> Exists (fun r => status r = st) rs.
Proof.
  unfold count_status. induction rs as [|r rs IH]; simpl.
  - split; [lia | by intros ?%Exists_nil].
  - rewrite Exists_cons. case_bool_decide as Hst; simpl.
    + split; [by left | lia].
    + rewrite IH. split; [by right | by intros [? | ?]].
Qed.

Section MainProperties.
Context {R : Renderer} {host : Host}.

(** X14: when the settings file is not there, [load_settings] does not
    read anything and returns the defaults of the dataclass, which pass
    both validations; it cannot fail. *)
Theorem load_settings_missing_file
    (files : gmap Path Kind) (settings_path : option Path) :
  let p := default (path_of_string "settings.json") settings_path in
  path_exists files p = false ->
  load_settings files settings_path
  = ([CfgSettingsNotFound p], inr default_settings)
  /\ CropSettings_post_init (crop default_settings) = None
  /\ Settings_post_init default_settings = ([], None).
Proof.
  intros p Hmissing. unfold load_settings. fold p. by rewrite Hmissing.
Qed.

(** X15: [main] takes its settings from [argv[1]] when there is one,
    otherwise from [settings.json] in the current directory when that
    exists and from the script directory when not, and hands the path
    to [load_settings] only when it exists. When [main] returns and
    that call raised, the exit code is 1, the error has been printed on
    the error stream and nothing has been converted or printed on
    standard output. When it returned settings, the log file, if any,
    has been opened, [convert_batch] has run with these settings and
    returned, its summary has been printed, and the exit code is 1
    exactly when some document of the batch has status failed, 0
    otherwise: partial and skipped documents leave it at 0. *)
Theorem main_exit_code (argv : list string) (p p' : Process) (code : Z) :
  main argv p = (inr code, p') ->
  let files := fs (world p) in
  let settings_path :=
    match argv with
    | _ :: arg :: _ => path_of_string arg
    | _ =>
        if path_exists files (path_of_string "settings.json")
        then path_of_string "settings.json"
        else path_join script_dir "settings.json"
    end in
  match
    (load_settings files
       (if path_exists files settings_path then Some settings_path
        else None)).2
  with
  | inl e =>
      code = 1%Z /\ world p' = world p
      /\ print_stdout p' = print_stdout p
      /\ print_stderr p' = print_stderr p ++ [e]
  | inr settings =>
      exists files1 b,
        match log_file settings with
        | Some f => open_log_file f files = (None, files1)
        | None => files1 = files
        end
        /\ convert_batch settings {| fs := files1; log := log (world p) |}
           = (inr b, world p')
        /\ print_stdout p' = print_stdout p ++ print_summary b
        /\ (code = 1%Z <-> Exists (fun r => status r = failed) (results b))
        /\ (code = 0%Z
            <-> Forall (fun r => status r <> failed) (results b))
  end.
Proof.
  intros Hmain files settings_path.
  unfold main in Hmain. fold files in Hmain.
  assert (match argv with
          | _ :: arg :: _ => path_of_string arg
          | _ =>
              if negb (path_exists files (path_of_string "settings.json"))
              then path_join script_dir "settings.json"
              else path_of_string "settings.json"
          end = settings_path) as Hpath.
  { subst settings_path. destruct argv as [|? [|? ?]]; try done;
      by destruct (path_exists files (path_of_string "settings.json")). }
  rewrite Hpath in Hmain.
  destruct (load_settings files _) as [records [e | settings]];
    simpl in Hmain |- *.
  { by injection Hmain as <- <-. }
  destruct (setup_logging settings _) as [[e|] p1] eqn:Hlog; [done|].
  assert (exists files1,
             match log_file settings with
             | Some f => open_log_file f files = (None, files1)
             | None => files1 = files
             end
             /\ world p1 = {| fs := files1; log := log (world p) |}
             /\ print_stdout p1 = print_stdout p)
    as (files1 & Hopen & Hworld & Hout).
  { unfold setup_logging in Hlog. simpl in Hlog. fold files in Hlog.
    destruct (log_file settings) as [f|];
      [destruct (open_log_file f files) as [[?|] files1] eqn:Hopen |];
      simplify_eq/=; by eexists. }
  destruct (convert_batch settings (world p1)) as [[e | b] w] eqn:Hrun;
    [done|].
  injection Hmain as <- <-. simpl. rewrite Hworld in Hrun.
  destruct (convert_batch_counts settings _ _ _ Hrun)
    as (_ & _ & Hfailed & _).
  assert ((0 <? failed_count b) = true
          <-> Exists (fun r => status r = failed) (results b)) as Hex.
  { rewrite Hfailed, Nat.ltb_lt. apply count_status_pos. }
  exists files1, b. split_and!; [done | done | by rewrite Hout | |].
  - rewrite <- Hex. by destruct (0 <? failed_count b).
  - rewrite Forall_Exists_neg, <- Hex.
    by destruct (0 <? failed_count b).
Qed.

(** X16: a settings path given on the command line that does not exist
    is not an error and is never mentioned again: [main] goes on as it
    does for any other missing path; it falls back to [settings.json]
    in the current directory, exactly as if no argument had been given,
    when that file exists or when there is none next to the script
    either. *)
Theorem main_missing_argument (prog arg : string) (p : Process) :
  path_exists (fs (world p)) (path_of_string arg) = false ->
  (forall prog' arg' : string,
      path_exists (fs (world p)) (path_of_string arg') = false ->
      main [prog; arg] p = main [prog'; arg'] p)
  /\ (path_exists (fs (world p)) (path_of_string "settings.json") = true
      \/ path_exists (fs (world p)) (path_join script_dir "settings.json")
         = false ->
      main [prog; arg] p = main [prog] p).
Proof.
  intros Harg. split.
  - intros prog' arg' Harg'. unfold main. by rewrite Harg, Harg'.
  - intros Hfallback. unfold main. rewrite Harg.
    destruct (path_exists (fs (world p)) (path_of_string "settings.json"))
      eqn:Hcwd; cbn [negb].
    + by rewrite Hcwd.
    + destruct Hfallback as [? | Hscript]; [done|]. by rewrite Hscript.
Qed.

End MainProperties.

(** X17: [print_summary] prints nine summary lines and then, only if
    some result is failed, a heading and one line per failed result, in
    the order of the results; for a BatchResult built by [add] the
    number of those lines is the Failed counter printed above them. *)
Theorem print_summary_failed_files (rs : list ConversionResult) :
  let b := fold_left add rs empty_batch in
  let failed_results :=
    List.filter (fun r => bool_decide (status r = failed)) rs in
  length failed_results = failed_count b
  /\ drop 9 (print_summary b)
     = (if decide (failed_count b = 0) then []
        else (newline +:+ "Failed Files:") :: map failed_line failed_results)
  /\ length (print_summary b)
     = 9 + (if decide (failed_count b = 0) then 0 else 1 + failed_count b).
Proof.
  intros b failed_results.
  destruct (fold_add_counts rs empty_batch) as (_ & _ & Hfailed & _).
  fold b in Hfailed. simpl in Hfailed.
  assert (length failed_results = failed_count b) as Hlen by by rewrite Hfailed.
  unfold print_summary. subst b. rewrite fold_add_results. simpl.
  fold failed_results. rewrite <- Hlen.
  destruct failed_results as [|r l]; simpl; [done|].
  rewrite length_map. done.
Qed.

(** ** Every result of a batch *)

Section BatchResults.
Context {R : Renderer}.
Context (settings : Settings).

(** What holds of every result of [convert_pdf] holds of every result
    the batch loop adds. *)
Lemma batch_loop_Forall (P : ConversionResult -> Prop)
    (pdf_files : list Path) (b b' : BatchResult) (w w' : World) :
  (forall pdf w r w', convert_pdf pdf settings w = (inr r, w') -> P r) ->
  batch_loop settings pdf_files b w = (inr b', w') ->
  Forall P (results b) -> Forall P (results b').
Proof.
  intros HP. revert b w. induction pdf_files as [|f rest IH]; intros b w; simpl.
  - unfold ret. by intros [= <- <-].
  - unfold bind at 1.
    destruct (convert_pdf f settings w) as [[e | r] w1] eqn:Hrun; [done|].
    assert (Forall P (results b) -> Forall P (results (add b r))) as Hadd.
    { intros Hb. rewrite add_results. apply Forall_app. split; [done|].
      constructor; [by eapply HP | constructor]. }
    destruct (fail_fast settings && bool_decide (status r = failed)).
    + unfold bind, logger, ret. intros [= <- <-]. exact Hadd.
    + intros Hrest Hb. eapply IH; [exact Hrest | by apply Hadd].
Qed.

(** X18: every result listed by [convert_batch] is well-formed: it has
    an error message exactly when it is failed (so the summary never
    prints a failed file without its reason), its converted and failed
    pages do not exceed its total, it lists one output file per
    converted page, and none when it is failed or skipped. *)
Theorem convert_batch_results_shape (w w' : World) (b : BatchResult) :
  convert_batch settings w = (inr b, w') ->
  Forall (fun r =>
            (status r = failed <-> is_Some (error_message r))
            /\ pages_converted r + pages_failed r <= pages_total r
            /\ length (output_files r) = pages_converted r
            /\ (status r = failed \/ status r = skipped ->
                output_files r = []))
    (results b).
Proof.
  destruct (convert_batch_cases settings w)
    as [[_ ->] | [[_ (e & _ & ->)] | [[_ (files' & _ & _ & ->)]
        | [_ (files' & _ & _ & ->)]]]]; try (by intros [= <- <-]).
  intros Hloop. eapply batch_loop_Forall; [| exact Hloop | by constructor].
  intros pdf w0 r w1 Hrun.
  destruct (convert_pdf_shape pdf settings w0)
    as (r0 & w2 & Hrun0 & _ & Hmsg & Hsum & Hlen & _ & _ & Hnone).
  rewrite Hrun0 in Hrun. injection Hrun as <- <-.
  split_and!; try done. intros Hst. by destruct (Hnone Hst).
Qed.

Section WithSaves.
Hypothesis Hsaves : saves_write_files R.

Lemma batch_loop_files (pdf_files : list Path) (b b' : BatchResult)
    (w w' : World) :
  batch_loop settings pdf_files b w = (inr b', w') ->
  Forall (fun r => Forall (fun p => path_exists (fs w) p = true)
                     (output_files r)) (results b) ->
  Forall (fun r => Forall (fun p => path_exists (fs w') p = true)
                     (output_files r)) (results b').
Proof.
  revert b w. induction pdf_files as [|f rest IH]; intros b w; simpl.
  - unfold ret. by intros [= <- <-].
  - unfold bind at 1.
    destruct (convert_pdf f settings w) as [[e | r] w1] eqn:Hrun; [done|].
    destruct (convert_pdf_files f settings Hsaves _ _ _ Hrun) as [Hnew Hkept].
    assert (Forall (fun r => Forall (fun p => path_exists (fs w) p = true)
                               (output_files r)) (results b) ->
            Forall (fun r => Forall (fun p => path_exists (fs w1) p = true)
                               (output_files r)) (results (add b r)))
      as Hadd.
    { intros Hb. rewrite add_results. apply Forall_app. split.
      - eapply Forall_impl; [exact Hb|]. intros r0 Hr0.
        eapply Forall_impl; [exact Hr0 | auto].
      - by constructor. }
    destruct (fail_fast settings && bool_decide (status r = failed)).
    + unfold bind, logger, ret. intros [= <- <-]. exact Hadd.
    + intros Hrest Hb. eapply IH; [exact Hrest | by apply Hadd].
Qed.

(** X19: with a renderer whose saves write their file and remove none,
    every output file listed in any result of the batch exists when
    [convert_batch] returns: later documents do not undo earlier
    ones. *)
Theorem convert_batch_outputs_exist (w w' : World) (b : BatchResult) :
  convert_batch settings w = (inr b, w') ->
  Forall (fun r => Forall (fun p => path_exists (fs w') p = true)
                     (output_files r)) (results b).
Proof.
  destruct (convert_batch_cases settings w)
    as [[_ ->] | [[_ (e & _ & ->)] | [[_ (files' & _ & _ & ->)]
        | [_ (files' & _ & _ & ->)]]]]; try (by intros [= <- <-]).
  intros Hloop. eapply batch_loop_files; [exact Hloop | by constructor].
Qed.

End WithSaves.

End BatchResults.

(** ** The added properties at work on the test double *)

Lemma convert_pdf_skipped_iff_witness :
  exists r w',
    convert_pdf (R := fake_renderer sample_disk)
      ["input"; "a.pdf"] sample_settings resumed_world = (inr r, w')
    /\ status r = skipped /\ fs w' = fs resumed_world.
Proof.
  destruct (convert_pdf_outcome (R := fake_renderer sample_disk)
              ["input"; "a.pdf"] sample_settings resumed_world)
    as (r & w' & _ & Hrun & _).
  destruct (convert_pdf_skipped_iff (R := fake_renderer sample_disk)
              ["input"; "a.pdf"] sample_settings resumed_world w' r Hrun)
    as [Hiff Hskipped].
  assert (status r = skipped) as Hst.
  { apply Hiff. split_and!; [reflexivity | reflexivity |].
    vm_compute. reflexivity. }
  exists r, w'. split_and!; [exact Hrun | exact Hst | by apply Hskipped].
Defined.

Lemma convert_pdf_result_shape_witness :
  exists r w',
    convert_pdf (R := fake_renderer sample_disk)
      ["input"; "d.pdf"] sample_settings sample_world = (inr r, w')
    /\ pages_converted r + pages_failed r <= pages_total r
    /\ length (output_files r) = pages_converted r.
Proof.
  destruct (convert_pdf_result_shape (R := fake_renderer sample_disk)
              ["input"; "d.pdf"] sample_settings sample_world)
    as (r & w' & Hrun & _ & _ & Hsum & Hlen & _).
  exists r, w'. split_and!; [exact Hrun | exact Hsum | exact Hlen].
Defined.

Lemma convert_pdf_unreadable_witness :
  exists r w',
    convert_pdf (R := fake_renderer sample_disk)
      ["input"; "b.pdf"] sample_settings sample_world = (inr r, w')
    /\ status r = failed
    /\ error_message r = Some "Corrupt PDF: no objects found"
    /\ fs w' = fs sample_world.
Proof.
  destruct (convert_pdf_unreadable (R := fake_renderer sample_disk)
              ["input"; "b.pdf"] sample_settings sample_world)
    as [Hopen _]; [vm_compute; reflexivity|].
  destruct (Hopen (Exn FileDataError "no objects found"))
    as (r & w' & Hrun & Hst & Hmsg & _ & _ & Hfs & _);
    [vm_compute; reflexivity|].
  exists r, w'. split_and!; [exact Hrun | exact Hst | exact Hmsg | exact Hfs].
Defined.

Lemma convert_pdf_page_limit_witness :
  exists r w',
    convert_pdf (R := fake_renderer sample_disk)
      ["input"; "a.pdf"] sample_settings sample_world = (inr r, w')
    /\ pages_total r = 2 /\ pages_converted r + pages_failed r = 2.
Proof.
  destruct (convert_pdf_page_limit (R := fake_renderer sample_disk)
              ["input"; "a.pdf"] sample_settings sample_world
              two_page_document)
    as (r & w' & Hrun & Htotal & Hall & _);
    [vm_compute; reflexivity | vm_compute; reflexivity | reflexivity |].
  exists r, w'. split_and!; [exact Hrun | exact Htotal |].
  apply Hall. vm_compute. discriminate.
Defined.

Lemma convert_pdf_all_pages_existing_witness :
  exists r w',
    convert_pdf (R := fake_renderer sample_disk)
      ["input"; "a.pdf"] no_skip_settings converted_world = (inr r, w')
    /\ status r = success /\ pages_converted r = 2
    /\ fs w' = fs converted_world.
Proof.
  destruct (convert_pdf_all_pages_existing (R := fake_renderer sample_disk)
              ["input"; "a.pdf"] no_skip_settings converted_world
              two_page_document)
    as (r & w' & Hrun & Hst & Hconv & _ & _ & Hfs & _);
    [reflexivity | reflexivity | vm_compute; reflexivity | reflexivity | |].
  - intros i Hi. change (i < 2) in Hi.
    destruct i as [|[|i]]; [vm_compute; reflexivity.. | lia].
  - exists r, w'. split_and!; [exact Hrun | exact Hst | exact Hconv | exact Hfs].
Defined.

Lemma convert_pdf_outputs_exist_witness :
  exists r w',
    convert_pdf (R := fake_renderer sample_disk)
      ["input"; "d.pdf"] sample_settings sample_world = (inr r, w')
    /\ Forall (fun p => path_exists (fs w') p = true) (output_files r).
Proof.
  destruct (convert_pdf_outcome (R := fake_renderer sample_disk)
              ["input"; "d.pdf"] sample_settings sample_world)
    as (r & w' & conv & Hrun & _).
  exists r, w'. split; [exact Hrun|].
  apply (convert_pdf_outputs_exist ["input"; "d.pdf"] sample_settings
           (fake_renderer_saves_write_files sample_disk) _ _ _ Hrun).
Defined.

Lemma convert_pdf_rerun_skipped_witness :
  exists r w' r2 w2,
    convert_pdf (R := fake_renderer sample_disk)
      ["input"; "c.pdf"] sample_settings sample_world = (inr r, w')
    /\ convert_pdf (R := fake_renderer sample_disk)
         ["input"; "c.pdf"] sample_settings w' = (inr r2, w2)
    /\ status r = success /\ status r2 = skipped /\ fs w2 = fs w'.
Proof.
  destruct (convert_pdf_outcome (R := fake_renderer sample_disk)
              ["input"; "c.pdf"] sample_settings sample_world)
    as (r & w' & conv & Hrun & _).
  assert (status r = success /\ pages_converted r = 1) as [Hst Hconv].
  { assert (exists r0 w0,
               convert_pdf (R := fake_renderer sample_disk)
                 ["input"; "c.pdf"] sample_settings sample_world
               = (inr r0, w0)
               /\ status r0 = success /\ pages_converted r0 = 1)
      as (r0 & w0 & Hrun0 & Hst0 & Hconv0).
    { eexists _, _. split; [vm_compute; reflexivity | split; reflexivity]. }
    rewrite Hrun in Hrun0. injection Hrun0 as Hr _. by rewrite Hr. }
  destruct (convert_pdf_rerun_skipped ["input"; "c.pdf"] sample_settings
              (fake_renderer_saves_write_files sample_disk) _ _ _
              eq_refl eq_refl Hrun) as [Hrerun Hfirst].
  destruct Hrerun as (r2 & w2 & Hrun2 & Hst2 & _ & _ & Hfs2).
  { apply Hfirst; [exact Hst | lia]. }
  exists r, w', r2, w2.
  split_and!; [exact Hrun | exact Hrun2 | exact Hst | exact Hst2 | exact Hfs2].
Defined.

Lemma ready_world_clear (q : Path) :
  q `prefix_of` output_folder sample_settings ->
  kind_of (fs ready_world) q <> Some File.
Proof.
  intros [rest Heq]. destruct q as [|c [|d q]]; [done | | done].
  injection Heq as <- _. vm_compute. discriminate.
Qed.

Lemma convert_batch_counters_witness :
  exists b w',
    convert_batch (R := fake_renderer sample_disk) sample_settings ready_world
    = (inr b, w')
    /\ failed_count b = count_status failed (results b)
    /\ total_files b = length (results b).
Proof.
  destruct (convert_batch_raises (R := fake_renderer sample_disk)
              sample_settings ready_world) as [_ Hreturns].
  destruct (Hreturns ready_world_clear) as (b & w' & Hrun).
  destruct (convert_batch_counters sample_settings _ _ _ Hrun)
    as (_ & _ & Hfailed & _ & Htotal).
  exists b, w'. split_and!; [exact Hrun | exact Hfailed | exact Htotal].
Defined.

Lemma convert_batch_documents_witness :
  exists b w',
    convert_batch (R := fake_renderer sample_disk) sample_settings ready_world
    = (inr b, w')
    /\ map pdf_path (results b)
       `prefix_of` [["input"; "a.pdf"]; ["input"; "b.pdf"]; ["input"; "c.pdf"]]
    /\ NoDup (map pdf_path (results b)).
Proof.
  destruct (convert_batch_raises (R := fake_renderer sample_disk)
              sample_settings ready_world) as [_ Hreturns].
  destruct (Hreturns ready_world_clear) as (b & w' & Hrun).
  assert (mkdir_parents_exist_ok (output_folder sample_settings)
            (fs ready_world) = inr (fs ready_world)) as Hmk.
  { apply mkdir_rev_existing. vm_compute. reflexivity. }
  assert (sorted (glob_pdf (fs ready_world) (input_folder sample_settings))
          = [["input"; "a.pdf"]; ["input"; "b.pdf"]; ["input"; "c.pdf"]])
    as Hscan by (vm_compute; reflexivity).
  destruct (convert_batch_documents sample_settings _ _ _ _ Hmk Hrun)
    as (Hprefix & _ & Hnodup & _).
  rewrite Hscan in Hprefix.
  exists b, w'. split_and!; [exact Hrun | exact Hprefix | exact Hnodup].
Defined.

Lemma get_output_path_collision_witness :
  get_output_path ["input"; "a.pdf"] 0 ["output"] "jpg"
  <> get_output_path ["input"; "a_001.pdf"] 0 ["output"] "jpg"
  /\ (["input"; "a.pdf"] = ["input"; "a.pdf"] /\ 4 = 4).
Proof.
  destruct (get_output_path_collision ["input"; "a.pdf"] ["input"; "a_001.pdf"]
              ["output"] "jpg" 0 0) as [Hiff _].
  destruct (get_output_path_collision ["input"; "a.pdf"] ["input"; "a.pdf"]
              ["output"] "jpg" 4 4) as [_ Hsame].
  split.
  - intros Heq. apply Hiff in Heq as [Hstem _]. vm_compute in Hstem.
    discriminate Hstem.
  - apply (Hsame ["input"] "a" "a"); [reflexivity | reflexivity | | | ];
      done.
Defined.

Lemma CropSettings_post_init_accepts_witness :
  (horizontal_start margin_crop < horizontal_end margin_crop)%Q
  /\ CropSettings_post_init (set_enabled false margin_crop) = None.
Proof.
  destruct (CropSettings_post_init_accepts margin_crop) as [Hiff Henabled].
  split.
  - apply Hiff. reflexivity.
  - rewrite Henabled. reflexivity.
Defined.

Lemma settings_of_raw_accepts_witness :
  exists records s, settings_of_raw sample_raw = (records, inr s).
Proof.
  destruct (settings_of_raw_accepts sample_raw) as [Hiff _].
  apply Hiff. split; [reflexivity | vm_compute; split; discriminate].
Defined.

Lemma load_settings_missing_file_witness :
  load_settings (host := sample_host) ∅ None
  = ([CfgSettingsNotFound ["settings.json"]], inr default_settings).
Proof.
  destruct (load_settings_missing_file (host := sample_host) ∅ None)
    as [Hload _]; [vm_compute; reflexivity | exact Hload].
Defined.

Lemma main_exit_code_witness :
  exists p' b,
    main (R := fake_renderer sample_disk) (host := sample_host)
      ["main.py"] (start failing_main_fs) = (inr 1%Z, p')
    /\ print_stdout p' = print_summary b
    /\ Exists (fun r => status r = failed) (results b).
Proof.
  destruct (main (R := fake_renderer sample_disk) (host := sample_host)
              ["main.py"] (start failing_main_fs)) as [[e | code] p'] eqn:Hrun.
  { vm_compute in Hrun. discriminate Hrun. }
  assert (code = 1%Z) as ->.
  { vm_compute in Hrun. by injection Hrun as <- _. }
  pose proof (main_exit_code _ _ _ _ Hrun) as Hcode. cbv zeta in Hcode.
  match type of Hcode with
  | match ?loaded with _ => _ end =>
      let v := eval vm_compute in loaded in
      replace loaded with v in Hcode by (vm_compute; reflexivity)
  end.
  cbv beta iota in Hcode.
  destruct Hcode as (files1 & b & _ & _ & Hout & Hone & _).
  exists p', b. split_and!; [reflexivity | exact Hout | by apply Hone].
Defined.

Lemma main_missing_argument_witness :
  main (R := fake_renderer sample_disk) (host := sample_host)
    ["main.py"; "missing.json"] (start main_fs)
  = main (R := fake_renderer sample_disk) (host := sample_host)
      ["main.py"] (start main_fs).
Proof.
  destruct (main_missing_argument (R := fake_renderer sample_disk)
              (host := sample_host) "main.py" "missing.json" (start main_fs))
    as [_ Hfallback]; [vm_compute; reflexivity|].
  apply Hfallback. left. vm_compute. reflexivity.
Defined.

Lemma convert_batch_results_shape_witness :
  exists b w',
    convert_batch (R := fake_renderer sample_disk) sample_settings ready_world
    = (inr b, w')
    /\ Forall (fun r => length (output_files r) = pages_converted r)
         (results b).
Proof.
  destruct (convert_batch_raises (R := fake_renderer sample_disk)
              sample_settings ready_world) as [_ Hreturns].
  destruct (Hreturns ready_world_clear) as (b & w' & Hrun).
  exists b, w'. split; [exact Hrun|].
  eapply Forall_impl;
    [exact (convert_batch_results_shape sample_settings _ _ _ Hrun)|].
  by intros r (_ & _ & Hlen & _).
Defined.

Lemma convert_batch_outputs_exist_witness :
  exists b w',
    convert_batch (R := fake_renderer sample_disk) sample_settings ready_world
    = (inr b, w')
    /\ Forall (fun r => Forall (fun p => path_exists (fs w') p = true)
                          (output_files r)) (results b).
Proof.
  destruct (convert_batch_raises (R := fake_renderer sample_disk)
              sample_settings ready_world) as [_ Hreturns].
  destruct (Hreturns ready_world_clear) as (b & w' & Hrun).
  exists b, w'. split; [exact Hrun|].
  exact (convert_batch_outputs_exist sample_settings
           (fake_renderer_saves_write_files sample_disk) _ _ _ Hrun).
Defined.
